(** * Setup Manager HUD: ingestion, broadcast hub, statistics and viewer protocol

    A shallow embedding of the TypeScript sources

    - [src/types.ts]: the payload validator [validateWebhookPayload] with
      its helpers, and the interfaces of stored events;
    - [src/index.ts]: [handleWebhook], [handleEvents], [handleStats] and
      [timingSafeEqual];
    - [src/DashboardRoom.ts]: [fetch] (broadcast, connection count,
      upgrade), [webSocketMessage] and [sendHistory];
    - [src/hooks/useWebSocket.ts]: the [onopen] / [onclose] callbacks of
      the reconnect loop, the [onmessage] callback and the statistics
      computed from the list on screen;

    followed by the notions and sample data used to state properties, and
    by the properties themselves.

    Conventions of the embedding.

    - A JavaScript number is an IEEE-754 binary64 value, modelled by Rocq's
      primitive [float]; division, multiplication and comparison are the
      primitive operations.
    - Integers that the program only counts, compares or clamps (array
      lengths, epoch milliseconds, the result of [parseInt]) are [nat] or [Z].
    - A value produced by [JSON.parse] is a [JSValue]; an object keeps its
      own properties as an association list in insertion order, which is the
      order [Object.keys] reports.
    - An operation that can raise a JavaScript exception returns a
      [Completion]: either a normal value or a thrown error.
    - What a handler does to the world (store writes, broadcasts, parsing,
      logging) is returned next to its answer: the environment afterwards
      and the list of effects in program order.
    - Library functions whose algorithm is not part of the repository
      ([JSON.parse], [JSON.stringify], [Date.parse], the HMAC primitive) are
      section variables. *)

From Stdlib Require Import ZArith List String Ascii Bool Lia Floats.
From Stdlib Require Import DecimalString Permutation Sorted.
Import ListNotations.

Set Warnings "-register-all".

Local Open Scope bool_scope.
Local Open Scope list_scope.

(* ================================================================== *)
(** * JavaScript core *)
(* ================================================================== *)

Module JS.

(** ** Completions: normal results and thrown exceptions *)

Inductive Completion (A : Type) : Type :=
| Normal (a : A)
| Throw (err : string).

Arguments Normal {A} a.
Arguments Throw {A} err.

Definition bind {A B : Type} (c : Completion A) (k : A -> Completion B) : Completion B :=
  match c with
  | Normal a => k a
  | Throw e => Throw e
  end.

Declare Scope js_scope.
Delimit Scope js_scope with js.
Notation "x <- c ;; k" := (bind c (fun x => k))
  (at level 61, c at next level, right associativity) : js_scope.

(** ** Values obtained from [JSON.parse], plus [undefined] *)

Inductive JSValue : Type :=
| JSUndefined
| JSNull
| JSBoolean (b : bool)
| JSNumber (x : float)
| JSString (s : string)
| JSArray (elems : list JSValue)
| JSObject (props : list (string * JSValue)).

(** [typeof v] *)
Definition typeof (v : JSValue) : string :=
  match v with
  | JSUndefined => "undefined"
  | JSNull => "object"
  | JSBoolean _ => "boolean"
  | JSNumber _ => "number"
  | JSString _ => "string"
  | JSArray _ => "object"
  | JSObject _ => "object"
  end.

(** [v === null] and [v === undefined] *)
Definition is_null (v : JSValue) : bool :=
  match v with JSNull => true | _ => false end.

Definition is_undefined (v : JSValue) : bool :=
  match v with JSUndefined => true | _ => false end.

(** [v === "literal"]: strict equality against a string literal *)
Definition strict_eq_string (v : JSValue) (lit : string) : bool :=
  match v with
  | JSString s => String.eqb s lit
  | _ => false
  end.

(** [Array.isArray(v)] *)
Definition Array_isArray (v : JSValue) : bool :=
  match v with JSArray _ => true | _ => false end.

(** [literals.includes(v)] for an array of string literals (SameValueZero
    against strings is string equality; no other type is equal to a string). *)
Definition includes (literals : list string) (v : JSValue) : bool :=
  existsb (strict_eq_string v) literals.

(** Decimal rendering of an array index, as in a template literal. *)
Definition string_of_nat (n : nat) : string :=
  NilEmpty.string_of_uint (Nat.to_uint n).

Fixpoint lookup (props : list (string * JSValue)) (key : string) : option JSValue :=
  match props with
  | [] => None
  | (k, v) :: rest => if String.eqb k key then Some v else lookup rest key
  end.

(** [v[key]] / [v.key] for the property names the program reads
    ([event], [name], [duration], [label], ...).  None of them is defined
    on [Object.prototype], [Array.prototype] or a wrapper prototype, so the
    lookup is an own-property lookup on objects and [undefined] on arrays
    and primitives; on [null] and [undefined] it throws a [TypeError]. *)
Definition Get (v : JSValue) (key : string) : Completion JSValue :=
  match v with
  | JSUndefined => Throw "TypeError: cannot read properties of undefined"
  | JSNull => Throw "TypeError: cannot read properties of null"
  | JSObject props =>
      Normal (match lookup props key with Some x => x | None => JSUndefined end)
  | _ => Normal JSUndefined
  end.

(** [Object.keys(v)]: own enumerable string keys.  Throws on [null] and
    [undefined]; arrays and strings enumerate their indices. *)
Definition Object_keys (v : JSValue) : Completion (list string) :=
  match v with
  | JSUndefined => Throw "TypeError: cannot convert undefined to object"
  | JSNull => Throw "TypeError: cannot convert null to object"
  | JSObject props => Normal (map fst props)
  | JSArray elems => Normal (map string_of_nat (seq 0 (List.length elems)))
  | JSString s => Normal (map string_of_nat (seq 0 (String.length s)))
  | _ => Normal []
  end.

(** ** Strings *)

(** White space removed by [String.prototype.trim] and skipped by
    [parseInt], restricted to the one-byte characters of [string]:
    TAB, LF, VT, FF, CR and SPACE. *)
Definition isWhiteSpace (c : ascii) : bool :=
  let n := nat_of_ascii c in
  ((9 <=? n) && (n <=? 13)) || (n =? 32).

Fixpoint trimStart (s : string) : string :=
  match s with
  | EmptyString => EmptyString
  | String c rest => if isWhiteSpace c then trimStart rest else s
  end.

Definition string_rev (s : string) : string :=
  string_of_list_ascii (rev (list_ascii_of_string s)).

Definition trimEnd (s : string) : string :=
  string_rev (trimStart (string_rev s)).

Definition trim (s : string) : string := trimEnd (trimStart s).

(** [value.trim()]: a method call, a [TypeError] on anything but a string. *)
Definition String_trim (v : JSValue) : Completion string :=
  match v with
  | JSString s => Normal (trim s)
  | _ => Throw "TypeError: value.trim is not a function"
  end.

(** [hay.includes(needle)] on strings *)
Fixpoint String_includes (hay needle : string) : bool :=
  String.prefix needle hay
  || match hay with
     | EmptyString => false
     | String _ rest => String_includes rest needle
     end.

(** [s.startsWith(p)] and [s.slice(n)] *)
Definition startsWith (s p : string) : bool := String.prefix p s.

Definition slice (n : nat) (s : string) : string :=
  String.substring n (String.length s - n) s.

(** ** [parseInt(s, 10)]

    Leading white space is skipped, an optional sign is read, then the
    longest run of decimal digits; [None] stands for [NaN] (no digit).
    The result is kept as an exact integer: the program only tests it for
    truthiness, compares it with 8192 and clamps it between representable
    bounds, and rounding to binary64 is monotone and fixes those bounds. *)

Definition digit_of (c : ascii) : option Z :=
  let n := nat_of_ascii c in
  if (48 <=? n) && (n <=? 57) then Some (Z.of_nat (n - 48)) else None.

Fixpoint parse_digits (s : string) (acc : option Z) : option Z :=
  match s with
  | EmptyString => acc
  | String c rest =>
      match digit_of c with
      | Some d =>
          parse_digits rest
            (Some (10 * (match acc with Some a => a | None => 0 end) + d)%Z)
      | None => acc
      end
  end.

Definition parseInt (s : string) : option Z :=
  match trimStart s with
  | String "-" rest => option_map Z.opp (parse_digits rest None)
  | String "+" rest => parse_digits rest None
  | t => parse_digits t None
  end.

(** [x || d] on the result of [parseInt]: [NaN] and [0] are falsy. *)
Definition number_or (x : option Z) (d : Z) : Z :=
  match x with
  | Some n => if (n =? 0)%Z then d else n
  | None => d
  end.

(** [s || d] on a nullable string: [null] and the empty string are falsy. *)
Definition string_or (s : option string) (d : string) : string :=
  match s with
  | Some EmptyString => d
  | Some t => t
  | None => d
  end.

(** ** Numbers *)

Definition float_of_Z (n : Z) : float := PrimFloat.of_uint63 (Uint63.of_Z n).
Definition float_of_nat (n : nat) : float := float_of_Z (Z.of_nat n).

(** [Math.max(x, y)] and [Math.min(x, y)]: [NaN] is contagious and
    [+0] is larger than [-0]. *)
Definition Math_max (x y : float) : float :=
  if PrimFloat.is_nan x || PrimFloat.is_nan y then PrimFloat.nan
  else if PrimFloat.ltb x y then y
  else if PrimFloat.ltb y x then x
  else if PrimFloat.get_sign x then y else x.

Definition Math_min (x y : float) : float :=
  if PrimFloat.is_nan x || PrimFloat.is_nan y then PrimFloat.nan
  else if PrimFloat.ltb x y then x
  else if PrimFloat.ltb y x then y
  else if PrimFloat.get_sign x then x else y.

(** [Math.floor] and [Math.round].  Below 2^52 in magnitude, adding and
    subtracting 2^52 rounds to an integer (ties to even); one correction
    step turns that into the floor.  [Math.round] is the integer nearest
    to [x], the larger one on a tie; [x - floor x] is computed exactly. *)
Definition two52 : float := 4503599627370496%float.

Definition Math_floor (x : float) : float :=
  if PrimFloat.ltb (PrimFloat.abs x) two52 then
    let t := if PrimFloat.leb 0 x
             then PrimFloat.sub (PrimFloat.add x two52) two52
             else PrimFloat.add (PrimFloat.sub x two52) two52 in
    if PrimFloat.ltb x t then PrimFloat.sub t 1 else t
  else x.

Definition Math_round (x : float) : float :=
  let fl := Math_floor x in
  let r := if PrimFloat.leb 0.5 (PrimFloat.sub x fl) then PrimFloat.add fl 1 else fl in
  if PrimFloat.is_zero r && PrimFloat.ltb x 0 then PrimFloat.neg_zero else r.

End JS.


(* ================================================================== *)
(** * Payload validator ([src/types.ts]) *)
(* ================================================================== *)

Module Types.
Import JS.
Local Open Scope js_scope.
Local Open Scope string_scope.

Record ValidationResult : Type := mkValidationResult {
  valid : bool;
  error : option string
}.

(** Required fields for all Setup Manager webhooks *)
Definition REQUIRED_BASE_FIELDS : list string :=
  [ "name"; "event"; "timestamp"; "started"; "modelName"; "modelIdentifier";
    "macOSBuild"; "macOSVersion"; "serialNumber"; "setupManagerVersion" ].

(** Additional required fields for finished webhooks *)
Definition REQUIRED_FINISHED_FIELDS : list string := [ "duration"; "finished" ].

Definition EVENT_STARTED : string := "com.jamf.setupmanager.started".
Definition EVENT_FINISHED : string := "com.jamf.setupmanager.finished".

(** Valid event types *)
Definition VALID_EVENTS : list string := [ EVENT_STARTED; EVENT_FINISHED ].

(** Property names that could enable prototype pollution if passed through *)
Definition DANGEROUS_KEYS : list string := [ "__proto__"; "constructor"; "prototype" ].

(** A word between double quotes, as it appears inside an error message. *)
Definition quoted (s : string) : string :=
  String (ascii_of_nat 34) (s ++ String (ascii_of_nat 34) EmptyString).

(** [typeof v !== 'object' || v === null] *)
Definition not_an_object (v : JSValue) : bool :=
  negb (String.eqb (typeof v) "object") || is_null v.

(** Validates that a value is a non-empty string:
    [typeof value === 'string' && value.trim().length > 0]. *)
Definition isNonEmptyString (value : JSValue) : Completion bool :=
  if String.eqb (typeof value) "string"
  then t <- String_trim value ;; Normal (Nat.ltb 0 (String.length t))
  else Normal false.

(** Validates that a value is a non-negative number:
    [typeof value === 'number' && value >= 0 && isFinite(value)]. *)
Definition isNonNegativeNumber (value : JSValue) : bool :=
  match value with
  | JSNumber x => PrimFloat.leb 0 x && PrimFloat.is_finite x
  | _ => false
  end.

(** Checks an object for prototype pollution keys:
    [Object.keys(obj).some((key) => DANGEROUS_KEYS.includes(key))]. *)
Definition is_dangerous_key (key : string) : bool :=
  existsb (String.eqb key) DANGEROUS_KEYS.

Definition hasDangerousKeys (obj : JSValue) : Completion bool :=
  keys <- Object_keys obj ;;
  Normal (existsb is_dangerous_key keys).

(** Validates an enrollment action object *)
Definition isValidEnrollmentAction (action : JSValue) : Completion bool :=
  if not_an_object action then Normal false else
  dangerous <- hasDangerousKeys action ;;
  if dangerous then Normal false else
  label <- Get action "label" ;;
  labelOk <- isNonEmptyString label ;;
  if labelOk then
    status <- Get action "status" ;;
    Normal (strict_eq_string status "finished" || strict_eq_string status "failed")
  else Normal false.

(** The loop [for (const field of fields) if (obj[field] !== undefined &&
    typeof obj[field] !== 'string') ...]: the first offending field. *)
Fixpoint firstNonStringField (obj : JSValue) (fields : list string)
  : Completion (option string) :=
  match fields with
  | [] => Normal None
  | field :: rest =>
      v <- Get obj field ;;
      if negb (is_undefined v) && negb (String.eqb (typeof v) "string")
      then Normal (Some field)
      else firstNonStringField obj rest
  end.

(** Validates a UserEntry object *)
Definition isValidUserEntry (entry : JSValue) : Completion bool :=
  if not_an_object entry then Normal false else
  dangerous <- hasDangerousKeys entry ;;
  if dangerous then Normal false else
  bad <- firstNonStringField entry [ "department"; "computerName"; "userID"; "assetTag" ] ;;
  Normal (match bad with Some _ => false | None => true end).

(** ** Early returns

    Every [return { valid: false, error: msg }] of the validator leaves the
    function at once.  A [Check] is one guarded step: [Some msg] is that
    early return, [None] falls through to the next statement. *)

Definition Check : Type := Completion (option string).

Definition pass : Check := Normal None.
Definition reject (msg : string) : Check := Normal (Some msg).

Definition and_then (c1 c2 : Check) : Check :=
  r <- c1 ;;
  match r with
  | Some msg => Normal (Some msg)
  | None => c2
  end.

Notation "c1 >>> c2" := (and_then c1 c2) (at level 62, right associativity) : js_scope.

(** [if (!cond) return { valid: false, error: msg }] *)
Definition require (cond : Completion bool) (msg : string) : Check :=
  b <- cond ;; if b then pass else reject msg.

(** [for (const field of REQUIRED_BASE_FIELDS) if (!isNonEmptyString(obj[field])) return ...] *)
Fixpoint requiredBaseFields (obj : JSValue) (fields : list string) : Check :=
  match fields with
  | [] => pass
  | field :: rest =>
      require (v <- Get obj field ;; isNonEmptyString v)
              ("Missing or invalid required field: " ++ field)
      >>> requiredBaseFields obj rest
  end.

(** [for (const field of REQUIRED_FINISHED_FIELDS)]: [duration] is checked
    as a number, every other field as a non-empty string. *)
Fixpoint requiredFinishedFields (obj : JSValue) (fields : list string) : Check :=
  match fields with
  | [] => pass
  | field :: rest =>
      (if String.eqb field "duration"
       then require (v <- Get obj field ;; Normal (isNonNegativeNumber v))
                    "duration must be a non-negative number"
       else require (v <- Get obj field ;; isNonEmptyString v)
                    ("Missing or invalid required field: " ++ field))
      >>> requiredFinishedFields obj rest
  end.

(** [for (let i = 0; i < actions.length; i++) if (!isValidEnrollmentAction(actions[i])) return ...] *)
Fixpoint enrollmentActionsLoop (actions : list JSValue) (i : nat) : Check :=
  match actions with
  | [] => pass
  | action :: rest =>
      require (isValidEnrollmentAction action)
              ("Invalid enrollment action at index " ++ string_of_nat i)
      >>> enrollmentActionsLoop rest (S i)
  end.

(** [if (obj[field] !== undefined && !isNonNegativeNumber(obj[field])) return ...] *)
Definition optionalThroughput (obj : JSValue) (field : string) : Check :=
  v <- Get obj field ;;
  if negb (is_undefined v) && negb (isNonNegativeNumber v)
  then reject (field ++ " must be a non-negative number")
  else pass.

Section WithDateParse.

(** [Date.parse]: the time value of a date string, [None] for an invalid
    date (a [NaN] time value). *)
Variable Date_parse : string -> option Z.

(** Validates that a value is a valid ISO 8601 timestamp.  The guard
    [isNonEmptyString] narrows [value] to a string before [new Date(value)]
    is built; the constructor is only modelled on strings and any other
    argument is treated as a failure (it is never reached). *)
Definition isValidTimestamp (value : JSValue) : Completion bool :=
  nonEmpty <- isNonEmptyString value ;;
  if negb nonEmpty then Normal false else
  match value with
  | JSString s =>
      let time := Date_parse s in
      Normal (negb (match time with None => true | Some _ => false end))
  | _ => Throw "new Date: argument is not a string"
  end.

(** Additional validation for finished events *)
Definition validateFinished (obj : JSValue) : Check :=
  requiredFinishedFields obj REQUIRED_FINISHED_FIELDS
  >>> require (v <- Get obj "finished" ;; isValidTimestamp v)
              "Invalid finished timestamp format"
  >>> (actions <- Get obj "enrollmentActions" ;;
       if is_undefined actions then pass else
       match actions with
       | JSArray elems => enrollmentActionsLoop elems 0
       | _ => reject "enrollmentActions must be an array"
       end)
  >>> (entry <- Get obj "userEntry" ;;
       if is_undefined entry then pass
       else require (isValidUserEntry entry) "Invalid userEntry object")
  >>> optionalThroughput obj "uploadThroughput"
  >>> optionalThroughput obj "downloadThroughput".

(** The body of [validateWebhookPayload], one [Check] per statement. *)
Definition validateChecks (payload : JSValue) : Check :=
  (if not_an_object payload then reject "Payload must be a non-null object" else pass)
  >>> require (d <- hasDangerousKeys payload ;; Normal (negb d))
              "Payload contains forbidden property names"
  >>> require (ev <- Get payload "event" ;; Normal (includes VALID_EVENTS ev))
              "Invalid event type"
  >>> requiredBaseFields payload REQUIRED_BASE_FIELDS
  >>> require (v <- Get payload "timestamp" ;; isValidTimestamp v)
              "Invalid timestamp format"
  >>> require (v <- Get payload "started" ;; isValidTimestamp v)
              "Invalid started timestamp format"
  >>> (ev <- Get payload "event" ;;
       if strict_eq_string ev EVENT_STARTED then
         nm <- Get payload "name" ;;
         if negb (strict_eq_string nm "Started")
         then reject ("name must be " ++ quoted "Started" ++ " for started events") else pass
       else pass)
  >>> (ev <- Get payload "event" ;;
       if strict_eq_string ev EVENT_FINISHED then
         nm <- Get payload "name" ;;
         if negb (strict_eq_string nm "Finished")
         then reject ("name must be " ++ quoted "Finished" ++ " for finished events") else pass
       else pass)
  >>> (ev <- Get payload "event" ;;
       if strict_eq_string ev EVENT_FINISHED then validateFinished payload else pass)
  >>> (bad <- firstNonStringField payload [ "jamfProVersion"; "jssID"; "computerName" ] ;;
       match bad with
       | Some field => reject (field ++ " must be a string if provided")
       | None => pass
       end).

(** Validates a Setup Manager webhook payload.
    Returns validation result with error message if invalid. *)
Definition validateWebhookPayload (payload : JSValue) : Completion ValidationResult :=
  r <- validateChecks payload ;;
  Normal (match r with
          | Some msg => {| valid := false; error := Some msg |}
          | None => {| valid := true; error := None |}
          end).

End WithDateParse.

(** ** Stored events, as declared by the interfaces of [src/types.ts]

    [JSON.parse(data) as StoredEvent] reads what [handleWebhook] wrote.  An
    optional property of a parsed object is absent, holds [null], or holds a
    value of the declared type. *)

Inductive JsonField (A : Type) : Type :=
| Absent
| Null
| Value (a : A).

Arguments Absent {A}.
Arguments Null {A}.
Arguments Value {A} a.

Record EnrollmentAction : Type := mkEnrollmentAction {
  label : string;
  status : string
}.

Record UserEntry : Type := mkUserEntry {
  department : JsonField string;
  ue_computerName : JsonField string;
  userID : JsonField string;
  assetTag : JsonField string
}.

(** Flat webhook shape (union fields optional).  The fields [timestamp],
    [started] and [finished] carry a trailing underscore: the plain names
    are the receipt timestamp of [StoredEvent] and two counters of the
    statistics. *)
Record WebhookPayload : Type := mkWebhookPayload {
  name : string;
  event : string;
  timestamp_ : string;
  started_ : string;
  finished_ : JsonField string;
  duration : JsonField float;
  modelName : string;
  modelIdentifier : string;
  macOSBuild : string;
  macOSVersion : string;
  serialNumber : string;
  setupManagerVersion : string;
  computerName : JsonField string;
  jamfProVersion : JsonField string;
  jssID : JsonField string;
  userEntry : JsonField UserEntry;
  enrollmentActions : JsonField (list EnrollmentAction);
  uploadThroughput : JsonField float;
  downloadThroughput : JsonField float
}.

Record StoredEvent : Type := mkStoredEvent {
  payload : WebhookPayload;
  timestamp : Z;
  eventId : string
}.

End Types.

(* ================================================================== *)
(** * Event store: the KV namespace behind [env.WEBHOOKS] *)
(* ================================================================== *)

Module KV.

(** The namespace is a finite map from keys to serialized values, kept in
    the lexicographic key order in which [list] enumerates it. *)
Definition KVNamespace : Type := list (string * string).

(** [kv.list({ limit })]: the names of at most [limit] keys. *)
Definition list_keys (kv : KVNamespace) (limit : nat) : list string :=
  firstn limit (map fst kv).

(** [kv.get(key)]: the stored text, or [null]. *)
Fixpoint get (kv : KVNamespace) (key : string) : option string :=
  match kv with
  | [] => None
  | (k, v) :: rest => if String.eqb k key then Some v else get rest key
  end.

(** [kv.put(key, value, { expirationTtl })]: expiry is the store's own
    business and is not modelled. *)
Fixpoint put (kv : KVNamespace) (key value : string) : KVNamespace :=
  match kv with
  | [] => [(key, value)]
  | (k, v) :: rest =>
      if String.eqb k key then (key, value) :: rest
      else if String.ltb key k then (key, value) :: (k, v) :: rest
      else (k, v) :: put rest key value
  end.

End KV.

(* ================================================================== *)
(** * Broadcast hub ([src/DashboardRoom.ts]) *)
(* ================================================================== *)

Module DashboardRoom.
Import JS Types.
Local Open Scope js_scope.
Local Open Scope string_scope.

(** Server-to-client messages, before [JSON.stringify].  A broadcast
    forwards the request text verbatim ([MsgText]). *)
Inductive ServerMessage : Type :=
| MsgConnected (timestamp : Z) (message : string)
| MsgHistory (data : list StoredEvent)
| MsgPong (timestamp : Z)
| MsgError (message : string)
| MsgText (text : string).

(** A server-side socket held by the runtime.  Whether the transport
    refuses the next [send] is decided outside the program. *)
Record WebSocket : Type := mkWebSocket {
  ws_id : nat;
  send_throws : bool;
  sent : list ServerMessage
}.

(** [ws.send(message)] *)
Definition ws_send (ws : WebSocket) (message : ServerMessage) : Completion WebSocket :=
  if send_throws ws then Throw "send failed"
  else Normal {| ws_id := ws_id ws; send_throws := send_throws ws;
                 sent := sent ws ++ [message] |}.

(** The result of [POST /broadcast] *)
Record BroadcastResult : Type := mkBroadcastResult {
  broadcasted : bool;
  clients : nat;
  success : nat;
  errors : nat
}.

(** [for (const ws of webSockets) { try { ws.send(message); successCount++ }
    catch (error) { errorCount++ } }], returning the sockets after the loop
    together with both counters. *)
Fixpoint broadcastLoop (webSockets : list WebSocket) (message : string)
  (successCount errorCount : nat) : list WebSocket * nat * nat :=
  match webSockets with
  | [] => ([], successCount, errorCount)
  | ws :: rest =>
      match ws_send ws (MsgText message) with
      | Normal ws' =>
          let '(rest', s, e) := broadcastLoop rest message (S successCount) errorCount in
          (ws' :: rest', s, e)
      | Throw _ =>
          let '(rest', s, e) := broadcastLoop rest message successCount (S errorCount) in
          (ws :: rest', s, e)
      end
  end.

(** Handle broadcast from webhook worker: [state.getWebSockets()] before
    and after, and the JSON answer. *)
Definition broadcast (webSockets : list WebSocket) (message : string)
  : list WebSocket * BroadcastResult :=
  let '(after, successCount, errorCount) := broadcastLoop webSockets message 0 0 in
  (after, {| broadcasted := true;
             clients := List.length webSockets;
             success := successCount;
             errors := errorCount |}).

(** Handle connection count request *)
Definition connections (webSockets : list WebSocket) : nat := List.length webSockets.

(** Maximum accepted WebSocket message size (bytes) *)
Definition MAX_WS_MESSAGE_SIZE : nat := 4096.

Definition MAX_HISTORY : float := 200%float.

(** [typeof data.limit === "number"
      ? Math.min(Math.max(data.limit, 1), MAX_HISTORY) : MAX_HISTORY] *)
Definition historyLimit (limit : JSValue) : float :=
  match limit with
  | JSNumber x => Math_min (Math_max x 1) MAX_HISTORY
  | _ => MAX_HISTORY
  end.

(** The integer part of a number, for the [limit] option of [kv.list]. *)
Definition nat_of_float (x : float) : nat :=
  match Prim2SF x with
  | S754_finite false m e =>
      Z.to_nat (if (0 <=? e)%Z then Z.shiftl (Zpos m) e else Z.shiftr (Zpos m) (- e))
  | _ => 0
  end.

(** [Array.prototype.sort(compare)]: a stable sort; [compare a b <= 0]
    keeps [a] before [b]. *)
Fixpoint sort_insert {A : Type} (compare : A -> A -> Z) (x : A) (l : list A) : list A :=
  match l with
  | [] => [x]
  | y :: rest =>
      if (compare x y <=? 0)%Z then x :: y :: rest
      else y :: sort_insert compare x rest
  end.

Definition Array_sort {A : Type} (compare : A -> A -> Z) (l : list A) : list A :=
  fold_right (sort_insert compare) [] l.

(** [(a, b) => b.timestamp - a.timestamp] *)
Definition byTimestampDesc (a b : StoredEvent) : Z := (timestamp b - timestamp a)%Z.

(** [events.filter((e) => e !== null)] *)
Fixpoint filter_non_null {A : Type} (l : list (option A)) : list A :=
  match l with
  | [] => []
  | Some a :: rest => a :: filter_non_null rest
  | None :: rest => filter_non_null rest
  end.

(** A client-to-server frame: text, or binary of a given byte length. *)
Inductive Frame : Type :=
| TextFrame (text : string)
| BinaryFrame (byteLength : nat).

Section WithParsers.

(** [JSON.parse(data) as StoredEvent], [None] when parsing throws or
    yields [null]; and [JSON.parse] on a client frame. *)
Variable parseStoredEvent : string -> option StoredEvent.
Variable JSON_parse : string -> option JSValue.

(** [list.keys.map(async (key) => { const data = await kv.get(key.name);
      if (!data) return null;
      try { return JSON.parse(data) } catch { return null } })] *)
Definition readEvents (kv : KV.KVNamespace) (limit : nat) : list (option StoredEvent) :=
  map (fun key =>
         match KV.get kv key with
         | None => None
         | Some EmptyString => None
         | Some data => parseStoredEvent data
         end)
      (KV.list_keys kv limit).

(** The events a history reply carries. *)
Definition history (kv : KV.KVNamespace) (limit : nat) : list StoredEvent :=
  Array_sort byTimestampDesc (filter_non_null (readEvents kv limit)).

Definition sendHistory (kv : KV.KVNamespace) (ws : WebSocket) (limit : float)
  : Completion WebSocket :=
  let validEvents := history kv (nat_of_float limit) in
  ws_send ws (MsgHistory validEvents).

(** The body of the [try] block of [webSocketMessage]. *)
Definition webSocketMessage_try (kv : KV.KVNamespace) (now : Z)
  (ws : WebSocket) (message : Frame) : Completion WebSocket :=
  let messageLength :=
    match message with
    | TextFrame text => String.length text
    | BinaryFrame n => n
    end in
  if Nat.ltb MAX_WS_MESSAGE_SIZE messageLength then
    ws_send ws (MsgError "Message too large")
  else
    match message with
    | TextFrame text =>
        data <- match JSON_parse text with
                | Some v => Normal v
                | None => Throw "SyntaxError"
                end ;;
        type <- Get data "type" ;;
        ws1 <- (if strict_eq_string type "ping"
                then ws_send ws (MsgPong now) else Normal ws) ;;
        if strict_eq_string type "request-history" then
          limit <- Get data "limit" ;;
          sendHistory kv ws1 (historyLimit limit)
        else Normal ws1
    | BinaryFrame _ => Normal ws
    end.

(** [try { ... } catch (error) { console.error(...) }]: a throwing [send]
    leaves the socket as it was, and at most one [send] is attempted. *)
Definition webSocketMessage (kv : KV.KVNamespace) (now : Z)
  (ws : WebSocket) (message : Frame) : WebSocket :=
  match webSocketMessage_try kv now ws message with
  | Normal ws' => ws'
  | Throw _ => ws
  end.

(** WebSocket upgrade: the server end is accepted, then acknowledged, then
    sent the initial history.  A throwing acknowledgment leaves [fetch]
    with that exception, the socket being registered already; a failure of
    [sendHistory] is only logged.  The answer is status 101. *)
Definition upgrade (kv : KV.KVNamespace) (now : Z) (webSockets : list WebSocket)
  (server : WebSocket) : list WebSocket * Completion nat :=
  match ws_send server (MsgConnected now "Connected to Setup Manager dashboard") with
  | Throw err => ((webSockets ++ [server])%list, Throw err)
  | Normal acknowledged =>
      let afterHistory :=
        match sendHistory kv acknowledged 200%float with
        | Normal ws' => ws'
        | Throw _ => acknowledged
        end in
      ((webSockets ++ [afterHistory])%list, Normal 101)
  end.

(** A request to the room: the path and method of its URL, the server
    end of the [WebSocketPair] made for it when it carries
    [Upgrade: websocket], and its text. *)
Record RoomRequest : Type := mkRoomRequest {
  room_pathname : string;
  room_method : string;
  room_upgrade : option WebSocket;
  room_text : string
}.

Inductive RoomResponse : Type :=
| Broadcasted (result : BroadcastResult)      (* 200, JSON *)
| ConnectionCount (connections : nat)         (* 200, JSON *)
| SwitchingProtocols                          (* 101 *)
| NotFound.                                   (* 404 *)

(** The request the webhook worker sends:
    [room.fetch("http://internal/broadcast", { method: "POST", body })]. *)
Definition broadcastRequest (message : string) : RoomRequest :=
  {| room_pathname := "/broadcast"; room_method := "POST";
     room_upgrade := None; room_text := message |}.

(** [DashboardRoom.fetch]: the sockets of the room afterwards, and the
    answer (or the exception that leaves [fetch]). *)
Definition fetch (kv : KV.KVNamespace) (now : Z) (webSockets : list WebSocket)
  (request : RoomRequest) : list WebSocket * Completion RoomResponse :=
  (* Handle broadcast from webhook worker *)
  if String.eqb (room_pathname request) "/broadcast"
     && String.eqb (room_method request) "POST" then
    let '(after, result) := broadcast webSockets (room_text request) in
    (after, Normal (Broadcasted result))
  (* Handle connection count request *)
  else if String.eqb (room_pathname request) "/connections"
          && String.eqb (room_method request) "GET" then
    (webSockets, Normal (ConnectionCount (connections webSockets)))
  else
    (* WebSocket upgrade *)
    match room_upgrade request with
    | Some server =>
        let '(after, status) := upgrade kv now webSockets server in
        (after, _ <- status ;; Normal SwitchingProtocols)
    | None => (webSockets, Normal NotFound)
    end.

End WithParsers.

End DashboardRoom.

(* ================================================================== *)
(** * Worker entry points ([src/index.ts]) *)
(* ================================================================== *)

Module Worker.
Import JS Types DashboardRoom.
Local Open Scope js_scope.
Local Open Scope string_scope.

(** An inbound HTTP request: the parts the handlers read. *)
Record Request : Type := mkRequest {
  method : string;
  pathname : string;
  searchParams : list (string * string);
  headers : list (string * string);
  body : string
}.

Definition lower_ascii (c : ascii) : ascii :=
  let n := nat_of_ascii c in
  if (65 <=? n)%nat && (n <=? 90)%nat then ascii_of_nat (n + 32) else c.

Fixpoint lower (s : string) : string :=
  match s with
  | EmptyString => EmptyString
  | String c rest => String (lower_ascii c) (lower rest)
  end.

(** [request.headers.get(name)]: header names are case-insensitive; a
    header is taken to occur once. *)
Fixpoint headers_get (hs : list (string * string)) (name : string) : option string :=
  match hs with
  | [] => None
  | (k, v) :: rest =>
      if String.eqb (lower k) (lower name) then Some v else headers_get rest name
  end.

(** [url.searchParams.get(name)] *)
Fixpoint searchParams_get (ps : list (string * string)) (name : string) : option string :=
  match ps with
  | [] => None
  | (k, v) :: rest => if String.eqb k name then Some v else searchParams_get rest name
  end.

Record Env : Type := mkEnv {
  WEBHOOKS : KV.KVNamespace;
  DASHBOARD_ROOM : list WebSocket;      (* the sockets of the room named main *)
  WEBHOOK_SECRET : option string
}.

Record Stats : Type := mkStats {
  total : nat;
  started : nat;
  finished : nat;
  avgDuration : float;
  successRate : float;
  devices : nat;
  lastEventTime : option Z
}.

(** The data handed to [json(data, status, request)].  The CORS and
    security headers that [json] adds do not depend on the data. *)
Inductive Json : Type :=
| JsonError (error : string)
| JsonSuccess (eventId : string)
| JsonEvents (events : list StoredEvent)
| JsonStats (stats : Stats).

Record Response : Type := mkResponse {
  resp_status : nat;
  resp_data : Json
}.

Definition json (data : Json) (status : nat) : Response :=
  {| resp_status := status; resp_data := data |}.

(** What a handler did besides answering, in program order. *)
Inductive Effect : Type :=
| JsonParsed                                  (* [await request.json()] *)
| LoggedError (message : string)              (* [console.error] *)
| KVPut (key value : string)                  (* [env.WEBHOOKS.put] *)
| RoomBroadcast (message : string).           (* [room.fetch(".../broadcast")] *)

Record Outcome : Type := mkOutcome {
  response : Response;
  env_after : Env;
  effects : list Effect
}.

(** Maximum webhook payload size in bytes (8 KB) *)
Definition MAX_WEBHOOK_PAYLOAD_SIZE : Z := 8192.

(** [`${v}`] for a payload field.  After validation the interpolated
    fields are strings; the other cases follow [ToString] where it is a
    constant and are empty otherwise. *)
Definition template (v : JSValue) : string :=
  match v with
  | JSString s => s
  | JSUndefined => "undefined"
  | JSNull => "null"
  | JSBoolean true => "true"
  | JSBoolean false => "false"
  | JSObject _ => "[object Object]"
  | _ => ""
  end.

Definition string_of_Z (n : Z) : string := NilZero.string_of_int (Z.to_int n).

(** The filters of [handleStats]:
    [e.payload.event === "com.jamf.setupmanager.started"] and
    [e.payload.event === "com.jamf.setupmanager.finished"]. *)
Definition isStarted (e : StoredEvent) : bool :=
  String.eqb (event (payload e)) EVENT_STARTED.

Definition isFinished (e : StoredEvent) : bool :=
  String.eqb (event (payload e)) EVENT_FINISHED.

(** ["duration" in e.payload ? e.payload.duration : 0]; a [null] duration
    is added as [+0] by the reduction. *)
Definition durationOf (e : StoredEvent) : float :=
  match duration (payload e) with
  | Value d => d
  | _ => 0%float
  end.

(** The predicate of [successfulEnrollments]:
    [if ("enrollmentActions" in e.payload && e.payload.enrollmentActions)
       return e.payload.enrollmentActions.every((a) => a.status === "finished");
     return true] *)
Definition isSuccessfulEnrollment (e : StoredEvent) : bool :=
  match enrollmentActions (payload e) with
  | Value actions => forallb (fun a => String.eqb (status a) "finished") actions
  | _ => true
  end.

(** [Math.max(...xs)] on a non-empty list of integers *)
Definition Math_max_list (xs : list Z) : option Z :=
  match xs with
  | [] => None
  | x :: rest => Some (fold_left Z.max rest x)
  end.

(** The summary computed from the valid events of the window. *)
Definition computeStats (validEvents : list StoredEvent) : Stats :=
  let startedEvents := filter isStarted validEvents in
  let finishedEvents := filter isFinished validEvents in
  let stats :=
    {| total := List.length validEvents;
       started := List.length startedEvents;
       finished := List.length finishedEvents;
       avgDuration := 0%float;
       successRate := 0%float;
       devices := List.length (nodup string_dec (map (fun e => serialNumber (payload e)) validEvents));
       lastEventTime :=
         if Nat.ltb 0 (List.length validEvents)
         then Math_max_list (map timestamp validEvents) else None |} in
  if Nat.ltb 0 (List.length finishedEvents) then
    let durations := map durationOf finishedEvents in
    let successfulEnrollments := filter isSuccessfulEnrollment finishedEvents in
    {| total := total stats;
       started := started stats;
       finished := finished stats;
       avgDuration :=
         Math_round (PrimFloat.div (fold_left PrimFloat.add durations 0%float)
                                   (float_of_nat (List.length durations)));
       successRate :=
         Math_round (PrimFloat.mul
                       (PrimFloat.div (float_of_nat (List.length successfulEnrollments))
                                      (float_of_nat (List.length finishedEvents)))
                       100%float);
       devices := devices stats;
       lastEventTime := lastEventTime stats |}
  else stats.

Section WithLibraries.

Variable parseStoredEvent : string -> option StoredEvent.
Variable JSON_parse : string -> option JSValue.
Variable JSON_stringify : JSValue -> string.
Variable Date_parse : string -> option Z.

(** [crypto.subtle.sign("HMAC", key, text)] under the fixed comparison
    key: the digest bytes. *)
Variable HMAC : string -> list Z.

(** [for (let i = 0; i < bufA.length; i++) diff |= bufA[i] ^ bufB[i]] *)
Fixpoint diffLoop (bufA bufB : list Z) (diff : Z) : Z :=
  match bufA with
  | [] => diff
  | a :: restA => diffLoop restA (tl bufB) (Z.lor diff (Z.lxor a (hd 0%Z bufB)))
  end.

(** Constant-time string comparison using HMAC digests. *)
Definition timingSafeEqual (a b : string) : bool :=
  (diffLoop (HMAC a) (HMAC b) 0 =? 0)%Z.

(** [env.WEBHOOKS.list({ limit })] followed by the per-key [get] and
    [JSON.parse], as written in [handleEvents] and [handleStats]. *)
Definition fetchEvents (kv : KV.KVNamespace) (limit : nat) : list (option StoredEvent) :=
  map (fun key =>
         match KV.get kv key with
         | None => None
         | Some EmptyString => None
         | Some data => parseStoredEvent data
         end)
      (KV.list_keys kv limit).

(** POST /webhook *)
Definition handleWebhook (request : Request) (env : Env) (now : Z) : Outcome :=
  (* Reject oversized payloads before parsing *)
  let contentLength :=
    parseInt (string_or (headers_get (headers request) "Content-Length") "0") in
  if match contentLength with
     | Some n => (MAX_WEBHOOK_PAYLOAD_SIZE <? n)%Z
     | None => false
     end
  then {| response := json (JsonError "Payload too large") 413;
          env_after := env; effects := [] |}
  else
  (* Require application/json Content-Type to block form-based CSRF *)
  let contentType := headers_get (headers request) "Content-Type" in
  if match contentType with
     | None => true
     | Some EmptyString => true
     | Some ct => negb (String_includes ct "application/json")
     end
  then {| response := json (JsonError "Content-Type must be application/json") 415;
          env_after := env; effects := [] |}
  else
  (* Optional: validate webhook token if WEBHOOK_SECRET is set *)
  let unauthorized :=
    match WEBHOOK_SECRET env with
    | None => false
    | Some EmptyString => false
    | Some webhookSecret =>
        let token :=
          match headers_get (headers request) "Authorization" with
          | Some authHeader =>
              if startsWith authHeader "Bearer " then Some (slice 7 authHeader) else None
          | None => None
          end in
        match token with
        | None => true
        | Some EmptyString => true
        | Some t => negb (timingSafeEqual t webhookSecret)
        end
    end in
  if unauthorized
  then {| response := json (JsonError "Unauthorized") 401;
          env_after := env; effects := [] |}
  else
  match JSON_parse (body request) with
  | None => {| response := json (JsonError "Invalid JSON payload") 400;
               env_after := env; effects := [JsonParsed] |}
  | Some payload =>
      match validateWebhookPayload Date_parse payload with
      | Throw err =>
          (* an uncaught exception: the runtime answers 500 *)
          {| response := json (JsonError err) 500;
             env_after := env; effects := [JsonParsed] |}
      | Normal validation =>
          if negb (valid validation) then
            {| response := json (JsonError "Invalid webhook payload") 400;
               env_after := env;
               effects :=
                 [JsonParsed;
                  LoggedError ("Webhook validation failed: "
                               ++ match error validation with Some m => m | None => "undefined" end)] |}
          else
            let field k := match Get payload k with Normal v => template v | Throw _ => "" end in
            let timestamp := now in
            let eventId := field "event" ++ ":" ++ field "serialNumber" ++ ":" ++ string_of_Z timestamp in
            let storedEvent :=
              JSObject [("payload", payload);
                        ("timestamp", JSNumber (float_of_Z timestamp));
                        ("eventId", JSString eventId)] in
            let value := JSON_stringify storedEvent in
            let message :=
              JSON_stringify (JSObject [("type", JSString "setup-manager-event");
                                        ("data", storedEvent)]) in
            let stored := KV.put (WEBHOOKS env) eventId value in
            let '(sockets, answer) :=
              fetch parseStoredEvent stored now (DASHBOARD_ROOM env)
                (broadcastRequest message) in
            let env' := {| WEBHOOKS := stored;
                           DASHBOARD_ROOM := sockets;
                           WEBHOOK_SECRET := WEBHOOK_SECRET env |} in
            match answer with
            | Normal _ =>
                {| response := json (JsonSuccess eventId) 200;
                   env_after := env';
                   effects := [JsonParsed; KVPut eventId value; RoomBroadcast message] |}
            | Throw err =>
                {| response := json (JsonError err) 500;
                   env_after := env';
                   effects := [JsonParsed; KVPut eventId value; RoomBroadcast message] |}
            end
      end
  end.

(** [Math.min(Math.max(parseInt(limitParam || "100", 10) || 100, 1), 1000)] *)
Definition eventsLimit (limitParam : option string) : Z :=
  Z.min (Z.max (number_or (parseInt (string_or limitParam "100")) 100) 1) 1000.

(** GET /api/events *)
Definition handleEvents (request : Request) (env : Env) : Response :=
  let limitParam := searchParams_get (searchParams request) "limit" in
  let limit := eventsLimit limitParam in
  let events := fetchEvents (WEBHOOKS env) (Z.to_nat limit) in
  let validEvents := Array_sort byTimestampDesc (filter_non_null events) in
  json (JsonEvents validEvents) 200.

(** GET /api/stats *)
Definition handleStats (env : Env) : Response :=
  let events := fetchEvents (WEBHOOKS env) 1000 in
  let validEvents := filter_non_null events in
  json (JsonStats (computeStats validEvents)) 200.

End WithLibraries.

End Worker.

(* ================================================================== *)
(** * Viewer reconnect loop ([src/hooks/useWebSocket.ts]) *)
(* ================================================================== *)

Module UseWebSocket.

(** The part of the hook's state the socket callbacks touch: the
    [connected] flag, the [reconnectAttempts] ref, and the delays (in
    milliseconds) handed to [setTimeout(connect, delay)], oldest first. *)
Record Hook : Type := mkHook {
  connected : bool;
  reconnectAttempts : nat;
  scheduled : list Z
}.

Definition maxReconnectAttempts : nat := 10.

Definition initial : Hook :=
  {| connected := false; reconnectAttempts := 0; scheduled := [] |}.

(** [ws.onopen] *)
Definition onopen (h : Hook) : Hook :=
  {| connected := true; reconnectAttempts := 0; scheduled := scheduled h |}.

(** [Math.min(1000 * Math.pow(2, reconnectAttempts.current), 30000)] *)
Definition reconnectDelay (attempts : nat) : Z :=
  Z.min (1000 * 2 ^ Z.of_nat attempts) 30000.

(** [ws.onclose] *)
Definition onclose (h : Hook) : Hook :=
  if Nat.ltb (reconnectAttempts h) maxReconnectAttempts then
    let delay := reconnectDelay (reconnectAttempts h) in
    {| connected := false;
       reconnectAttempts := S (reconnectAttempts h);
       scheduled := scheduled h ++ [delay] |}
  else
    {| connected := false;
       reconnectAttempts := reconnectAttempts h;
       scheduled := scheduled h |}.

(** [n] consecutive failures: every connection attempt ends in [onclose]
    with no [onopen] in between. *)
Fixpoint failures (n : nat) (h : Hook) : Hook :=
  match n with
  | O => h
  | S k => onclose (failures k h)
  end.

End UseWebSocket.

(* ================================================================== *)
(** * Viewer state ([src/hooks/useWebSocket.ts], [ws.onmessage]) *)
(* ================================================================== *)

Module Viewer.
Import JS Types.
Local Open Scope string_scope.

(** A parsed server message, by its [type]; every type without a [case]
    of its own in the [switch] is [OtherMessage].  A frame that is not
    JSON makes [JSON.parse] throw before any state update and is not a
    message. *)
Inductive Incoming : Type :=
| HistoryMessage (data : list StoredEvent)
| EventMessage (data : StoredEvent)
| ConnectedMessage
| PongMessage
| OtherMessage.

(** [seen.has(id)] on the set of identifiers met so far *)
Definition seen_has (seen : list string) (id : string) : bool :=
  existsb (String.eqb id) seen.

(** [const seen = new Set(); data.filter((e) => { if (seen.has(e.eventId))
    return false; seen.add(e.eventId); return true; })] *)
Fixpoint uniqueEvents (seen : list string) (data : list StoredEvent) : list StoredEvent :=
  match data with
  | [] => []
  | e :: rest =>
      if seen_has seen (eventId e) then uniqueEvents seen rest
      else e :: uniqueEvents (eventId e :: seen) rest
  end.

(** [prev.events.some((e) => e.eventId === id)] *)
Definition knows (events : list StoredEvent) (id : string) : bool :=
  existsb (fun e => String.eqb (eventId e) id) events.

(** [ws.onmessage]: the [events] of the hook's state after the message. *)
Definition onmessage (message : Incoming) (events : list StoredEvent) : list StoredEvent :=
  match message with
  | HistoryMessage data => uniqueEvents [] data
  | EventMessage data =>
      if knows events (eventId data) then events
      else firstn 200 (data :: events)
  | ConnectedMessage => events
  | PongMessage => events
  | OtherMessage => events
  end.

(** The messages of a session, applied in order of arrival. *)
Definition receive (messages : list Incoming) (events : list StoredEvent) : list StoredEvent :=
  fold_left (fun evs m => onmessage m evs) messages events.

(** [(e.payload as WebhookPayload).enrollmentActions || []] *)
Definition actionsOrEmpty (e : StoredEvent) : list EnrollmentAction :=
  match enrollmentActions (payload e) with
  | Value actions => actions
  | _ => []
  end.

Definition isFailed (a : EnrollmentAction) : bool := String.eqb (status a) "failed".

Record ClientStats : Type := mkClientStats {
  cs_total : nat;
  cs_started : nat;
  cs_finished : nat;
  cs_avgDuration : float;
  cs_successRate : float;
  cs_failedActions : nat
}.

(** [finished.reduce((count, e) => count + actions.filter((a) => a.status
    === "failed").length, 0)] and the same reduction over [actions.length]. *)
Definition failedActionsOf (finished : list StoredEvent) : nat :=
  fold_left (fun count e => count + List.length (filter isFailed (actionsOrEmpty e)))
            finished 0.

Definition totalActionsOf (finished : list StoredEvent) : nat :=
  fold_left (fun count e => count + List.length (actionsOrEmpty e)) finished 0.

(** [.map((e) => e.payload.duration).filter((d) => typeof d === "number" && d > 0)] *)
Fixpoint positiveDurations (finished : list StoredEvent) : list float :=
  match finished with
  | [] => []
  | e :: rest =>
      match duration (payload e) with
      | Value d => if PrimFloat.ltb 0 d then d :: positiveDurations rest
                   else positiveDurations rest
      | _ => positiveDurations rest
      end
  end.

(** Compute stats from events (the second [useEffect]). *)
Definition clientStats (events : list StoredEvent) : ClientStats :=
  let started := filter (fun e => String.eqb (event (payload e)) EVENT_STARTED) events in
  let finished := filter (fun e => String.eqb (event (payload e)) EVENT_FINISHED) events in
  let durations := positiveDurations finished in
  let avgDuration :=
    if Nat.ltb 0 (List.length durations)
    then Math_round (PrimFloat.div (fold_left PrimFloat.add durations 0%float)
                                   (float_of_nat (List.length durations)))
    else 0%float in
  let failedActions := failedActionsOf finished in
  let totalActions := totalActionsOf finished in
  let successRate :=
    if Nat.ltb 0 totalActions
    then Math_round (PrimFloat.mul
                       (PrimFloat.div (float_of_nat (totalActions - failedActions))
                                      (float_of_nat totalActions))
                       100%float)
    else 100%float in
  {| cs_total := List.length events;
     cs_started := List.length started;
     cs_finished := List.length finished;
     cs_avgDuration := avgDuration;
     cs_successRate := successRate;
     cs_failedActions := failedActions |}.

End Viewer.

(* ================================================================== *)
(** * Notions used to state the properties *)
(* ================================================================== *)

Module Notions.
Import JS Types DashboardRoom Worker.
Local Open Scope string_scope.

(** ** Viewer reconnect loop *)

(** The delay before reconnect attempt [n], counted from 1, in
    milliseconds: min(2^(n-1) s, 30 s). *)
Definition backoff (n : nat) : Z := Z.min (1000 * 2 ^ (Z.of_nat n - 1)) 30000.

(** ** Broadcast *)

(** What one delivery attempt leaves behind: a socket whose [send] throws
    is untouched, any other has the message appended to what it was sent. *)
Definition attempt (message : string) (ws : WebSocket) : WebSocket :=
  if send_throws ws then ws
  else {| ws_id := ws_id ws; send_throws := send_throws ws;
          sent := sent ws ++ [MsgText message] |}.

(** ** History *)

(** Newest first: every later position holds a receipt timestamp that is
    not larger. *)
Definition newestFirst (a b : StoredEvent) : Prop := (timestamp b <= timestamp a)%Z.

(** The events a store holds under its first [limit] keys: the value is
    present, non-empty and deserializes. *)
Definition readable (parseStoredEvent : string -> option StoredEvent)
  (kv : KV.KVNamespace) (limit : nat) (e : StoredEvent) : Prop :=
  exists key data,
    In key (firstn limit (map fst kv))
    /\ KV.get kv key = Some data
    /\ data <> EmptyString
    /\ parseStoredEvent data = Some e.

(** ** Validation *)

(** A completion that is not a thrown exception. *)
Definition returns {A : Type} (c : Completion A) : Prop := exists a, c = Normal a.

(** The two shapes of a validation result. *)
Definition accepted (r : ValidationResult) : Prop :=
  r = {| valid := true; error := None |}.

Definition rejected (r : ValidationResult) : Prop :=
  exists msg, r = {| valid := false; error := Some msg |}.

Definition accepts (Date_parse : string -> option Z) (payload : JSValue) : Prop :=
  validateWebhookPayload Date_parse payload = Normal {| valid := true; error := None |}.

Definition rejects (Date_parse : string -> option Z) (payload : JSValue) : Prop :=
  exists msg,
    validateWebhookPayload Date_parse payload
    = Normal {| valid := false; error := Some msg |}.

(** An object with an own key on the deny-list. *)
Definition hasOwnDangerousKey (v : JSValue) : Prop :=
  exists props key,
    v = JSObject props /\ In key (map fst props) /\ In key DANGEROUS_KEYS.

(** [obj[key] = v] on a parsed object: the own property is overwritten in
    place, or appended when the object has no such key. *)
Fixpoint set_property (props : list (string * JSValue)) (key : string) (v : JSValue)
  : list (string * JSValue) :=
  match props with
  | [] => [(key, v)]
  | (k, x) :: rest =>
      if String.eqb k key then (key, v) :: rest
      else (k, x) :: set_property rest key v
  end.

(** The payload [props] with its [duration] replaced. *)
Definition withDuration (props : list (string * JSValue)) (d : JSValue) : JSValue :=
  JSObject (set_property props "duration" d).

(** ** Statistics *)

(** [Math.round((s / f) * 100)] on two counts. *)
Definition percent (s f : Z) : float :=
  Math_round (PrimFloat.mul (PrimFloat.div (float_of_Z s) (float_of_Z f)) 100%float).

(** [k] is an integer nearest to [100 s / f]: [|k - 100 s / f| <= 1/2]. *)
Definition nearestPercent (s f k : Z) : Prop := (Z.abs (k * f - 100 * s) * 2 <= f)%Z.

(** The table of all percentages over a window of at most [n] events:
    [percent s f] is compared with the two integers around [100 s / f]. *)
Definition percent_is (s f k : Z) : bool :=
  PrimFloat.Leibniz.eqb (percent s f) (float_of_Z k)
  && (Z.abs (k * f - 100 * s) * 2 <=? f)%Z.

Definition percent_checked (s f : Z) : bool :=
  let k := (100 * s / f)%Z in
  percent_is s f k || percent_is s f (k + 1)%Z.

Fixpoint check_row (n : nat) (s f : Z) : bool :=
  match n with
  | O => true
  | S n' => percent_checked s f && check_row n' (s + 1)%Z f
  end.

Fixpoint check_rows (n : nat) (f : Z) : bool :=
  match n with
  | O => true
  | S n' => check_row (S (Z.to_nat f)) 0%Z f && check_rows n' (f + 1)%Z
  end.

(** The enrollment actions of an event; none when the property is absent
    or [null]. *)
Definition actionsOf (e : StoredEvent) : list EnrollmentAction :=
  match enrollmentActions (payload e) with
  | Value actions => actions
  | _ => []
  end.

(** Every enrollment action of the event has status [finished]. *)
Definition everyActionFinished (e : StoredEvent) : bool :=
  forallb (fun a => String.eqb (status a) "finished") (actionsOf e).

(** ** Ingestion *)

(** What the request declares about itself. *)
Definition declaredLength (request : Request) : option Z :=
  parseInt (string_or (headers_get (headers request) "Content-Length") "0").

Definition declaresJson (request : Request) : bool :=
  match headers_get (headers request) "Content-Type" with
  | None => false
  | Some EmptyString => false
  | Some ct => String_includes ct "application/json"
  end.

End Notions.

(* ================================================================== *)
(** * Sample data *)
(* ================================================================== *)

Module Samples.
Import JS Types DashboardRoom Worker Notions.
Local Open Scope string_scope.

(** ** Payloads as the validator sees them *)

(** A date parser for the sample payloads: it knows one ISO 8601 instant. *)
Definition sampleDateParse (s : string) : option Z :=
  if String.eqb s "2024-01-01T00:00:00Z" then Some 1704067200000%Z else None.

Definition sampleBase (ev nm : string) : list (string * JSValue) :=
  [ ("name", JSString nm); ("event", JSString ev);
    ("timestamp", JSString "2024-01-01T00:00:00Z");
    ("started", JSString "2024-01-01T00:00:00Z");
    ("modelName", JSString "MacBook Air"); ("modelIdentifier", JSString "Mac14,2");
    ("macOSBuild", JSString "24C101"); ("macOSVersion", JSString "15.2.0");
    ("serialNumber", JSString "TEST001"); ("setupManagerVersion", JSString "1.1") ].

Definition pollutedEntry : JSValue :=
  JSObject [("__proto__", JSObject [("admin", JSBoolean true)])].

Definition startedWithPollutedEntry : JSValue :=
  JSObject (sampleBase EVENT_STARTED "Started"
            ++ [("userEntry", pollutedEntry);
                ("enrollmentActions", JSArray [pollutedEntry])]).

Definition finishedWithPollutedEntry : JSValue :=
  JSObject (sampleBase EVENT_FINISHED "Finished"
            ++ [("duration", JSNumber 42%float);
                ("finished", JSString "2024-01-01T00:00:00Z");
                ("userEntry", pollutedEntry)]).

Definition sampleFinished : list (string * JSValue) :=
  sampleBase EVENT_FINISHED "Finished"
  ++ [("duration", JSNumber 42%float);
      ("finished", JSString "2024-01-01T00:00:00Z");
      ("enrollmentActions",
       JSArray [JSObject [("label", JSString "A"); ("status", JSString "finished")];
                JSObject [("label", JSString "B"); ("status", JSString "failed")]])].

(** ** Stored events and stores *)

Definition samplePayload (ev nm serial : string) (dur : JsonField float)
  (actions : JsonField (list EnrollmentAction)) : WebhookPayload :=
  {| name := nm; event := ev;
     timestamp_ := "2024-01-01T00:00:00Z"; started_ := "2024-01-01T00:00:00Z";
     finished_ := match dur with Value _ => Value "2024-01-01T00:10:00Z" | _ => Absent end;
     duration := dur;
     modelName := "MacBook Air"; modelIdentifier := "Mac14,2";
     macOSBuild := "24C101"; macOSVersion := "15.2.0";
     serialNumber := serial; setupManagerVersion := "1.1";
     computerName := Absent; jamfProVersion := Absent; jssID := Absent;
     userEntry := Absent; enrollmentActions := actions;
     uploadThroughput := Absent; downloadThroughput := Absent |}.

Definition startedEvent : StoredEvent :=
  {| payload := samplePayload EVENT_STARTED "Started" "TEST001" Absent Absent;
     timestamp := 1704067200000;
     eventId := "com.jamf.setupmanager.started:TEST001:1704067200000" |}.

Definition finishedNoActions : StoredEvent :=
  {| payload := samplePayload EVENT_FINISHED "Finished" "TEST001" (Value 600%float) Absent;
     timestamp := 1704067800000;
     eventId := "com.jamf.setupmanager.finished:TEST001:1704067800000" |}.

Definition finishedWithFailure : StoredEvent :=
  {| payload := samplePayload EVENT_FINISHED "Finished" "TEST002" (Value 300%float)
                  (Value [ {| label := "A"; status := "finished" |};
                           {| label := "B"; status := "failed" |} ]);
     timestamp := 1704067900000;
     eventId := "com.jamf.setupmanager.finished:TEST002:1704067900000" |}.

(** A stand-in for [JSON.parse] on the three texts the sample store holds. *)
Definition sampleParse (data : string) : option StoredEvent :=
  if String.eqb data "<started TEST001>" then Some startedEvent
  else if String.eqb data "<finished TEST001>" then Some finishedNoActions
  else if String.eqb data "<finished TEST002>" then Some finishedWithFailure
  else None.

Definition startedOnlyStore : KV.KVNamespace :=
  [ (eventId startedEvent, "<started TEST001>") ].

Definition sampleStore : KV.KVNamespace :=
  [ (eventId finishedNoActions, "<finished TEST001>");
    (eventId finishedWithFailure, "<finished TEST002>");
    (eventId startedEvent, "<started TEST001>") ].

Definition envOf (kv : KV.KVNamespace) : Env :=
  {| WEBHOOKS := kv; DASHBOARD_ROOM := []; WEBHOOK_SECRET := None |}.

(** ** Requests *)

Fixpoint spaces (n : nat) : string :=
  match n with
  | O => EmptyString
  | S k => String " " (spaces k)
  end.

Definition member (key value : string) : string :=
  quoted key ++ ":" ++ quoted value.

(** The JSON text of a valid started event, preceded by 9000 blanks
    (insignificant white space). *)
Definition paddedBody : string :=
  spaces (90 * 100)
  ++ "{" ++ String.concat ","
       [ member "name" "Started"; member "event" EVENT_STARTED;
         member "timestamp" "2024-01-01T00:00:00Z";
         member "started" "2024-01-01T00:00:00Z";
         member "modelName" "MacBook Air"; member "modelIdentifier" "Mac14,2";
         member "macOSBuild" "24C101"; member "macOSVersion" "15.2.0";
         member "serialNumber" "TEST001"; member "setupManagerVersion" "1.1" ]
  ++ "}".

(** What [JSON.parse] makes of that text. *)
Definition paddedPayload : JSValue := JSObject (sampleBase EVENT_STARTED "Started").

(** A chunked upload: the body is streamed and no length is declared. *)
Definition chunkedRequest : Request :=
  {| method := "POST"; pathname := "/webhook"; searchParams := [];
     headers := [ ("Content-Type", "application/json");
                  ("Transfer-Encoding", "chunked") ];
     body := paddedBody |}.

(** Sample library functions: a parser that knows the padded text, and
    stand-ins for the serializer and the keyed hash. *)
Definition sampleJSONParse (text : string) : option JSValue :=
  if String.eqb text paddedBody then Some paddedPayload else None.

Definition sampleStringify (v : JSValue) : string :=
  match v with
  | JSObject (("type", _) :: _) => "<message>"
  | _ => "<stored event>"
  end.

Definition sampleHMAC (text : string) : list Z :=
  map (fun c => Z.of_nat (nat_of_ascii c)) (list_ascii_of_string text).

(** [GET /api/events?limit=...] *)
Definition listingRequest (limit : string) : Request :=
  {| method := "GET"; pathname := "/api/events";
     searchParams := [("limit", limit)]; headers := []; body := "" |}.

End Samples.

(* ================================================================== *)
(** * Notions and sample data for the room protocol *)
(* ================================================================== *)

Module Protocol.
Import JS Types DashboardRoom Worker Notions.
Local Open Scope string_scope.

(** The replies the room gives to a frame: the size error, a pong stamped
    with the current time, or the history under at most 200 keys. *)
Inductive Reply (parseStoredEvent : string -> option StoredEvent)
  (kv : KV.KVNamespace) (now : Z) : ServerMessage -> Prop :=
| ReplyTooLarge : Reply parseStoredEvent kv now (MsgError "Message too large")
| ReplyPong : Reply parseStoredEvent kv now (MsgPong now)
| ReplyHistory (limit : nat) :
    (limit <= 200)%nat ->
    Reply parseStoredEvent kv now (MsgHistory (history parseStoredEvent kv limit)).

(** A socket after the broadcasts [messages], oldest first: untouched when
    its [send] throws, otherwise sent every message in that order. *)
Definition delivered (messages : list string) (ws : WebSocket) : WebSocket :=
  if send_throws ws then ws
  else {| ws_id := ws_id ws; send_throws := send_throws ws;
          sent := sent ws ++ map MsgText messages |}.

(** The sockets of the room after one [POST /broadcast] per message. *)
Definition afterBroadcasts (parseStoredEvent : string -> option StoredEvent)
  (kv : KV.KVNamespace) (now : Z) (messages : list string)
  (webSockets : list WebSocket) : list WebSocket :=
  fold_left
    (fun sockets message =>
       fst (fetch parseStoredEvent kv now sockets (broadcastRequest message)))
    messages webSockets.

(** Two viewers: one whose transport works, one whose [send] throws. *)
Definition liveSocket : WebSocket := {| ws_id := 1; send_throws := false; sent := [] |}.
Definition deadSocket : WebSocket := {| ws_id := 2; send_throws := true; sent := [] |}.

(** A client frame asking for far more history than the room gives, and a
    stand-in for [JSON.parse] that knows it. *)
Definition greedyFrame : string := "{type:request-history,limit:5000}".

Definition sampleFrameParse (text : string) : option JSValue :=
  if String.eqb text greedyFrame
  then Some (JSObject [("type", JSString "request-history");
                       ("limit", JSNumber 5000%float)])
  else None.

(** [GET /ws] with [Upgrade: websocket], as the worker forwards it. *)
Definition joinRequest (server : WebSocket) : RoomRequest :=
  {| room_pathname := "/ws"; room_method := "GET";
     room_upgrade := Some server; room_text := "" |}.

End Protocol.

(* ================================================================== *)
(** * What the validator accepts, stated on the payload *)
(* ================================================================== *)

Module WellFormed.
Import JS Types Notions.
Local Open Scope string_scope.

(** The value an object holds under [key]; [undefined] when it has no
    such own property. *)
Definition valueOf (props : list (string * JSValue)) (key : string) : JSValue :=
  match lookup props key with
  | Some v => v
  | None => JSUndefined
  end.

(** A string with something besides white space in it. *)
Definition nonBlank (v : JSValue) : Prop :=
  exists s, v = JSString s /\ trim s <> "".

(** A string that [Date.parse] understands. *)
Definition parses (Date_parse : string -> option Z) (v : JSValue) : Prop :=
  exists s t, v = JSString s /\ Date_parse s = Some t.

Definition absentOrString (v : JSValue) : Prop :=
  v = JSUndefined \/ exists s, v = JSString s.

(** A finite number that is not negative. *)
Definition amount (v : JSValue) : Prop :=
  exists x, v = JSNumber x /\ PrimFloat.leb 0 x = true /\ PrimFloat.is_finite x = true.

Definition absentOrAmount (v : JSValue) : Prop :=
  v = JSUndefined \/ amount v.

(** No own key is on the deny-list. *)
Definition safeKeys (props : list (string * JSValue)) : Prop :=
  forall key, In key (map fst props) -> ~ In key DANGEROUS_KEYS.

Definition wellFormedAction (action : JSValue) : Prop :=
  exists props,
    action = JSObject props
    /\ safeKeys props
    /\ nonBlank (valueOf props "label")
    /\ (valueOf props "status" = JSString "finished"
        \/ valueOf props "status" = JSString "failed").

(** A user entry is any array, or an object without forbidden keys whose
    four known fields are strings where present. *)
Definition wellFormedEntry (entry : JSValue) : Prop :=
  (exists elems, entry = JSArray elems)
  \/ (exists props,
         entry = JSObject props
         /\ safeKeys props
         /\ forall field, In field ["department"; "computerName"; "userID"; "assetTag"] ->
                          absentOrString (valueOf props field)).

(** What both kinds of event need. *)
Definition wellFormedBase (Date_parse : string -> option Z)
  (props : list (string * JSValue)) : Prop :=
  safeKeys props
  /\ (forall field, In field REQUIRED_BASE_FIELDS -> nonBlank (valueOf props field))
  /\ parses Date_parse (valueOf props "timestamp")
  /\ parses Date_parse (valueOf props "started")
  /\ (forall field, In field ["jamfProVersion"; "jssID"; "computerName"] ->
                    absentOrString (valueOf props field)).

Definition wellFormedStarted (Date_parse : string -> option Z)
  (props : list (string * JSValue)) : Prop :=
  valueOf props "event" = JSString EVENT_STARTED
  /\ valueOf props "name" = JSString "Started"
  /\ wellFormedBase Date_parse props.

Definition wellFormedFinished (Date_parse : string -> option Z)
  (props : list (string * JSValue)) : Prop :=
  valueOf props "event" = JSString EVENT_FINISHED
  /\ valueOf props "name" = JSString "Finished"
  /\ wellFormedBase Date_parse props
  /\ amount (valueOf props "duration")
  /\ nonBlank (valueOf props "finished")
  /\ parses Date_parse (valueOf props "finished")
  /\ (valueOf props "enrollmentActions" = JSUndefined
      \/ exists elems, valueOf props "enrollmentActions" = JSArray elems
                       /\ Forall wellFormedAction elems)
  /\ (valueOf props "userEntry" = JSUndefined
      \/ wellFormedEntry (valueOf props "userEntry"))
  /\ absentOrAmount (valueOf props "uploadThroughput")
  /\ absentOrAmount (valueOf props "downloadThroughput").

Definition wellFormed (Date_parse : string -> option Z) (payload : JSValue) : Prop :=
  exists props,
    payload = JSObject props
    /\ (wellFormedStarted Date_parse props \/ wellFormedFinished Date_parse props).

(** The properties a started event is checked for: the ten required
    fields and the three optional strings. *)
Definition STARTED_FIELDS : list string :=
  REQUIRED_BASE_FIELDS ++ [ "jamfProVersion"; "jssID"; "computerName" ].



Definition finishedWithArrayEntry : JSValue :=
  JSObject (Samples.sampleBase EVENT_FINISHED "Finished"
            ++ [("duration", JSNumber 42%float);
                ("finished", JSString "2024-01-01T00:00:00Z");
                ("userEntry", JSArray [JSNumber 1%float])]).



End WellFormed.

(* ================================================================== *)
(** * Notions and sample data for ingestion *)
(* ================================================================== *)

Module Ingestion.
Import JS Types DashboardRoom Worker Notions Samples Protocol.
Local Open Scope string_scope.

(** The request carries [Authorization: Bearer <token>]. *)
Definition presents (request : Request) (token : string) : Prop :=
  headers_get (headers request) "Authorization" = Some ("Bearer " ++ token).

(** Nothing was written and nothing was broadcast: the environment is
    the one before the request, and the handler at most parsed the body
    and logged. *)
Definition quiet (out : Outcome) (env : Env) : Prop :=
  env_after out = env
  /\ forall eff, In eff (effects out) -> eff = JsonParsed \/ exists m, eff = LoggedError m.

(** The string a validated payload holds under [key]. *)
Definition textField (payload : JSValue) (key text : string) : Prop :=
  Get payload key = Normal (JSString text).

(** A deployment with a secret and two viewers, and a request that
    presents the secret. *)
Definition securedEnv : Env :=
  {| WEBHOOKS := []; DASHBOARD_ROOM := [liveSocket; deadSocket];
     WEBHOOK_SECRET := Some "s3cret" |}.

Definition authorizedRequest : Request :=
  {| method := "POST"; pathname := "/webhook"; searchParams := [];
     headers := [ ("Content-Type", "application/json");
                  ("Authorization", "Bearer s3cret") ];
     body := paddedBody |}.

(** A stand-in for [JSON.parse] on what [sampleStringify] writes to the
    store. *)
Definition storedParse (data : string) : option StoredEvent :=
  if String.eqb data "<stored event>" then Some startedEvent else None.

(** A keyed hash that yields 32 bytes: the character codes of the first
    32 characters, padded with zeros. *)
Definition sampleDigest (text : string) : list Z :=
  firstn 32 (map (fun c => Z.of_nat (nat_of_ascii c)) (list_ascii_of_string text)
             ++ repeat 0%Z 32).

End Ingestion.

(* ================================================================== *)
(** * Properties *)
(* ================================================================== *)

(** ** Viewer reconnect loop *)

Module UseWebSocketFacts.
Import UseWebSocket Notions.
Local Open Scope Z_scope.

Lemma onclose_connected (h : Hook) : connected (onclose h) = false.
Proof.
  unfold onclose. destruct (Nat.ltb _ _); reflexivity.
Qed.

Lemma failures_attempts (n : nat) (h : Hook) :
  reconnectAttempts h = 0%nat ->
  reconnectAttempts (failures n h) = Nat.min n maxReconnectAttempts.
Proof.
  intros H0. induction n as [|n IH]; simpl.
  - rewrite H0. reflexivity.
  - unfold onclose. rewrite IH. unfold maxReconnectAttempts.
    destruct (Nat.ltb_spec (Nat.min n 10) 10); simpl; lia.
Qed.

Lemma failures_scheduled_step (n : nat) (h : Hook) :
  reconnectAttempts h = 0%nat ->
  scheduled (failures (S n) h) =
  if Nat.ltb n maxReconnectAttempts
  then scheduled (failures n h) ++ [reconnectDelay n]
  else scheduled (failures n h).
Proof.
  intros H0. simpl. unfold onclose.
  rewrite (failures_attempts n h H0). unfold maxReconnectAttempts.
  destruct (Nat.ltb_spec n 10) as [Hlt|Hge].
  - replace (Nat.min n 10) with n by lia.
    destruct (Nat.ltb_spec n 10); [reflexivity | lia].
  - replace (Nat.min n 10) with 10%nat by lia. reflexivity.
Qed.

Lemma reconnectDelay_backoff (n : nat) : reconnectDelay n = backoff (S n).
Proof.
  unfold reconnectDelay, backoff. do 3 f_equal. lia.
Qed.

(** C8.  Starting from a state with no failed attempt on record (the
    initial state, or any state just after [onopen]), the [k]-th
    consecutive close schedules reconnect attempt [k] after
    min(2^(k-1) s, 30 s), for [k] from 1 to 10: [n] consecutive closes
    leave exactly the delays of attempts 1 .. min(n, 10), which for ten
    closes are 1, 2, 4, 8, 16, 30, 30, 30, 30, 30 seconds; once ten
    attempts have been scheduled a further close schedules nothing. *)
Theorem reconnect_backoff_sequence (h : Hook) (n : nat) :
  reconnectAttempts h = 0%nat ->
  scheduled (failures n h) = scheduled h ++ map backoff (seq 1 (Nat.min n 10))
  /\ map backoff (seq 1 10)
     = map (fun s => 1000 * s) [1; 2; 4; 8; 16; 30; 30; 30; 30; 30]
  /\ ((10 <= n)%nat -> scheduled (failures (S n) h) = scheduled (failures n h)).
Proof.
  intros H0. split; [|split].
  - induction n as [|n IH].
    + simpl. rewrite app_nil_r. reflexivity.
    + rewrite (failures_scheduled_step n h H0). unfold maxReconnectAttempts.
      destruct (Nat.ltb_spec n 10) as [Hlt|Hge].
      * rewrite IH. replace (Nat.min n 10) with n by lia.
        replace (Nat.min (S n) 10) with (S n) by lia.
        rewrite seq_S, map_app, <- app_assoc. simpl.
        rewrite reconnectDelay_backoff. reflexivity.
      * rewrite IH. replace (Nat.min n 10) with 10%nat by lia.
        replace (Nat.min (S n) 10) with 10%nat by lia. reflexivity.
  - reflexivity.
  - intros Hn. rewrite (failures_scheduled_step n h H0). unfold maxReconnectAttempts.
    destruct (Nat.ltb_spec n 10); [lia | reflexivity].
Qed.

Lemma reconnect_backoff_sequence_witness :
  reconnectAttempts initial = 0%nat
  /\ scheduled (failures 12 initial)
     = [1000; 2000; 4000; 8000; 16000; 30000; 30000; 30000; 30000; 30000].
Proof.
  split; [reflexivity|].
  destruct (reconnect_backoff_sequence initial 12 eq_refl) as [H _].
  rewrite H. reflexivity.
Defined.

End UseWebSocketFacts.

(** ** Broadcast hub *)

Module DashboardRoomFacts.
Import JS Types DashboardRoom Notions.

Lemma attempt_id (message : string) (ws : WebSocket) :
  ws_id (attempt message ws) = ws_id ws.
Proof.
  unfold attempt. destruct (send_throws ws); reflexivity.
Qed.

Lemma broadcastLoop_spec (message : string) (webSockets : list WebSocket) :
  forall successCount errorCount,
    broadcastLoop webSockets message successCount errorCount
    = (map (attempt message) webSockets,
       successCount + List.length (filter (fun ws => negb (send_throws ws)) webSockets),
       errorCount + List.length (filter send_throws webSockets)).
Proof.
  induction webSockets as [|ws rest IH]; intros sc ec; simpl.
  - rewrite !Nat.add_0_r. reflexivity.
  - unfold ws_send, attempt at 1. destruct (send_throws ws) eqn:Hthrows; simpl.
    + rewrite IH. simpl. repeat f_equal. lia.
    + rewrite IH. simpl. repeat f_equal. lia.
Qed.

Lemma filter_partition_length {A : Type} (p : A -> bool) (l : list A) :
  List.length (filter (fun x => negb (p x)) l) + List.length (filter p l) = List.length l.
Proof.
  induction l as [|x l IH]; simpl; [reflexivity|].
  destruct (p x); simpl; lia.
Qed.

Lemma broadcast_spec (webSockets : list WebSocket) (message : string) :
  broadcast webSockets message
  = (map (attempt message) webSockets,
     {| broadcasted := true;
        clients := List.length webSockets;
        success := List.length (filter (fun ws => negb (send_throws ws)) webSockets);
        errors := List.length (filter send_throws webSockets) |}).
Proof.
  unfold broadcast. rewrite broadcastLoop_spec. reflexivity.
Qed.

Lemma fetch_broadcast (parseStoredEvent : string -> option StoredEvent)
  (kv : KV.KVNamespace) (now : Z) (webSockets : list WebSocket) (message : string) :
  fetch parseStoredEvent kv now webSockets (broadcastRequest message)
  = (fst (broadcast webSockets message),
     Normal (Broadcasted (snd (broadcast webSockets message)))).
Proof.
  unfold fetch, broadcastRequest. simpl.
  destruct (broadcast webSockets message) as [after result]. reflexivity.
Qed.

(** C7.  [POST /broadcast] attempts one [send] per registered socket, in
    order: a socket whose [send] throws is left as it was and counted in
    [errors], every other socket (before or after a failing one) receives
    the message and is counted in [success]; the registered sockets are
    the same afterwards, and the answer reports attempted ([clients]),
    succeeded and failed sends. *)
Theorem broadcast_isolates_failures
  (parseStoredEvent : string -> option StoredEvent)
  (kv : KV.KVNamespace) (now : Z)
  (webSockets : list WebSocket) (message : string) :
  exists (after : list WebSocket) (result : BroadcastResult),
    fetch parseStoredEvent kv now webSockets (broadcastRequest message)
    = (after, Normal (Broadcasted result))
    /\ after = map (attempt message) webSockets
    /\ map ws_id after = map ws_id webSockets
    /\ (forall ws, In ws webSockets -> send_throws ws = false ->
          exists ws', In ws' after /\ ws_id ws' = ws_id ws
                      /\ sent ws' = sent ws ++ [MsgText message])
    /\ (forall ws, In ws webSockets -> send_throws ws = true -> In ws after)
    /\ clients result = List.length webSockets
    /\ errors result = List.length (filter send_throws webSockets)
    /\ success result = List.length (filter (fun ws => negb (send_throws ws)) webSockets)
    /\ success result + errors result = clients result.
Proof.
  rewrite fetch_broadcast, broadcast_spec. simpl.
  eexists. eexists. split; [reflexivity|].
  split; [reflexivity|]. split.
  { rewrite map_map. apply map_ext. intros ws. apply attempt_id. }
  split.
  { intros ws Hin Hok. exists (attempt message ws). split.
    - apply in_map. exact Hin.
    - unfold attempt. rewrite Hok. split; reflexivity. }
  split.
  { intros ws Hin Hthrows.
    replace ws with (attempt message ws) at 1.
    - apply in_map. exact Hin.
    - unfold attempt. rewrite Hthrows. reflexivity. }
  split; [reflexivity|]. split; [reflexivity|]. split; [reflexivity|].
  apply filter_partition_length.
Qed.

End DashboardRoomFacts.

(** ** History replay *)

Module HistoryFacts.
Import JS Types DashboardRoom Worker Notions.
Local Open Scope Z_scope.

Section Sorting.
Context {A : Type} (compare : A -> A -> Z).

Lemma sort_insert_perm (x : A) (l : list A) :
  Permutation (sort_insert compare x l) (x :: l).
Proof.
  induction l as [|y l IH]; simpl.
  - apply Permutation_refl.
  - destruct (compare x y <=? 0).
    + apply Permutation_refl.
    + eapply perm_trans; [apply perm_skip, IH | apply perm_swap].
Qed.

Lemma Array_sort_perm (l : list A) : Permutation (Array_sort compare l) l.
Proof.
  induction l as [|x l IH]; simpl.
  - apply perm_nil.
  - eapply perm_trans; [apply sort_insert_perm | apply perm_skip, IH].
Qed.

End Sorting.

Lemma sort_insert_newestFirst (x : StoredEvent) (l : list StoredEvent) :
  StronglySorted newestFirst l ->
  StronglySorted newestFirst (sort_insert byTimestampDesc x l).
Proof.
  induction 1 as [|y l Hsorted IH Hall]; simpl.
  - constructor; constructor.
  - unfold byTimestampDesc at 1.
    destruct (Z.leb_spec (timestamp y - timestamp x) 0) as [Hle|Hgt].
    + constructor.
      * constructor; assumption.
      * constructor.
        -- unfold newestFirst. lia.
        -- eapply Forall_impl; [|exact Hall].
           unfold newestFirst. intros z Hz. lia.
    + constructor; [exact IH|].
      apply (Permutation_Forall (Permutation_sym (sort_insert_perm byTimestampDesc x l))).
      constructor; [unfold newestFirst; lia | exact Hall].
Qed.

Lemma Array_sort_newestFirst (l : list StoredEvent) :
  StronglySorted newestFirst (Array_sort byTimestampDesc l).
Proof.
  induction l as [|x l IH]; simpl.
  - constructor.
  - apply sort_insert_newestFirst. exact IH.
Qed.

Lemma newestFirst_head (l : list StoredEvent) :
  StronglySorted newestFirst l ->
  forall e d, In e l -> timestamp e <= timestamp (nth 0 l d).
Proof.
  intros Hs e d Hin. destruct l as [|x l]; [contradiction|].
  simpl. destruct Hin as [<-|Hin]; [lia|].
  apply StronglySorted_inv in Hs. destruct Hs as [_ Hall].
  rewrite Forall_forall in Hall. apply Hall. exact Hin.
Qed.

Lemma In_filter_non_null {B : Type} (l : list (option B)) (b : B) :
  In b (filter_non_null l) <-> In (Some b) l.
Proof.
  induction l as [|[x|] l IH]; simpl.
  - tauto.
  - rewrite IH. split; intros [H|H]; auto; left; congruence.
  - rewrite IH. split; [auto|]. intros [H|H]; [discriminate | exact H].
Qed.

Lemma filter_non_null_length {B : Type} (l : list (option B)) :
  (List.length (filter_non_null l) <= List.length l)%nat.
Proof.
  induction l as [|[x|] l IH]; simpl; lia.
Qed.

Section WithParser.
Variable parseStoredEvent : string -> option StoredEvent.

Lemma readEvents_readable (kv : KV.KVNamespace) (limit : nat) (e : StoredEvent) :
  In (Some e) (readEvents parseStoredEvent kv limit) <-> readable parseStoredEvent kv limit e.
Proof.
  unfold readEvents, readable, KV.list_keys. rewrite in_map_iff. split.
  - intros [key [Hval Hin]]. exists key.
    destruct (KV.get kv key) as [data|]; [|discriminate].
    exists data. destruct data as [|c data]; [discriminate|].
    repeat split; auto. discriminate.
  - intros [key [data [Hin [Hget [Hne Hparse]]]]]. exists key. split; [|exact Hin].
    rewrite Hget. destruct data as [|c data]; [contradiction Hne; reflexivity|].
    exact Hparse.
Qed.

Lemma handleEvents_fetch (kv : KV.KVNamespace) (limit : nat) :
  fetchEvents parseStoredEvent kv limit = readEvents parseStoredEvent kv limit.
Proof. reflexivity. Qed.

End WithParser.

(** C4.  For every store and every limit, the history operation reads at
    most [limit] entries (the first [limit] keys), keeps exactly those whose
    value is present and deserializes, and returns them ordered by receipt
    timestamp, newest first, so that position 0 holds a largest timestamp
    of the returned events.  [sendHistory] sends this list and the events
    listing answers with it. *)
Theorem history_newest_first
  (parseStoredEvent : string -> option StoredEvent)
  (kv : KV.KVNamespace) (limit : nat) :
  let result := history parseStoredEvent kv limit in
  (List.length (readEvents parseStoredEvent kv limit) <= limit)%nat
  /\ (List.length result <= limit)%nat
  /\ Permutation result (filter_non_null (readEvents parseStoredEvent kv limit))
  /\ (forall e, In e result <-> readable parseStoredEvent kv limit e)
  /\ StronglySorted newestFirst result
  /\ (forall e d, In e result -> timestamp e <= timestamp (nth 0 result d))
  /\ (forall ws x, nat_of_float x = limit ->
        sendHistory parseStoredEvent kv ws x = ws_send ws (MsgHistory result))
  /\ (forall request env, WEBHOOKS env = kv ->
        Z.to_nat (eventsLimit (searchParams_get (searchParams request) "limit")) = limit ->
        handleEvents parseStoredEvent request env = json (JsonEvents result) 200).
Proof.
  intros result.
  assert (Hlen : (List.length (readEvents parseStoredEvent kv limit) <= limit)%nat).
  { unfold readEvents, KV.list_keys. rewrite length_map, length_firstn. lia. }
  assert (Hperm : Permutation result (filter_non_null (readEvents parseStoredEvent kv limit))).
  { apply Array_sort_perm. }
  assert (Hsorted : StronglySorted newestFirst result).
  { apply Array_sort_newestFirst. }
  split; [exact Hlen|]. split.
  { rewrite (Permutation_length Hperm).
    eapply Nat.le_trans; [apply filter_non_null_length | exact Hlen]. }
  split; [exact Hperm|]. split.
  { intros e. rewrite <- readEvents_readable, <- In_filter_non_null.
    split; intros H.
    - eapply Permutation_in; [exact Hperm | exact H].
    - eapply Permutation_in; [apply Permutation_sym; exact Hperm | exact H]. }
  split; [exact Hsorted|]. split.
  { intros e d. apply newestFirst_head. exact Hsorted. }
  split.
  { intros ws x Hx. unfold sendHistory. rewrite Hx. reflexivity. }
  { intros request env Hkv Hlimit. unfold handleEvents.
    rewrite Hkv, Hlimit. reflexivity. }
Qed.

End HistoryFacts.

(** ** Payload validator *)

Module ValidatorFacts.
Import JS Types Notions Samples.
Local Open Scope js_scope.
Local Open Scope string_scope.

(** *** Completions that return *)

Lemma returns_Normal {A : Type} (a : A) : returns (Normal a).
Proof. exists a. reflexivity. Qed.

Lemma returns_bind {A B : Type} (c : Completion A) (k : A -> Completion B) :
  returns c -> (forall a, c = Normal a -> returns (k a)) -> returns (bind c k).
Proof.
  intros [a Ha] Hk. rewrite Ha. simpl. apply Hk. exact Ha.
Qed.

Lemma returns_require (cond : Completion bool) (msg : string) :
  returns cond -> returns (require cond msg).
Proof.
  intros [b Hb]. unfold require. rewrite Hb. simpl.
  destruct b; apply returns_Normal.
Qed.

Lemma returns_and_then (c1 c2 : Check) :
  returns c1 -> (c1 = Normal None -> returns c2) -> returns (c1 >>> c2).
Proof.
  intros [r Hr] H2. unfold and_then. rewrite Hr. simpl.
  destruct r as [msg|]; [apply returns_Normal | apply H2; exact Hr].
Qed.

Lemma and_then_pass_iff (c1 c2 : Check) :
  c1 >>> c2 = Normal None <-> c1 = Normal None /\ c2 = Normal None.
Proof.
  unfold and_then. destruct c1 as [[msg|]|err]; simpl; split.
  - discriminate.
  - intros [H _]; discriminate.
  - auto.
  - intros [_ H]; exact H.
  - discriminate.
  - intros [H _]; discriminate.
Qed.

Lemma require_pass_iff (cond : Completion bool) (msg : string) :
  require cond msg = Normal None <-> cond = Normal true.
Proof.
  unfold require, pass, reject. destruct cond as [[|]|err]; simpl; split;
    intros H; try reflexivity; discriminate.
Qed.

(** *** Values with properties *)

Lemma not_an_object_false (v : JSValue) :
  not_an_object v = false ->
  (exists elems, v = JSArray elems) \/ (exists props, v = JSObject props).
Proof.
  destruct v; simpl; try discriminate; eauto.
Qed.

Lemma Get_returns (v : JSValue) (key : string) :
  not_an_object v = false -> returns (Get v key).
Proof.
  intros H. destruct (not_an_object_false v H) as [[x ->]|[x ->]];
    simpl; apply returns_Normal.
Qed.

Lemma hasDangerousKeys_returns (v : JSValue) :
  not_an_object v = false -> returns (hasDangerousKeys v).
Proof.
  intros H. destruct (not_an_object_false v H) as [[x ->]|[x ->]];
    simpl; apply returns_Normal.
Qed.

Lemma isNonEmptyString_eq (v : JSValue) :
  isNonEmptyString v
  = Normal (match v with
            | JSString s => Nat.ltb 0 (String.length (trim s))
            | _ => false
            end).
Proof. destruct v; reflexivity. Qed.

Lemma isNonEmptyString_returns (v : JSValue) : returns (isNonEmptyString v).
Proof. rewrite isNonEmptyString_eq. apply returns_Normal. Qed.

Lemma isValidTimestamp_returns (Date_parse : string -> option Z) (v : JSValue) :
  returns (isValidTimestamp Date_parse v).
Proof.
  unfold isValidTimestamp. rewrite isNonEmptyString_eq.
  destruct v; simpl; try apply returns_Normal.
  destruct (Nat.ltb 0 (String.length (trim s))); simpl; apply returns_Normal.
Qed.

Lemma firstNonStringField_returns (obj : JSValue) (fields : list string) :
  not_an_object obj = false -> returns (firstNonStringField obj fields).
Proof.
  intros Hobj. induction fields as [|field rest IH]; simpl.
  - apply returns_Normal.
  - apply returns_bind; [apply Get_returns; exact Hobj|].
    intros v _. destruct (negb (is_undefined v) && negb (typeof v =? "string")).
    + apply returns_Normal.
    + exact IH.
Qed.

Lemma isValidEnrollmentAction_returns (action : JSValue) :
  returns (isValidEnrollmentAction action).
Proof.
  unfold isValidEnrollmentAction.
  destruct (not_an_object action) eqn:Hobj; [apply returns_Normal|].
  apply returns_bind; [apply hasDangerousKeys_returns; exact Hobj|].
  intros [|] _; [apply returns_Normal|].
  apply returns_bind; [apply Get_returns; exact Hobj|].
  intros lbl _. apply returns_bind; [apply isNonEmptyString_returns|].
  intros [|] _; [|apply returns_Normal].
  apply returns_bind; [apply Get_returns; exact Hobj|].
  intros st _. apply returns_Normal.
Qed.

Lemma isValidUserEntry_returns (entry : JSValue) : returns (isValidUserEntry entry).
Proof.
  unfold isValidUserEntry.
  destruct (not_an_object entry) eqn:Hobj; [apply returns_Normal|].
  apply returns_bind; [apply hasDangerousKeys_returns; exact Hobj|].
  intros [|] _; [apply returns_Normal|].
  apply returns_bind; [apply firstNonStringField_returns; exact Hobj|].
  intros bad _. apply returns_Normal.
Qed.

Lemma requiredBaseFields_returns (obj : JSValue) (fields : list string) :
  not_an_object obj = false -> returns (requiredBaseFields obj fields).
Proof.
  intros Hobj. induction fields as [|field rest IH]; simpl.
  - apply returns_Normal.
  - apply returns_and_then; [|intros _; exact IH].
    apply returns_require. apply returns_bind; [apply Get_returns; exact Hobj|].
    intros v _. apply isNonEmptyString_returns.
Qed.

Lemma requiredFinishedFields_returns (obj : JSValue) (fields : list string) :
  not_an_object obj = false -> returns (requiredFinishedFields obj fields).
Proof.
  intros Hobj. induction fields as [|field rest IH]; simpl.
  - apply returns_Normal.
  - apply returns_and_then; [|intros _; exact IH].
    destruct (field =? "duration"); apply returns_require;
      (apply returns_bind; [apply Get_returns; exact Hobj|]); intros v _.
    + apply returns_Normal.
    + apply isNonEmptyString_returns.
Qed.

Lemma enrollmentActionsLoop_returns (actions : list JSValue) :
  forall i, returns (enrollmentActionsLoop actions i).
Proof.
  induction actions as [|action rest IH]; intros i; simpl.
  - apply returns_Normal.
  - apply returns_and_then; [|intros _; apply IH].
    apply returns_require. apply isValidEnrollmentAction_returns.
Qed.

Lemma optionalThroughput_returns (obj : JSValue) (field : string) :
  not_an_object obj = false -> returns (optionalThroughput obj field).
Proof.
  intros Hobj. unfold optionalThroughput.
  apply returns_bind; [apply Get_returns; exact Hobj|].
  intros v _. destruct (negb (is_undefined v) && negb (isNonNegativeNumber v));
    apply returns_Normal.
Qed.

Section WithDateParse.
Variable Date_parse : string -> option Z.

Lemma validateFinished_returns (obj : JSValue) :
  not_an_object obj = false -> returns (validateFinished Date_parse obj).
Proof.
  intros Hobj. unfold validateFinished.
  apply returns_and_then; [apply requiredFinishedFields_returns; exact Hobj|]. intros _.
  apply returns_and_then.
  { apply returns_require. apply returns_bind; [apply Get_returns; exact Hobj|].
    intros v _. apply isValidTimestamp_returns. }
  intros _. apply returns_and_then.
  { apply returns_bind; [apply Get_returns; exact Hobj|]. intros actions _.
    destruct (is_undefined actions); [apply returns_Normal|].
    destruct actions; try apply returns_Normal. apply enrollmentActionsLoop_returns. }
  intros _. apply returns_and_then.
  { apply returns_bind; [apply Get_returns; exact Hobj|]. intros entry _.
    destruct (is_undefined entry); [apply returns_Normal|].
    apply returns_require. apply isValidUserEntry_returns. }
  intros _. apply returns_and_then; [apply optionalThroughput_returns; exact Hobj|].
  intros _. apply optionalThroughput_returns; exact Hobj.
Qed.

Lemma validateChecks_returns (payload : JSValue) :
  returns (validateChecks Date_parse payload).
Proof.
  unfold validateChecks.
  destruct (not_an_object payload) eqn:Hobj.
  { apply returns_and_then; [apply returns_Normal | discriminate]. }
  apply returns_and_then; [apply returns_Normal|]. intros _.
  apply returns_and_then.
  { apply returns_require. apply returns_bind; [apply hasDangerousKeys_returns; exact Hobj|].
    intros d _. apply returns_Normal. }
  intros _. apply returns_and_then.
  { apply returns_require. apply returns_bind; [apply Get_returns; exact Hobj|].
    intros ev _. apply returns_Normal. }
  intros _. apply returns_and_then; [apply requiredBaseFields_returns; exact Hobj|].
  intros _. apply returns_and_then.
  { apply returns_require. apply returns_bind; [apply Get_returns; exact Hobj|].
    intros v _. apply isValidTimestamp_returns. }
  intros _. apply returns_and_then.
  { apply returns_require. apply returns_bind; [apply Get_returns; exact Hobj|].
    intros v _. apply isValidTimestamp_returns. }
  intros _. apply returns_and_then.
  { apply returns_bind; [apply Get_returns; exact Hobj|]. intros ev _.
    destruct (strict_eq_string ev EVENT_STARTED); [|apply returns_Normal].
    apply returns_bind; [apply Get_returns; exact Hobj|]. intros nm _.
    destruct (negb (strict_eq_string nm "Started")); apply returns_Normal. }
  intros _. apply returns_and_then.
  { apply returns_bind; [apply Get_returns; exact Hobj|]. intros ev _.
    destruct (strict_eq_string ev EVENT_FINISHED); [|apply returns_Normal].
    apply returns_bind; [apply Get_returns; exact Hobj|]. intros nm _.
    destruct (negb (strict_eq_string nm "Finished")); apply returns_Normal. }
  intros _. apply returns_and_then.
  { apply returns_bind; [apply Get_returns; exact Hobj|]. intros ev _.
    destruct (strict_eq_string ev EVENT_FINISHED); [|apply returns_Normal].
    apply validateFinished_returns. exact Hobj. }
  intros _. apply returns_bind; [apply firstNonStringField_returns; exact Hobj|].
  intros [field|] _; apply returns_Normal.
Qed.

Lemma accepts_iff (payload : JSValue) :
  accepts Date_parse payload <-> validateChecks Date_parse payload = Normal None.
Proof.
  unfold accepts, validateWebhookPayload.
  destruct (validateChecks Date_parse payload) as [[msg|]|err]; simpl;
    split; intros H; try reflexivity; discriminate.
Qed.

Lemma rejects_iff (payload : JSValue) :
  rejects Date_parse payload <-> validateChecks Date_parse payload <> Normal None.
Proof.
  unfold rejects, validateWebhookPayload.
  destruct (validateChecks_returns payload) as [[msg|] Hr]; rewrite Hr; simpl; split.
  - intros _. discriminate.
  - intros _. exists msg. reflexivity.
  - intros [msg H]. discriminate.
  - intros H. contradiction H. reflexivity.
Qed.

End WithDateParse.

(** C9.  [validateWebhookPayload] returns on every input value: it never
    throws, and its result is either [{ valid: true }] or
    [{ valid: false, error }] with an error string.  The function is built
    from read-only operations ([typeof], property reads, [Object.keys],
    [trim], date parsing) and takes its argument by value, so nothing is
    written to the payload. *)
Theorem validateWebhookPayload_total
  (Date_parse : string -> option Z) (payload : JSValue) :
  exists r : ValidationResult,
    validateWebhookPayload Date_parse payload = Normal r
    /\ (accepted r \/ rejected r).
Proof.
  unfold validateWebhookPayload.
  destruct (validateChecks_returns Date_parse payload) as [[msg|] Hr]; rewrite Hr; simpl.
  - eexists. split; [reflexivity|]. right. exists msg. reflexivity.
  - eexists. split; [reflexivity|]. left. reflexivity.
Qed.

(** *** Prototype-pollution keys *)

Lemma hasOwnDangerousKey_detected (v : JSValue) :
  hasOwnDangerousKey v -> hasDangerousKeys v = Normal true.
Proof.
  intros [props [key [-> [Hkey Hdanger]]]].
  unfold hasDangerousKeys. simpl. f_equal.
  apply existsb_exists. exists key. split; [exact Hkey|].
  unfold is_dangerous_key. apply existsb_exists. exists key.
  split; [exact Hdanger | apply String.eqb_refl].
Qed.

Lemma bind_Normal_inv {A B : Type} (c : Completion A) (k : A -> Completion B) (b : B) :
  bind c k = Normal b -> exists a, c = Normal a /\ k a = Normal b.
Proof.
  destruct c as [a|err]; simpl; [eauto | discriminate].
Qed.

Lemma isValidEnrollmentAction_dangerous (action : JSValue) :
  hasOwnDangerousKey action -> isValidEnrollmentAction action = Normal false.
Proof.
  intros H. unfold isValidEnrollmentAction.
  rewrite (hasOwnDangerousKey_detected action H).
  destruct H as [props [key [-> _]]]. reflexivity.
Qed.

Lemma isValidUserEntry_dangerous (entry : JSValue) :
  hasOwnDangerousKey entry -> isValidUserEntry entry = Normal false.
Proof.
  intros H. unfold isValidUserEntry.
  rewrite (hasOwnDangerousKey_detected entry H).
  destruct H as [props [key [-> _]]]. reflexivity.
Qed.

Lemma enrollmentActionsLoop_pass (actions : list JSValue) :
  forall i, enrollmentActionsLoop actions i = Normal None ->
            forall action, In action actions -> isValidEnrollmentAction action = Normal true.
Proof.
  induction actions as [|a rest IH]; intros i Hpass action Hin; [contradiction|].
  simpl in Hpass. apply and_then_pass_iff in Hpass. destruct Hpass as [Ha Hrest].
  apply require_pass_iff in Ha.
  destruct Hin as [<-|Hin]; [exact Ha | exact (IH (S i) Hrest action Hin)].
Qed.

Lemma includes_VALID_EVENTS (ev : JSValue) :
  includes VALID_EVENTS ev = true ->
  ev = JSString EVENT_STARTED \/ ev = JSString EVENT_FINISHED.
Proof.
  unfold includes, VALID_EVENTS. simpl. destruct ev; simpl; try discriminate.
  rewrite orb_false_r. intros H. apply orb_true_iff in H.
  destruct H as [H|H]; apply String.eqb_eq in H; subst; auto.
Qed.

Section DangerousKeys.
Variable Date_parse : string -> option Z.

(** What an accepted payload has passed, step by step. *)
Lemma accepted_not_dangerous (payload : JSValue) :
  validateChecks Date_parse payload = Normal None ->
  hasDangerousKeys payload = Normal false.
Proof.
  unfold validateChecks. intros H.
  apply and_then_pass_iff in H. destruct H as [_ H].
  apply and_then_pass_iff in H. destruct H as [H _].
  apply require_pass_iff in H. apply bind_Normal_inv in H.
  destruct H as [d [Hd Heq]]. rewrite Hd. destruct d; [discriminate | reflexivity].
Qed.

Lemma accepted_event (payload : JSValue) :
  validateChecks Date_parse payload = Normal None ->
  Get payload "event" = Normal (JSString EVENT_STARTED)
  \/ Get payload "event" = Normal (JSString EVENT_FINISHED).
Proof.
  unfold validateChecks. intros H.
  do 2 (apply and_then_pass_iff in H; destruct H as [_ H]).
  apply and_then_pass_iff in H. destruct H as [H _].
  apply require_pass_iff in H. apply bind_Normal_inv in H.
  destruct H as [ev [Hev Heq]]. rewrite Hev. injection Heq as Heq.
  destruct (includes_VALID_EVENTS ev Heq) as [-> | ->]; auto.
Qed.

Lemma accepted_finished (payload : JSValue) :
  validateChecks Date_parse payload = Normal None ->
  Get payload "event" = Normal (JSString EVENT_FINISHED) ->
  validateFinished Date_parse payload = Normal None.
Proof.
  unfold validateChecks. intros H Hev.
  do 8 (apply and_then_pass_iff in H; destruct H as [_ H]).
  apply and_then_pass_iff in H. destruct H as [H _].
  rewrite Hev in H. exact H.
Qed.

(** C5 (amended).  A payload is rejected when its top-level object has an
    own key [__proto__], [constructor] or [prototype]; and, unless its
    [event] is the started identifier, also when an element of its
    [enrollmentActions] array or its [userEntry] object has such a key. *)
Theorem dangerous_keys_rejected (payload : JSValue) :
  hasOwnDangerousKey payload
  \/ (Get payload "event" <> Normal (JSString EVENT_STARTED)
      /\ ((exists elems action,
              Get payload "enrollmentActions" = Normal (JSArray elems)
              /\ In action elems /\ hasOwnDangerousKey action)
          \/ (exists entry,
                 Get payload "userEntry" = Normal entry /\ hasOwnDangerousKey entry))) ->
  rejects Date_parse payload.
Proof.
  intros H. apply rejects_iff. intros Hpass.
  destruct H as [Htop | [Hev Hnested]].
  - apply accepted_not_dangerous in Hpass.
    rewrite (hasOwnDangerousKey_detected payload Htop) in Hpass. discriminate.
  - destruct (accepted_event payload Hpass) as [Hstarted | Hfinished];
      [contradiction|].
    pose proof (accepted_finished payload Hpass Hfinished) as Hfin.
    unfold validateFinished in Hfin.
    do 2 (apply and_then_pass_iff in Hfin; destruct Hfin as [_ Hfin]).
    apply and_then_pass_iff in Hfin. destruct Hfin as [Hactions Hfin].
    apply and_then_pass_iff in Hfin. destruct Hfin as [Hentry _].
    destruct Hnested as [[elems [action [Hget [Hin Hdanger]]]] | [entry [Hget Hdanger]]].
    + rewrite Hget in Hactions. simpl in Hactions.
      pose proof (enrollmentActionsLoop_pass elems 0 Hactions action Hin) as Hvalid.
      rewrite (isValidEnrollmentAction_dangerous action Hdanger) in Hvalid. discriminate.
    + rewrite Hget in Hentry. simpl in Hentry.
      assert (Hundef : is_undefined entry = false).
      { destruct Hdanger as [props [key [-> _]]]. reflexivity. }
      rewrite Hundef in Hentry. apply require_pass_iff in Hentry.
      rewrite (isValidUserEntry_dangerous entry Hdanger) in Hentry. discriminate.
Qed.

End DangerousKeys.

Lemma pollutedEntry_dangerous : hasOwnDangerousKey pollutedEntry.
Proof.
  exists [("__proto__", JSObject [("admin", JSBoolean true)])], "__proto__".
  split; [reflexivity|]. split; simpl; auto.
Qed.

(** C5, as stated, fails: a started event whose [userEntry] object and
    whose [enrollmentActions] element carry the key [__proto__] is
    accepted. *)
Lemma dangerous_keys_in_started_event_accepted :
  Get startedWithPollutedEntry "userEntry" = Normal pollutedEntry
  /\ Get startedWithPollutedEntry "enrollmentActions" = Normal (JSArray [pollutedEntry])
  /\ hasOwnDangerousKey pollutedEntry
  /\ validateWebhookPayload sampleDateParse startedWithPollutedEntry
     = Normal {| valid := true; error := None |}.
Proof.
  split; [reflexivity|]. split; [reflexivity|].
  split; [exact pollutedEntry_dangerous | reflexivity].
Qed.

Lemma dangerous_keys_rejected_witness :
  rejects sampleDateParse finishedWithPollutedEntry.
Proof.
  apply (dangerous_keys_rejected sampleDateParse finishedWithPollutedEntry).
  right. split.
  - discriminate.
  - right. exists pollutedEntry. split; [reflexivity|].
    exists [("__proto__", JSObject [("admin", JSBoolean true)])], "__proto__".
    split; [reflexivity|]. split; simpl; auto.
Defined.


(** *** The duration rule *)

Lemma lookup_set_same (props : list (string * JSValue)) (key : string) (v : JSValue) :
  lookup (set_property props key v) key = Some v.
Proof.
  induction props as [|[k x] rest IH]; simpl.
  - rewrite String.eqb_refl. reflexivity.
  - destruct (String.eqb k key) eqn:Hk; simpl.
    + rewrite String.eqb_refl. reflexivity.
    + rewrite Hk. exact IH.
Qed.

Lemma lookup_set_other (props : list (string * JSValue)) (key key' : string) (v : JSValue) :
  String.eqb key key' = false ->
  lookup (set_property props key v) key' = lookup props key'.
Proof.
  intros Hne. induction props as [|[k x] rest IH]; simpl.
  - rewrite Hne. reflexivity.
  - destruct (String.eqb k key) eqn:Hk; simpl.
    + apply String.eqb_eq in Hk. subst k. rewrite Hne. reflexivity.
    + destruct (String.eqb k key'); [reflexivity | exact IH].
Qed.

Lemma keys_set_property (props : list (string * JSValue)) (key : string) (v : JSValue) :
  is_dangerous_key key = false ->
  existsb is_dangerous_key (map fst (set_property props key v))
  = existsb is_dangerous_key (map fst props).
Proof.
  intros Hsafe. induction props as [|[k x] rest IH]; simpl.
  - rewrite Hsafe. reflexivity.
  - destruct (String.eqb k key) eqn:Hk; simpl.
    + apply String.eqb_eq in Hk. subst k. reflexivity.
    + rewrite IH. reflexivity.
Qed.

Lemma Get_withDuration (props : list (string * JSValue)) (d : JSValue) :
  Get (withDuration props d) "duration" = Normal d.
Proof.
  unfold withDuration. simpl. rewrite lookup_set_same. reflexivity.
Qed.

Lemma Get_withDuration_other (props : list (string * JSValue)) (d : JSValue) (key : string) :
  String.eqb "duration" key = false ->
  Get (withDuration props d) key = Get (JSObject props) key.
Proof.
  intros Hne. unfold withDuration. simpl. rewrite lookup_set_other by exact Hne.
  reflexivity.
Qed.

Lemma hasDangerousKeys_withDuration (props : list (string * JSValue)) (d : JSValue) :
  hasDangerousKeys (withDuration props d) = hasDangerousKeys (JSObject props).
Proof.
  unfold withDuration, hasDangerousKeys. simpl.
  rewrite keys_set_property by reflexivity. reflexivity.
Qed.

Lemma requiredBaseFields_ext (p q : JSValue) (fields : list string) :
  (forall k, In k fields -> Get p k = Get q k) ->
  requiredBaseFields p fields = requiredBaseFields q fields.
Proof.
  induction fields as [|field rest IH]; intros H; simpl; [reflexivity|].
  rewrite (H field (or_introl eq_refl)).
  rewrite IH; [reflexivity|]. intros k Hk. apply H. right. exact Hk.
Qed.

Lemma firstNonStringField_ext (p q : JSValue) (fields : list string) :
  (forall k, In k fields -> Get p k = Get q k) ->
  firstNonStringField p fields = firstNonStringField q fields.
Proof.
  induction fields as [|field rest IH]; intros H; simpl; [reflexivity|].
  rewrite (H field (or_introl eq_refl)).
  rewrite IH; [reflexivity|]. intros k Hk. apply H. right. exact Hk.
Qed.

Lemma and_then_assoc (c1 c2 c3 : Check) :
  (c1 >>> c2) >>> c3 = c1 >>> (c2 >>> c3).
Proof.
  unfold and_then. destruct c1 as [[msg|]|err]; reflexivity.
Qed.

Ltac other_field :=
  let k := fresh "k" in
  let Hin := fresh "Hin" in
  intros k Hin; simpl in Hin;
  repeat (destruct Hin as [<-|Hin]; [rewrite !Get_withDuration_other by reflexivity; reflexivity|]);
  contradiction.

(** Numbers below zero, NaN and the infinities fail
    [value >= 0 && isFinite(value)]. *)
Lemma negative_or_not_finite_rejected (x : float) :
  PrimFloat.ltb x 0 = true \/ PrimFloat.is_nan x = true
  \/ PrimFloat.is_infinity x = true ->
  isNonNegativeNumber (JSNumber x) = false.
Proof.
  unfold isNonNegativeNumber, PrimFloat.is_finite.
  intros [Hneg | [Hnan | Hinf]].
  - rewrite ltb_spec in Hneg. rewrite leb_spec.
    change (Prim2SF 0) with (S754_zero false) in *.
    destruct (Prim2SF x) as [[|]|[|]| |[|] m e]; cbn in *; congruence.
  - rewrite Hnan. simpl. apply andb_false_r.
  - rewrite Hinf. rewrite orb_true_r. simpl. apply andb_false_r.
Qed.

Section DurationRule.
Variable Date_parse : string -> option Z.

Lemma validateChecks_withDuration (props : list (string * JSValue)) (d0 d : JSValue) :
  Get (JSObject props) "event" = Normal (JSString EVENT_FINISHED) ->
  validateChecks Date_parse (withDuration props d0) = Normal None ->
  validateChecks Date_parse (withDuration props d)
  = if isNonNegativeNumber d then Normal None
    else Normal (Some "duration must be a non-negative number").
Proof.
  intros Hev H0.
  unfold validateChecks, validateFinished, optionalThroughput, pass, reject in *.
  cbn [requiredFinishedFields REQUIRED_FINISHED_FIELDS String.eqb Ascii.eqb Bool.eqb] in *.
  rewrite !and_then_assoc in *.
  rewrite !hasDangerousKeys_withDuration in *.
  rewrite (requiredBaseFields_ext (withDuration props d0) (JSObject props)) in H0 by other_field.
  rewrite (requiredBaseFields_ext (withDuration props d) (JSObject props)) by other_field.
  rewrite (firstNonStringField_ext (withDuration props d0) (JSObject props)) in H0 by other_field.
  rewrite (firstNonStringField_ext (withDuration props d) (JSObject props)) by other_field.
  rewrite !Get_withDuration in *.
  rewrite !Get_withDuration_other in * by reflexivity.
  rewrite Hev in *.
  change (not_an_object (withDuration props d0)) with false in H0.
  change (not_an_object (withDuration props d)) with false.
  cbn [bind strict_eq_string] in *.
  change (String.eqb EVENT_FINISHED EVENT_STARTED) with false in *.
  change (String.eqb EVENT_FINISHED EVENT_FINISHED) with true in *.
  cbv iota in *.
  rewrite !and_then_assoc in *.
  repeat (apply and_then_pass_iff in H0;
          let Hc := fresh "Hc" in destruct H0 as [Hc H0];
          try (progress rewrite Hc)).
  rewrite H0. unfold require. cbn [bind].
  destruct (isNonNegativeNumber d); reflexivity.
Qed.

(** C6.  Take a finished-event payload that is valid for some duration
    (it is otherwise valid).  With its duration replaced by [d] it is
    accepted exactly when [d] is a number that is at least 0 and finite:
    it is rejected, with the duration error, when [d] is a negative
    number, NaN, an infinity, or not a number at all, and it is accepted
    when [d] is 0. *)
Theorem duration_rule (props : list (string * JSValue)) (d0 : JSValue) :
  Get (JSObject props) "event" = Normal (JSString EVENT_FINISHED) ->
  accepts Date_parse (withDuration props d0) ->
  (forall x : float,
      PrimFloat.ltb x 0 = true \/ PrimFloat.is_nan x = true
      \/ PrimFloat.is_infinity x = true ->
      validateWebhookPayload Date_parse (withDuration props (JSNumber x))
      = Normal {| valid := false;
                  error := Some "duration must be a non-negative number" |})
  /\ (forall v : JSValue,
        typeof v <> "number" ->
        validateWebhookPayload Date_parse (withDuration props v)
        = Normal {| valid := false;
                    error := Some "duration must be a non-negative number" |})
  /\ accepts Date_parse (withDuration props (JSNumber 0%float))
  /\ (forall d : JSValue,
        accepts Date_parse (withDuration props d) <-> isNonNegativeNumber d = true).
Proof.
  intros Hev Hacc. apply accepts_iff in Hacc.
  pose proof (fun d => validateChecks_withDuration props d0 d Hev Hacc) as Hd.
  split; [|split; [|split]].
  - intros x Hx. unfold validateWebhookPayload. rewrite Hd.
    rewrite (negative_or_not_finite_rejected x Hx). reflexivity.
  - intros v Hv. unfold validateWebhookPayload. rewrite Hd.
    destruct v; simpl; try reflexivity. contradiction Hv. reflexivity.
  - apply accepts_iff. rewrite Hd. reflexivity.
  - intros d. rewrite accepts_iff, Hd.
    destruct (isNonNegativeNumber d); split; intros H; try reflexivity; discriminate.
Qed.

End DurationRule.

Lemma duration_rule_witness :
  Get (JSObject sampleFinished) "event" = Normal (JSString EVENT_FINISHED)
  /\ accepts sampleDateParse (withDuration sampleFinished (JSNumber 42%float))
  /\ accepts sampleDateParse (withDuration sampleFinished (JSNumber 0%float))
  /\ validateWebhookPayload sampleDateParse (withDuration sampleFinished (JSNumber (-1)%float))
     = Normal {| valid := false;
                 error := Some "duration must be a non-negative number" |}.
Proof.
  assert (Hev : Get (JSObject sampleFinished) "event" = Normal (JSString EVENT_FINISHED))
    by reflexivity.
  assert (Hacc : accepts sampleDateParse (withDuration sampleFinished (JSNumber 42%float)))
    by reflexivity.
  destruct (duration_rule sampleDateParse sampleFinished (JSNumber 42%float) Hev Hacc)
    as [Hneg [_ [Hzero _]]].
  split; [exact Hev|]. split; [exact Hacc|]. split; [exact Hzero|].
  apply Hneg. left. reflexivity.
Defined.

End ValidatorFacts.

(** ** Order facts on binary64 numbers *)

Module FloatFacts.
Local Open Scope float_scope.

Lemma SFcompare_antisym (x y : spec_float) :
  SFcompare y x = option_map CompOpp (SFcompare x y).
Proof.
  destruct x as [[|]|[|]| |[|] mx ex], y as [[|]|[|]| |[|] my ey];
    try reflexivity; simpl;
    rewrite (Z.compare_antisym ey ex);
    destruct (Z.compare ey ex) eqn:He; simpl; try reflexivity;
    rewrite (Pos.compare_cont_antisym mx my Eq); simpl;
    destruct (Pos.compare_cont Eq my mx); reflexivity.
Qed.

Lemma SFcompare_None (x y : spec_float) :
  SFcompare x y = None -> x = S754_nan \/ y = S754_nan.
Proof.
  destruct x as [[|]|[|]| |[|] mx ex], y as [[|]|[|]| |[|] my ey];
    simpl; auto; discriminate.
Qed.

Lemma SFeqb_refl_not_nan (x : spec_float) : SFeqb x x = true -> x <> S754_nan.
Proof.
  intros H ->. discriminate.
Qed.

Lemma is_nan_false (x : float) : PrimFloat.is_nan x = false -> Prim2SF x <> S754_nan.
Proof.
  unfold PrimFloat.is_nan. rewrite eqb_spec. intros H.
  apply SFeqb_refl_not_nan. destruct (SFeqb (Prim2SF x) (Prim2SF x)); [reflexivity | discriminate].
Qed.

(** [x < y] implies [x <= y]. *)
Lemma ltb_leb (x y : float) : (x <? y) = true -> (x <=? y) = true.
Proof.
  rewrite ltb_spec, leb_spec. unfold SFltb, SFleb.
  destruct (SFcompare (Prim2SF x) (Prim2SF y)) as [[| |]|]; congruence.
Qed.

(** Numbers are totally ordered: if neither is NaN and [y < x] fails,
    then [x <= y]. *)
Lemma not_ltb_leb (x y : float) :
  PrimFloat.is_nan x = false -> PrimFloat.is_nan y = false ->
  (y <? x) = false -> (x <=? y) = true.
Proof.
  intros Hx Hy. apply is_nan_false in Hx. apply is_nan_false in Hy.
  rewrite ltb_spec, leb_spec. unfold SFltb, SFleb.
  rewrite (SFcompare_antisym (Prim2SF x) (Prim2SF y)).
  destruct (SFcompare (Prim2SF x) (Prim2SF y)) as [[| |]|] eqn:Hc; simpl;
    try congruence.
  destruct (SFcompare_None _ _ Hc); contradiction.
Qed.

(** A number that compares below another one is not NaN. *)
Lemma ltb_not_nan (x y : float) : (x <? y) = true -> PrimFloat.is_nan x = false.
Proof.
  rewrite ltb_spec. unfold PrimFloat.is_nan. rewrite eqb_spec. unfold SFltb, SFeqb.
  destruct (Prim2SF x) as [[|]|[|]| |[|] mx ex]; simpl; try reflexivity; try discriminate;
    intros _; rewrite Z.compare_refl, Pos.compare_cont_refl; reflexivity.
Qed.

Lemma ltb_not_nan_r (x y : float) : (x <? y) = true -> PrimFloat.is_nan y = false.
Proof.
  rewrite ltb_spec. unfold PrimFloat.is_nan. rewrite eqb_spec. unfold SFltb, SFeqb.
  destruct (Prim2SF y) as [[|]|[|]| |[|] my ey]; simpl; try reflexivity;
    try (intros _; rewrite Z.compare_refl, Pos.compare_cont_refl; reflexivity).
  destruct (Prim2SF x) as [[|]|[|]| |[|] mx ex]; discriminate.
Qed.

Lemma SFltb_trans (x y z : spec_float) :
  SFltb x y = true -> SFltb y z = true -> SFltb x z = true.
Proof.
  unfold SFltb.
  destruct x as [[|]|[|]| |[|] mx ex], y as [[|]|[|]| |[|] my ey],
           z as [[|]|[|]| |[|] mz ez];
    simpl; try discriminate; try reflexivity;
    change (Pos.compare_cont Eq) with Pos.compare;
    destruct (Z.compare_spec ex ey), (Z.compare_spec ey ez), (Z.compare_spec ex ez);
    simpl; try discriminate; try reflexivity; try lia;
    subst;
    destruct (Pos.compare_spec mx my), (Pos.compare_spec my mz), (Pos.compare_spec mx mz);
    simpl; try discriminate; try reflexivity; try lia.
Qed.

Lemma SFltb_irrefl (x : spec_float) : SFltb x x = false.
Proof.
  unfold SFltb. destruct x as [[|]|[|]| |[|] mx ex]; simpl; try reflexivity;
    rewrite Z.compare_refl, Pos.compare_cont_refl; reflexivity.
Qed.

Lemma ltb_trans (x y z : float) : (x <? y) = true -> (y <? z) = true -> (x <? z) = true.
Proof.
  rewrite !ltb_spec. apply SFltb_trans.
Qed.

Lemma ltb_asym (x y : float) : (x <? y) = true -> (y <? x) = false.
Proof.
  intros H. destruct (y <? x) eqn:H'; [|reflexivity].
  pose proof (ltb_trans _ _ _ H H') as Hxx.
  rewrite ltb_spec, SFltb_irrefl in Hxx. discriminate.
Qed.

End FloatFacts.

(** ** History limits *)

Module LimitFacts.
Import JS Types DashboardRoom Worker FloatFacts.
Local Open Scope string_scope.

(** *** The WebSocket path: [request-history] *)

Lemma historyLimit_default (limit : JSValue) :
  typeof limit <> "number" -> historyLimit limit = 200%float.
Proof.
  destruct limit; simpl; intros H; try reflexivity. contradiction H. reflexivity.
Qed.

Lemma Math_min_200 (m : float) :
  PrimFloat.is_nan m = false -> PrimFloat.leb 1 m = true ->
  PrimFloat.leb 1 (Math_min m 200) = true /\ PrimFloat.leb (Math_min m 200) 200 = true.
Proof.
  intros Hnan Hlow. unfold Math_min. rewrite Hnan.
  change (PrimFloat.is_nan 200 || false) with false. cbv iota.
  change (false || PrimFloat.is_nan 200) with false. cbv iota.
  destruct (PrimFloat.ltb m 200) eqn:H1.
  - split; [exact Hlow | apply ltb_leb; exact H1].
  - destruct (PrimFloat.ltb 200 m) eqn:H2.
    + split; reflexivity.
    + destruct (PrimFloat.get_sign m).
      * split; [exact Hlow|]. apply not_ltb_leb; [exact Hnan | reflexivity | exact H2].
      * split; reflexivity.
Qed.

(** A numeric limit is clamped into [1, 200]. *)
Lemma historyLimit_range (x : float) :
  PrimFloat.is_nan x = false ->
  PrimFloat.leb 1 (historyLimit (JSNumber x)) = true
  /\ PrimFloat.leb (historyLimit (JSNumber x)) 200 = true.
Proof.
  intros Hnan. unfold historyLimit, MAX_HISTORY, Math_max. rewrite Hnan.
  change (false || PrimFloat.is_nan 1) with false. cbv iota.
  destruct (PrimFloat.ltb x 1) eqn:H1.
  - apply Math_min_200; reflexivity.
  - destruct (PrimFloat.ltb 1 x) eqn:H2.
    + apply Math_min_200; [exact Hnan | apply ltb_leb; exact H2].
    + destruct (PrimFloat.get_sign x).
      * apply Math_min_200; reflexivity.
      * apply Math_min_200; [exact Hnan|].
        apply not_ltb_leb; [reflexivity | exact Hnan | exact H1].
Qed.

(** Zero, negative numbers and everything else below 1 are clamped to 1. *)
Lemma historyLimit_low (x : float) :
  PrimFloat.ltb x 1 = true -> historyLimit (JSNumber x) = 1%float.
Proof.
  intros H. unfold historyLimit, MAX_HISTORY, Math_max.
  rewrite (ltb_not_nan x 1 H), H. reflexivity.
Qed.

(** Everything above 200 is clamped to 200. *)
Lemma historyLimit_high (x : float) :
  PrimFloat.ltb 200 x = true -> historyLimit (JSNumber x) = 200%float.
Proof.
  intros H. unfold historyLimit, MAX_HISTORY, Math_max, Math_min.
  pose proof (ltb_not_nan_r 200 x H) as Hnan. rewrite Hnan.
  change (false || PrimFloat.is_nan 1) with false. cbv iota.
  assert (H1 : PrimFloat.ltb 1 x = true)
    by (apply (ltb_trans 1 200 x); [reflexivity | exact H]).
  rewrite (ltb_asym 1 x H1), H1, Hnan.
  change (false || PrimFloat.is_nan 200) with false. cbv iota.
  rewrite (ltb_asym 200 x H), H. reflexivity.
Qed.

Example historyLimit_examples :
  historyLimit (JSNumber 0) = 1%float
  /\ historyLimit (JSNumber (-3)) = 1%float
  /\ historyLimit (JSNumber 5000) = 200%float
  /\ historyLimit (JSNumber 50) = 50%float
  /\ historyLimit JSUndefined = 200%float.
Proof. repeat split; reflexivity. Qed.

(** *** The HTTP path: [GET /api/events?limit=...] *)

Lemma eventsLimit_range (limitParam : option string) :
  (1 <= eventsLimit limitParam <= 1000)%Z.
Proof. unfold eventsLimit. lia. Qed.

Lemma eventsLimit_default : eventsLimit None = 100%Z.
Proof. reflexivity. Qed.

Lemma eventsLimit_parsed (limitParam : option string) (n : Z) :
  parseInt (string_or limitParam "100") = Some n ->
  eventsLimit limitParam
  = if (n =? 0)%Z then 100%Z else Z.min (Z.max n 1) 1000.
Proof.
  intros H. unfold eventsLimit, number_or. rewrite H.
  destruct (n =? 0)%Z; reflexivity.
Qed.

Lemma eventsLimit_negative (limitParam : option string) (n : Z) :
  parseInt (string_or limitParam "100") = Some n -> (n < 0)%Z ->
  eventsLimit limitParam = 1%Z.
Proof.
  intros H Hn. rewrite (eventsLimit_parsed limitParam n H).
  destruct (Z.eqb_spec n 0); lia.
Qed.

Lemma eventsLimit_high (limitParam : option string) (n : Z) :
  parseInt (string_or limitParam "100") = Some n -> (1000 <= n)%Z ->
  eventsLimit limitParam = 1000%Z.
Proof.
  intros H Hn. rewrite (eventsLimit_parsed limitParam n H).
  destruct (Z.eqb_spec n 0); lia.
Qed.

Example eventsLimit_examples :
  eventsLimit (Some "-5") = 1%Z
  /\ eventsLimit (Some "5000") = 1000%Z
  /\ eventsLimit (Some "25") = 25%Z
  /\ eventsLimit (Some "abc") = 100%Z.
Proof. repeat split; reflexivity. Qed.

End LimitFacts.


(** ** Statistics *)

Module StatsFacts.
Import JS Types DashboardRoom Worker Notions.
Local Open Scope Z_scope.

(** *** Rounding a ratio of two counts to a percentage

    [Math.round((s / f) * 100)] is evaluated in binary64 arithmetic.  The
    statistics window never holds more than 1000 events, so the ratio is
    one of finitely many; the table below evaluates the expression for
    every pair of counts [0 <= s <= f <= 1000] and checks that the result
    is an integer at distance at most 1/2 from [100 s / f]. *)

Lemma check_row_sound (n : nat) :
  forall s0 f, check_row n s0 f = true ->
               forall s, s0 <= s < s0 + Z.of_nat n -> percent_checked s f = true.
Proof.
  induction n as [|n IH]; intros s0 f H s Hs; [lia|].
  cbn [check_row] in H. apply andb_true_iff in H. destruct H as [Hhere Hrest].
  destruct (Z.eq_dec s s0) as [->|Hne]; [exact Hhere|].
  apply (IH (s0 + 1) f Hrest). lia.
Qed.

Lemma check_rows_sound (n : nat) :
  forall f0, 0 <= f0 -> check_rows n f0 = true ->
             forall f s, f0 <= f < f0 + Z.of_nat n -> 0 <= s <= f ->
                         percent_checked s f = true.
Proof.
  induction n as [|n IH]; intros f0 Hf0 H f s Hf Hs; [lia|].
  cbn [check_rows] in H. apply andb_true_iff in H. destruct H as [Hrow Hrest].
  destruct (Z.eq_dec f f0) as [->|Hne].
  - apply (check_row_sound (S (Z.to_nat f0)) 0 f0 Hrow). lia.
  - apply (IH (f0 + 1)); [lia | exact Hrest | lia | exact Hs].
Qed.

Lemma percent_table : check_rows 1000 1 = true.
Proof. vm_compute. reflexivity. Qed.

Lemma percent_nearest (s f : Z) :
  0 <= s <= f -> 1 <= f <= 1000 ->
  exists k : Z, percent s f = float_of_Z k /\ 0 <= k <= 100 /\ nearestPercent s f k.
Proof.
  intros Hs Hf.
  pose proof (check_rows_sound 1000 1 ltac:(lia) percent_table f s ltac:(lia) Hs) as H.
  unfold percent_checked, percent_is in H.
  assert (Hk : 0 <= 100 * s / f <= 100).
  { split; [apply Z.div_pos; lia|]. apply Z.div_le_upper_bound; nia. }
  apply orb_true_iff in H. destruct H as [H|H];
    apply andb_true_iff in H; destruct H as [Heq Hnear];
    apply FloatAxioms.Leibniz.eqb_spec in Heq; apply Z.leb_le in Hnear.
  - exists (100 * s / f). repeat split; try assumption; lia.
  - exists (100 * s / f + 1). split; [exact Heq|]. split; [|exact Hnear].
    split; [lia|].
    destruct (Z.eq_dec (100 * s / f) 100) as [E|E]; [|lia].
    rewrite E in Hnear. nia.
Qed.

(** Rounding in binary64: [12.5] goes up to 13, while [(23 / 40) * 100]
    evaluates to the number just below [57.5] and goes down to 57; either
    is an integer nearest to the exact percentage. *)
Example percent_examples :
  percent 1 8 = 13%float /\ percent 23 40 = 57%float
  /\ percent 1 3 = 33%float /\ percent 2 3 = 67%float
  /\ percent 7 7 = 100%float /\ percent 0 5 = 0%float.
Proof. repeat split; reflexivity. Qed.

Example Math_round_examples :
  Math_round 57.5 = 58%float /\ Math_round 2.5 = 3%float
  /\ Math_round (-2.5) = (-2)%float /\ Math_round (-0.5) = (-0)%float
  /\ Math_round 0.25 = 0%float /\ Math_round (-7.75) = (-8)%float
  /\ Math_round 450 = 450%float.
Proof. repeat split; reflexivity. Qed.

(** *** The window of [handleStats] *)

Lemma filter_length_le {A : Type} (p : A -> bool) (l : list A) :
  (List.length (filter p l) <= List.length l)%nat.
Proof.
  induction l as [|x l IH]; simpl; [lia|]. destruct (p x); simpl; lia.
Qed.

Lemma window_bound (parseStoredEvent : string -> option StoredEvent)
  (kv : KV.KVNamespace) (limit : nat) :
  (List.length (filter_non_null (fetchEvents parseStoredEvent kv limit)) <= limit)%nat.
Proof.
  eapply Nat.le_trans; [apply HistoryFacts.filter_non_null_length|].
  unfold fetchEvents, KV.list_keys. rewrite length_map, length_firstn. lia.
Qed.

Lemma everyActionFinished_iff (e : StoredEvent) :
  everyActionFinished e = true
  <-> forall a, In a (actionsOf e) -> status a = "finished"%string.
Proof.
  unfold everyActionFinished. rewrite forallb_forall.
  split; intros H a Ha; [apply String.eqb_eq | apply String.eqb_eq]; apply H; exact Ha.
Qed.

Lemma isSuccessfulEnrollment_spec (e : StoredEvent) :
  isSuccessfulEnrollment e = everyActionFinished e.
Proof.
  unfold isSuccessfulEnrollment, everyActionFinished, actionsOf.
  destruct (enrollmentActions (payload e)); reflexivity.
Qed.

Lemma successRate_computeStats (window : list StoredEvent) :
  successRate (computeStats window)
  = if Nat.ltb 0 (List.length (filter isFinished window))
    then percent (Z.of_nat (List.length (filter isSuccessfulEnrollment (filter isFinished window))))
                 (Z.of_nat (List.length (filter isFinished window)))
    else 0%float.
Proof.
  unfold computeStats.
  destruct (Nat.ltb 0 (List.length (filter isFinished window))); reflexivity.
Qed.

(** C1 (amended).  Over the window of stored events that [handleStats]
    reads: when the window holds at least one finished event,
    [successRate] is an integer between 0 and 100 at distance at most 1/2
    from the percentage of finished events whose every enrollment action
    has status [finished]; when it holds no finished event, [successRate]
    is 0. *)
Theorem successRate_rounded_percentage
  (parseStoredEvent : string -> option StoredEvent) (env : Env) :
  let window := filter_non_null (fetchEvents parseStoredEvent (WEBHOOKS env) 1000) in
  let finishedEvents := filter isFinished window in
  let allFinished := filter everyActionFinished finishedEvents in
  let rate := successRate (computeStats window) in
  handleStats parseStoredEvent env = json (JsonStats (computeStats window)) 200
  /\ (finishedEvents = [] -> rate = 0%float)
  /\ (finishedEvents <> [] ->
      exists k : Z,
        rate = float_of_Z k /\ 0 <= k <= 100
        /\ nearestPercent (Z.of_nat (List.length allFinished))
                          (Z.of_nat (List.length finishedEvents)) k).
Proof.
  intros window finishedEvents allFinished rate.
  split; [reflexivity|].
  unfold rate. rewrite successRate_computeStats. fold finishedEvents.
  rewrite (filter_ext _ _ isSuccessfulEnrollment_spec finishedEvents). fold allFinished.
  split.
  - intros ->. reflexivity.
  - intros Hne.
    assert (Hpos : (0 < List.length finishedEvents)%nat).
    { destruct finishedEvents; [contradiction Hne; reflexivity | simpl; lia]. }
    destruct (Nat.ltb_spec 0 (List.length finishedEvents)) as [_|Hle]; [|lia].
    pose proof (window_bound parseStoredEvent (WEBHOOKS env) 1000) as Hwin.
    pose proof (filter_length_le isFinished window) as Hfin.
    pose proof (filter_length_le everyActionFinished finishedEvents) as Hall.
    fold window in Hwin. fold finishedEvents in Hfin. fold allFinished in Hall.
    apply percent_nearest; lia.
Qed.

(** C1, as stated, fails: over a window that holds one started event and
    no finished event, the server reports a success rate of 0, not 100. *)
Lemma successRate_without_finished_events :
  handleStats Samples.sampleParse (Samples.envOf Samples.startedOnlyStore)
  = json (JsonStats {| total := 1; started := 1; finished := 0;
                       avgDuration := 0%float; successRate := 0%float;
                       devices := 1; lastEventTime := Some 1704067200000 |}) 200
  /\ 0%float <> 100%float.
Proof.
  split; [reflexivity|].
  intros H. apply (f_equal (fun x => PrimFloat.eqb x 100)) in H.
  vm_compute in H. discriminate.
Qed.

(** C10.  In the window of [handleStats], a finished event whose
    [enrollmentActions] is absent, [null] or an empty array belongs to the
    successful enrollments: it adds one to the numerator from which
    [successRate] is computed. *)
Theorem trivial_actions_count_as_success
  (parseStoredEvent : string -> option StoredEvent) (env : Env)
  (before after : list StoredEvent) (e : StoredEvent) :
  filter_non_null (fetchEvents parseStoredEvent (WEBHOOKS env) 1000)
  = before ++ e :: after ->
  isFinished e = true ->
  enrollmentActions (payload e) = Absent
  \/ enrollmentActions (payload e) = Null
  \/ enrollmentActions (payload e) = Value [] ->
  let successful w := filter isSuccessfulEnrollment (filter isFinished w) in
  let window := before ++ e :: after in
  handleStats parseStoredEvent env = json (JsonStats (computeStats window)) 200
  /\ In e (successful window)
  /\ List.length (successful window) = S (List.length (successful (before ++ after)))
  /\ successRate (computeStats window)
     = Math_round (PrimFloat.mul
                     (PrimFloat.div
                        (float_of_nat (List.length (successful window)))
                        (float_of_nat (List.length (filter isFinished window))))
                     100%float).
Proof.
  intros Hwindow Hfin Hactions successful window.
  assert (Hsucc : isSuccessfulEnrollment e = true).
  { unfold isSuccessfulEnrollment.
    destruct Hactions as [-> | [-> | ->]]; reflexivity. }
  split.
  { unfold handleStats. rewrite Hwindow. reflexivity. }
  split.
  { unfold successful, window. rewrite !filter_app. simpl. rewrite Hfin. simpl.
    rewrite Hsucc. apply in_or_app. right. left. reflexivity. }
  split.
  { unfold successful, window. rewrite !filter_app. simpl. rewrite Hfin. simpl.
    rewrite Hsucc. rewrite !length_app. simpl. lia. }
  { rewrite successRate_computeStats.
    assert (Hpos : (0 < List.length (filter isFinished window))%nat).
    { unfold window. rewrite filter_app. simpl. rewrite Hfin.
      rewrite length_app. simpl. lia. }
    destruct (Nat.ltb_spec 0 (List.length (filter isFinished window))); [|lia].
    reflexivity. }
Qed.

Lemma trivial_actions_count_as_success_witness :
  handleStats Samples.sampleParse (Samples.envOf Samples.sampleStore)
  = json (JsonStats {| total := 3; started := 1; finished := 2;
                       avgDuration := 450%float; successRate := 50%float;
                       devices := 2; lastEventTime := Some 1704067900000 |}) 200
  /\ In Samples.finishedNoActions
        (filter isSuccessfulEnrollment
           (filter isFinished
              [Samples.finishedNoActions; Samples.finishedWithFailure; Samples.startedEvent])).
Proof.
  destruct (trivial_actions_count_as_success Samples.sampleParse
              (Samples.envOf Samples.sampleStore)
              [] [Samples.finishedWithFailure; Samples.startedEvent]
              Samples.finishedNoActions eq_refl eq_refl (or_introl eq_refl))
    as [_ [Hin _]].
  split; [reflexivity | exact Hin].
Defined.

End StatsFacts.

(** ** Webhook ingestion and the events listing *)

Module WebhookFacts.
Import JS Types DashboardRoom Worker Notions Samples.
Local Open Scope string_scope.

Lemma KV_get_put (kv : KV.KVNamespace) (key value : string) :
  KV.get (KV.put kv key value) key = Some value.
Proof.
  induction kv as [|[k v] rest IH]; simpl.
  - rewrite String.eqb_refl. reflexivity.
  - destruct (String.eqb k key) eqn:Hk; simpl.
    + rewrite String.eqb_refl. reflexivity.
    + destruct (String.ltb key k); simpl.
      * rewrite String.eqb_refl. reflexivity.
      * rewrite Hk. exact IH.
Qed.

Section WithLibraries.
Variable parseStoredEvent : string -> option StoredEvent.
Variable JSON_parse : string -> option JSValue.
Variable JSON_stringify : JSValue -> string.
Variable Date_parse : string -> option Z.
Variable HMAC : string -> list Z.

Let handle :=
  handleWebhook parseStoredEvent JSON_parse JSON_stringify Date_parse HMAC.

(** A request whose [Content-Length] header declares more than 8192 bytes
    is answered 413 before anything else happens. *)
Lemma declared_oversize_rejected (request : Request) (env : Env) (now n : Z) :
  declaredLength request = Some n -> (8192 < n)%Z ->
  handle request env now
  = {| response := json (JsonError "Payload too large") 413;
       env_after := env; effects := [] |}.
Proof.
  unfold declaredLength, handle, handleWebhook. intros -> Hn.
  unfold MAX_WEBHOOK_PAYLOAD_SIZE.
  destruct (Z.ltb_spec 8192 n); [reflexivity | lia].
Qed.

(** A request that passes the size check and does not declare
    [application/json] is answered 415: nothing is parsed, stored or
    broadcast. *)
Lemma wrong_content_type_rejected (request : Request) (env : Env) (now : Z) :
  (forall n, declaredLength request = Some n -> (n <= 8192)%Z) ->
  declaresJson request = false ->
  handle request env now
  = {| response := json (JsonError "Content-Type must be application/json") 415;
       env_after := env; effects := [] |}.
Proof.
  unfold declaredLength, declaresJson, handle, handleWebhook. intros Hsize Hct.
  unfold MAX_WEBHOOK_PAYLOAD_SIZE.
  destruct (parseInt _) as [n|].
  - specialize (Hsize n eq_refl).
    destruct (Z.ltb_spec 8192 n); [lia|].
    destruct (headers_get (headers request) "Content-Type") as [[|c ct]|];
      try reflexivity.
    rewrite Hct. reflexivity.
  - destruct (headers_get (headers request) "Content-Type") as [[|c ct]|];
      try reflexivity.
    rewrite Hct. reflexivity.
Qed.

End WithLibraries.

(** *** A body larger than the cap, sent without a [Content-Length] header *)

Lemma paddedPayload_valid (Date_parse : string -> option Z) (t : Z) :
  Date_parse "2024-01-01T00:00:00Z" = Some t ->
  validateWebhookPayload Date_parse paddedPayload
  = Normal {| valid := true; error := None |}.
Proof.
  intros Hdate. apply ValidatorFacts.accepts_iff.
  unfold validateChecks, paddedPayload, Samples.sampleBase.
  vm_compute. rewrite Hdate. reflexivity.
Qed.

(** C3 at the failing input.  The request carries a body of more than
    8192 bytes and no [Content-Length] header.  The size check reads the
    header only, takes the missing header for a length of 0 and lets the
    request through: the answer is not 413 and the body is handed to the
    JSON parser; when the parser and the date parser do their job on this
    text, the event is stored and broadcast and the answer is 200. *)
Theorem oversized_body_without_length_is_processed
  (parseStoredEvent : string -> option StoredEvent)
  (JSON_parse : string -> option JSValue) (JSON_stringify : JSValue -> string)
  (Date_parse : string -> option Z) (HMAC : string -> list Z)
  (kv : KV.KVNamespace) (room : list WebSocket) (now : Z) :
  let env := {| WEBHOOKS := kv; DASHBOARD_ROOM := room; WEBHOOK_SECRET := None |} in
  let out :=
    handleWebhook parseStoredEvent JSON_parse JSON_stringify Date_parse HMAC
      chunkedRequest env now in
  (8192 < Z.of_nat (String.length (body chunkedRequest)))%Z
  /\ headers_get (headers chunkedRequest) "Content-Length" = None
  /\ resp_status (response out) <> 413
  /\ hd_error (effects out) = Some JsonParsed
  /\ (JSON_parse paddedBody = Some paddedPayload ->
      Date_parse "2024-01-01T00:00:00Z" = Some 1704067200000%Z ->
      exists eventId value message,
        response out = json (JsonSuccess eventId) 200
        /\ effects out = [JsonParsed; KVPut eventId value; RoomBroadcast message]
        /\ KV.get (WEBHOOKS (env_after out)) eventId = Some value).
Proof.
  intros env out.
  split; [vm_compute; reflexivity|].
  split; [reflexivity|].
  assert (Hlen : parseInt (string_or (headers_get (headers chunkedRequest) "Content-Length") "0")
                 = Some 0%Z) by reflexivity.
  split; [|split].
  - unfold out, handleWebhook. rewrite Hlen. simpl headers. simpl body.
    destruct (JSON_parse paddedBody) as [payload|]; [|discriminate].
    destruct (validateWebhookPayload Date_parse payload) as [validation|err];
      [|discriminate].
    destruct (valid validation); [|discriminate].
    cbv zeta. rewrite DashboardRoomFacts.fetch_broadcast. discriminate.
  - unfold out, handleWebhook. rewrite Hlen. simpl headers. simpl body.
    destruct (JSON_parse paddedBody) as [payload|]; [|reflexivity].
    destruct (validateWebhookPayload Date_parse payload) as [validation|err];
      [|reflexivity].
    destruct (valid validation); [|reflexivity].
    cbv zeta. rewrite DashboardRoomFacts.fetch_broadcast. reflexivity.
  - intros Hparse Hdate.
    unfold out, handleWebhook. rewrite Hlen. simpl headers. simpl body.
    rewrite Hparse, (paddedPayload_valid Date_parse _ Hdate).
    cbv zeta. rewrite DashboardRoomFacts.fetch_broadcast.
    eexists. eexists. eexists. split; [reflexivity|]. split; [reflexivity|].
    simpl. apply KV_get_put.
Qed.

(** The same request, run: the oversized body is stored under its event
    identifier and the answer is 200. *)
Example oversized_body_stored :
  handleWebhook sampleParse sampleJSONParse sampleStringify sampleDateParse sampleHMAC
    chunkedRequest (envOf []) 1704067200123
  = {| response :=
         json (JsonSuccess "com.jamf.setupmanager.started:TEST001:1704067200123") 200;
       env_after :=
         Samples.envOf
           [("com.jamf.setupmanager.started:TEST001:1704067200123", "<stored event>")];
       effects :=
         [ JsonParsed;
           KVPut "com.jamf.setupmanager.started:TEST001:1704067200123" "<stored event>";
           RoomBroadcast "<message>" ] |}.
Proof. vm_compute. reflexivity. Qed.

(** *** The events listing with [limit=0] *)

(** C2 at the failing input.  [GET /api/events?limit=0]: [parseInt]
    yields 0, which is falsy, so [|| 100] replaces it by the default
    before the clamp is applied; the listing is read with limit 100 and
    returns all three stored events, where a limit clamped to 1 would
    return one.  The WebSocket path clamps the same request to 1. *)
Theorem events_limit_zero_falls_back_to_default :
  eventsLimit (searchParams_get (searchParams (listingRequest "0")) "limit") = 100%Z
  /\ handleEvents Samples.sampleParse (listingRequest "0") (Samples.envOf Samples.sampleStore)
     = json (JsonEvents [Samples.finishedWithFailure; Samples.finishedNoActions;
                         Samples.startedEvent]) 200
  /\ handleEvents Samples.sampleParse (listingRequest "1") (Samples.envOf Samples.sampleStore)
     = json (JsonEvents [Samples.finishedNoActions]) 200
  /\ historyLimit (JSNumber 0%float) = 1%float.
Proof.
  repeat split; reflexivity.
Qed.

End WebhookFacts.

(* ================================================================== *)
(** * Further properties of the viewer, the room, the validator and the worker *)
(* ================================================================== *)

(** ** Viewer state *)

Module ViewerFacts.
Import JS Types Viewer Notions.

Lemma seen_has_In (seen : list string) (id : string) :
  seen_has seen id = true <-> In id seen.
Proof.
  unfold seen_has. rewrite existsb_exists. split.
  - intros [x [Hin Heq]]. apply String.eqb_eq in Heq. subst. exact Hin.
  - intros Hin. exists id. split; [exact Hin | apply String.eqb_refl].
Qed.

Lemma seen_has_false (seen : list string) (id : string) :
  seen_has seen id = false <-> ~ In id seen.
Proof.
  rewrite <- seen_has_In. destruct (seen_has seen id); split; congruence.
Qed.

Lemma knows_In (events : list StoredEvent) (id : string) :
  knows events id = true <-> In id (map eventId events).
Proof.
  unfold knows. rewrite existsb_exists, in_map_iff. split.
  - intros [e [Hin Heq]]. apply String.eqb_eq in Heq. exists e. split; assumption.
  - intros [e [Heq Hin]]. exists e. split; [exact Hin | apply String.eqb_eq; exact Heq].
Qed.

Lemma uniqueEvents_In (data : list StoredEvent) :
  forall seen e, In e (uniqueEvents seen data) -> In e data /\ ~ In (eventId e) seen.
Proof.
  induction data as [|x rest IH]; intros seen e Hin; simpl in Hin; [contradiction|].
  destruct (seen_has seen (eventId x)) eqn:Hseen.
  - destruct (IH _ _ Hin) as [H1 H2]. split; [right; exact H1 | exact H2].
  - destruct Hin as [Heq | Hin].
    + subst. split; [left; reflexivity | apply seen_has_false; exact Hseen].
    + destruct (IH _ _ Hin) as [H1 H2]. split; [right; exact H1|].
      intros Hc. apply H2. right. exact Hc.
Qed.

Lemma uniqueEvents_NoDup (data : list StoredEvent) :
  forall seen, NoDup (map eventId (uniqueEvents seen data)).
Proof.
  induction data as [|x rest IH]; intros seen; simpl; [constructor|].
  destruct (seen_has seen (eventId x)); [apply IH|].
  simpl. constructor; [|apply IH].
  intros Hin. apply in_map_iff in Hin. destruct Hin as [e [Heq Hin]].
  apply uniqueEvents_In in Hin. destruct Hin as [_ Hnot].
  apply Hnot. left. symmetry. exact Heq.
Qed.

Lemma uniqueEvents_length (data : list StoredEvent) :
  forall seen, (List.length (uniqueEvents seen data) <= List.length data)%nat.
Proof.
  induction data as [|x rest IH]; intros seen; simpl; [lia|].
  destruct (seen_has seen (eventId x)); simpl.
  - specialize (IH seen). lia.
  - specialize (IH (eventId x :: seen)). lia.
Qed.

(** The event kept for an identifier is the first one carrying it. *)
Lemma uniqueEvents_find (data : list StoredEvent) (id : string) :
  forall seen, ~ In id seen ->
    find (fun e => String.eqb (eventId e) id) (uniqueEvents seen data)
    = find (fun e => String.eqb (eventId e) id) data.
Proof.
  induction data as [|x rest IH]; intros seen Hnot; simpl; [reflexivity|].
  destruct (seen_has seen (eventId x)) eqn:Hseen.
  - destruct (String.eqb_spec (eventId x) id) as [Heq|Hne].
    + exfalso. apply Hnot. rewrite <- Heq. apply seen_has_In. exact Hseen.
    + apply IH. exact Hnot.
  - simpl. destruct (String.eqb_spec (eventId x) id) as [Heq|Hne]; [reflexivity|].
    apply IH. intros [Hc|Hc]; [exact (Hne Hc) | exact (Hnot Hc)].
Qed.

Lemma uniqueEvents_sorted (R : StoredEvent -> StoredEvent -> Prop)
  (data : list StoredEvent) :
  StronglySorted R data -> forall seen, StronglySorted R (uniqueEvents seen data).
Proof.
  induction 1 as [|x rest Hsorted IH Hall]; intros seen; simpl; [constructor|].
  destruct (seen_has seen (eventId x)); [apply IH|].
  constructor; [apply IH|].
  rewrite Forall_forall in *. intros e Hin.
  apply Hall. apply uniqueEvents_In in Hin. tauto.
Qed.

Lemma uniqueEvents_fixed (data : list StoredEvent) :
  NoDup (map eventId data) ->
  forall seen, (forall e, In e data -> ~ In (eventId e) seen) ->
               uniqueEvents seen data = data.
Proof.
  induction data as [|x rest IH]; intros Hnd seen Hseen; simpl; [reflexivity|].
  simpl in Hnd. inversion Hnd as [|? ? Hx Hrest]; subst.
  assert (Hfresh : seen_has seen (eventId x) = false).
  { apply seen_has_false. apply Hseen. left. reflexivity. }
  rewrite Hfresh. f_equal. apply IH; [exact Hrest|].
  intros e Hin [Hc|Hc].
  - apply Hx. rewrite Hc. apply in_map. exact Hin.
  - apply (Hseen e); [right; exact Hin | exact Hc].
Qed.

Lemma NoDup_firstn {A : Type} (n : nat) (l : list A) : NoDup l -> NoDup (firstn n l).
Proof.
  intros Hnd. revert n. induction Hnd as [|x l Hx Hnd IH]; intros [|n]; simpl;
    try constructor.
  - intros Hin. apply Hx. revert Hin. clear. revert n.
    induction l as [|y l IH]; intros [|n]; simpl; try contradiction.
    intros [H|H]; [left; exact H | right; exact (IH _ H)].
  - apply IH.
Qed.

Lemma onmessage_unique (message : Incoming) (events : list StoredEvent) :
  NoDup (map eventId events) -> NoDup (map eventId (onmessage message events)).
Proof.
  intros Hnd. destruct message as [data|e| | |]; cbn [onmessage]; try exact Hnd.
  - apply uniqueEvents_NoDup.
  - destruct (knows events (eventId e)) eqn:Hknown; [exact Hnd|].
    rewrite <- firstn_map. apply NoDup_firstn. simpl. constructor; [|exact Hnd].
    intros Hin. apply knows_In in Hin. congruence.
Qed.

Lemma onmessage_capped (message : Incoming) (events : list StoredEvent) :
  (List.length events <= 200)%nat ->
  (forall data, message = HistoryMessage data -> (List.length data <= 200)%nat) ->
  (List.length (onmessage message events) <= 200)%nat.
Proof.
  intros Hlen Hhist. destruct message as [data|e| | |]; cbn [onmessage]; try exact Hlen.
  - specialize (Hhist data eq_refl). pose proof (uniqueEvents_length data []). lia.
  - destruct (knows events (eventId e)); [exact Hlen|].
    apply firstn_le_length.
Qed.

(** X1.  A [history] message replaces the list on screen by the events of
    the message without repeated identifiers: of several events carrying
    one identifier the first is kept, the order of the message is kept
    (newest first stays newest first), nothing is added, and a message
    without repetition is shown as it is. *)
Theorem history_message_deduplicated (data events : list StoredEvent) :
  let shown := onmessage (HistoryMessage data) events in
  NoDup (map eventId shown)
  /\ (forall id, find (fun e => String.eqb (eventId e) id) shown
                 = find (fun e => String.eqb (eventId e) id) data)
  /\ (forall e, In e shown -> In e data)
  /\ (StronglySorted newestFirst data -> StronglySorted newestFirst shown)
  /\ (List.length shown <= List.length data)%nat
  /\ (NoDup (map eventId data) -> shown = data).
Proof.
  simpl. repeat split.
  - apply uniqueEvents_NoDup.
  - intros id. apply uniqueEvents_find. intros [].
  - intros e Hin. apply uniqueEvents_In in Hin. tauto.
  - intros Hs. apply uniqueEvents_sorted. exact Hs.
  - apply uniqueEvents_length.
  - intros Hnd. apply uniqueEvents_fixed; [exact Hnd|]. intros e _ [].
Qed.

(** X2.  Whatever messages arrive and in whatever order, a list without
    repeated event identifiers stays without repeated identifiers. *)
Theorem viewer_never_repeats_an_event (messages : list Incoming)
  (events : list StoredEvent) :
  NoDup (map eventId events) ->
  NoDup (map eventId (receive messages events)).
Proof.
  unfold receive. revert events.
  induction messages as [|m rest IH]; intros events Hnd; simpl; [exact Hnd|].
  apply IH. apply onmessage_unique. exact Hnd.
Qed.

Lemma viewer_never_repeats_an_event_witness :
  NoDup (map eventId [Samples.startedEvent])
  /\ NoDup (map eventId
              (receive [ EventMessage Samples.startedEvent;
                         HistoryMessage [Samples.finishedNoActions; Samples.startedEvent;
                                         Samples.finishedNoActions];
                         EventMessage Samples.startedEvent;
                         EventMessage Samples.finishedWithFailure ]
                       [Samples.startedEvent])).
Proof.
  assert (H : NoDup (map eventId [Samples.startedEvent])).
  { constructor; [intros [] | constructor]. }
  split; [exact H|].
  apply (viewer_never_repeats_an_event _ [Samples.startedEvent] H).
Defined.

(** X3.  The hook caps the list at 200 events when it merges a live event,
    but shows a [history] message in full: the list stays within 200
    events as long as every [history] message does. *)
Theorem viewer_list_capped (messages : list Incoming) (events : list StoredEvent) :
  (List.length events <= 200)%nat ->
  (forall data, In (HistoryMessage data) messages -> (List.length data <= 200)%nat) ->
  (List.length (receive messages events) <= 200)%nat.
Proof.
  unfold receive. revert events.
  induction messages as [|m rest IH]; intros events Hlen Hhist; simpl; [exact Hlen|].
  apply IH.
  - apply onmessage_capped; [exact Hlen|].
    intros data Heq. apply Hhist. left. exact Heq.
  - intros data Hin. apply Hhist. right. exact Hin.
Qed.

Lemma viewer_list_capped_witness :
  (List.length
     (receive [ HistoryMessage [Samples.finishedNoActions; Samples.startedEvent];
                EventMessage Samples.finishedWithFailure ]
              []) <= 200)%nat.
Proof.
  apply (viewer_list_capped _ []).
  - simpl. lia.
  - intros data [H|[H|[]]]; inversion H. simpl. lia.
Defined.

(** X4.  A live event that is delivered again changes nothing: the second
    delivery finds the identifier in the list. *)
Theorem live_event_redelivery_ignored (e : StoredEvent) (events : list StoredEvent) :
  onmessage (EventMessage e) (onmessage (EventMessage e) events)
  = onmessage (EventMessage e) events.
Proof.
  cbn [onmessage]. destruct (knows events (eventId e)) eqn:Hknown.
  - rewrite Hknown. reflexivity.
  - assert (Hnow : knows (firstn 200 (e :: events)) (eventId e) = true).
    { simpl. rewrite String.eqb_refl. reflexivity. }
    rewrite Hnow. reflexivity.
Qed.

End ViewerFacts.

(** ** Room protocol: frames, history replies, upgrades *)

Module RoomProtocolFacts.
Import JS Types DashboardRoom Notions Protocol.

(** *** The integer part of a clamped limit *)

Lemma digits2_pos_bound (m : positive) : (Z.pos m < 2 ^ Z.pos (digits2_pos m))%Z.
Proof.
  induction m as [p IH|p IH|]; cbn [digits2_pos].
  - rewrite Pos2Z.inj_succ, Z.pow_succ_r by lia. lia.
  - rewrite Pos2Z.inj_succ, Z.pow_succ_r by lia. lia.
  - reflexivity.
Qed.

Lemma compare_cont_Eq (a b : positive) :
  PosDef.Pos.compare_cont Eq a b = Pos.compare a b.
Proof. reflexivity. Qed.

Lemma valid_mantissa_bound (s : bool) (m : positive) (e : Z) :
  SpecFloat.valid_binary prec emax (S754_finite s m e) = true ->
  (Z.pos m < 2 ^ 53)%Z.
Proof.
  cbn [SpecFloat.valid_binary]. unfold bounded, canonical_mantissa, fexp.
  intros H. apply andb_prop in H. destruct H as [H _].
  apply Z.eqb_eq in H.
  assert (Hd : (Z.pos (digits2_pos m) <= 53)%Z).
  { unfold prec in H. change IntDef.Z.max with Z.max in H. lia. }
  eapply Z.lt_le_trans; [apply digits2_pos_bound|].
  apply Z.pow_le_mono_r; lia.
Qed.

Lemma nat_of_float_le_200 (x : float) :
  PrimFloat.leb x 200 = true -> (nat_of_float x <= 200)%nat.
Proof.
  rewrite leb_spec. unfold nat_of_float.
  pose proof (Prim2SF_valid x) as Hvalid.
  change (Prim2SF 200) with (S754_finite false 7036874417766400 (-45)).
  destruct (Prim2SF x) as [s|s| |s m e]; try lia.
  destruct s; [lia|].
  apply valid_mantissa_bound in Hvalid.
  unfold SFleb, SFcompare.
  destruct (Z.compare_spec e (-45)) as [Heq|Hlt|Hgt]; try discriminate.
  - subst e. intros Hcmp. change (0 <=? -45)%Z with false. cbn iota.
    assert (Hm : (Z.pos m <= 7036874417766400)%Z).
    { rewrite compare_cont_Eq in Hcmp.
      destruct (Pos.compare_spec m 7036874417766400%positive) as [H|H|H];
        [subst; lia | apply Pos2Z.pos_lt_pos in H; lia | discriminate]. }
    rewrite Z.shiftr_div_pow2 by lia.
    change (2 ^ (- -45))%Z with 35184372088832%Z.
    assert ((Z.pos m / 35184372088832 <= 200)%Z).
    { apply Z.div_le_upper_bound; lia. }
    lia.
  - intros _. destruct (Z.leb_spec 0 e) as [H0|H0]; [lia|].
    rewrite Z.shiftr_div_pow2 by lia.
    assert (Hpow : (2 ^ 46 <= 2 ^ (- e))%Z) by (apply Z.pow_le_mono_r; lia).
    assert ((Z.pos m / 2 ^ (- e) <= 200)%Z).
    { apply Z.div_le_upper_bound; [lia|].
      change (2 ^ 53)%Z with 9007199254740992%Z in Hvalid.
      change (2 ^ 46)%Z with 70368744177664%Z in Hpow. nia. }
    lia.
Qed.

Lemma historyLimit_nan (x : float) :
  PrimFloat.is_nan x = true -> historyLimit (JSNumber x) = PrimFloat.nan.
Proof.
  intros Hnan. unfold historyLimit, Math_max. rewrite Hnan. reflexivity.
Qed.

(** Whatever the client asks for, at most 200 keys are listed. *)
Lemma historyLimit_capped (limit : JSValue) :
  (nat_of_float (historyLimit limit) <= 200)%nat.
Proof.
  destruct limit as [| | b | x | s | elems | props];
    try (change (nat_of_float 200 <= 200)%nat; vm_compute; lia).
  destruct (PrimFloat.is_nan x) eqn:Hnan.
  - rewrite (historyLimit_nan x Hnan). vm_compute. lia.
  - apply nat_of_float_le_200. apply LimitFacts.historyLimit_range. exact Hnan.
Qed.

Section WithParsers.
Variable parseStoredEvent : string -> option StoredEvent.
Variable JSON_parse : string -> option JSValue.

Lemma history_length (kv : KV.KVNamespace) (limit : nat) :
  (List.length (history parseStoredEvent kv limit) <= limit)%nat.
Proof.
  unfold history.
  rewrite (Permutation_length (HistoryFacts.Array_sort_perm byTimestampDesc _)).
  eapply Nat.le_trans; [apply HistoryFacts.filter_non_null_length|].
  unfold readEvents, KV.list_keys. rewrite length_map. apply firstn_le_length.
Qed.

Lemma history_sorted (kv : KV.KVNamespace) (limit : nat) :
  StronglySorted newestFirst (history parseStoredEvent kv limit).
Proof. apply HistoryFacts.Array_sort_newestFirst. Qed.

(** What [ws.send] leaves behind. *)
Lemma ws_send_Normal (ws ws' : WebSocket) (m : ServerMessage) :
  ws_send ws m = Normal ws' ->
  send_throws ws = false
  /\ ws' = {| ws_id := ws_id ws; send_throws := send_throws ws; sent := sent ws ++ [m] |}.
Proof.
  unfold ws_send. destruct (send_throws ws); [discriminate|].
  intros H. inversion H. split; reflexivity.
Qed.

Lemma webSocketMessage_try_reply (kv : KV.KVNamespace) (now : Z)
  (ws ws' : WebSocket) (message : Frame) :
  webSocketMessage_try parseStoredEvent JSON_parse kv now ws message = Normal ws' ->
  ws' = ws
  \/ exists reply, Reply parseStoredEvent kv now reply /\ ws_send ws reply = Normal ws'.
Proof.
  unfold webSocketMessage_try.
  destruct (Nat.ltb MAX_WS_MESSAGE_SIZE _).
  { intros H. right. exists (MsgError "Message too large"). split; [constructor | exact H]. }
  destruct message as [text|n]; [|intros H; inversion H; left; reflexivity].
  destruct (JSON_parse text) as [data|]; [|discriminate].
  cbn [bind]. destruct (Get data "type") as [type|]; [|discriminate].
  cbn [bind].
  destruct (strict_eq_string type "ping") eqn:Hping.
  - assert (Hhist : strict_eq_string type "request-history" = false).
    { destruct type; try reflexivity. simpl in *.
      apply String.eqb_eq in Hping. subst. reflexivity. }
    rewrite Hhist.
    destruct (ws_send ws (MsgPong now)) as [ws1|] eqn:Hsend; [|discriminate].
    cbn [bind]. intros H. inversion H. subst ws1.
    right. exists (MsgPong now). split; [constructor | exact Hsend].
  - cbn [bind].
    destruct (strict_eq_string type "request-history"); [|intros H; inversion H; left; reflexivity].
    destruct (Get data "limit") as [limit|]; [|discriminate].
    cbn [bind]. unfold sendHistory. intros H.
    right. exists (MsgHistory (history parseStoredEvent kv (nat_of_float (historyLimit limit)))).
    split; [constructor; apply historyLimit_capped | exact H].
Qed.

Lemma webSocketMessage_reply (kv : KV.KVNamespace) (now : Z)
  (ws : WebSocket) (message : Frame) :
  let ws' := webSocketMessage parseStoredEvent JSON_parse kv now ws message in
  ws' = ws
  \/ exists reply, Reply parseStoredEvent kv now reply /\ ws_send ws reply = Normal ws'.
Proof.
  unfold webSocketMessage.
  destruct (webSocketMessage_try parseStoredEvent JSON_parse kv now ws message) as [ws'|]
    eqn:Htry; [|left; reflexivity].
  exact (webSocketMessage_try_reply kv now ws ws' message Htry).
Qed.

(** X5.  One inbound frame gets at most one reply, and the reply is the
    size error, a pong stamped with the current time, or a history; the
    socket is otherwise left as it was, and a socket whose [send] throws
    is not changed at all (the exception is caught). *)
Theorem frame_gets_at_most_one_reply (kv : KV.KVNamespace) (now : Z)
  (ws : WebSocket) (message : Frame) :
  let ws' := webSocketMessage parseStoredEvent JSON_parse kv now ws message in
  ws_id ws' = ws_id ws
  /\ send_throws ws' = send_throws ws
  /\ (sent ws' = sent ws
      \/ exists reply,
           sent ws' = sent ws ++ [reply]
           /\ (reply = MsgError "Message too large" \/ reply = MsgPong now
               \/ exists events, reply = MsgHistory events))
  /\ (send_throws ws = true -> ws' = ws).
Proof.
  cbv zeta.
  destruct (webSocketMessage_reply kv now ws message) as [Heq | [reply [Hreply Hsend]]].
  - rewrite Heq. repeat split; try reflexivity. left. reflexivity.
  - apply ws_send_Normal in Hsend. destruct Hsend as [Halive Hws']. rewrite Hws'.
    cbn [ws_id send_throws sent]. repeat split.
    + right. exists reply. split; [reflexivity|].
      destruct Hreply; [left; reflexivity | right; left; reflexivity | right; right; eauto].
    + intros Hthrows. congruence.
Qed.

(** X6.  Whatever limit a client asks for (a number of any size or sign,
    a fraction, an infinity, or no number at all), a history that the
    room sends in reply to a frame carries at most 200 events, newest
    first, all of them read from the store. *)
Theorem history_reply_capped (kv : KV.KVNamespace) (now : Z)
  (ws : WebSocket) (message : Frame) (events : list StoredEvent) :
  In (MsgHistory events)
     (sent (webSocketMessage parseStoredEvent JSON_parse kv now ws message)) ->
  In (MsgHistory events) (sent ws)
  \/ ((List.length events <= 200)%nat
      /\ StronglySorted newestFirst events
      /\ forall e, In e events -> readable parseStoredEvent kv 200 e).
Proof.
  destruct (webSocketMessage_reply kv now ws message) as [Heq | [reply [Hreply Hsend]]].
  - rewrite Heq. intros H. left. exact H.
  - apply ws_send_Normal in Hsend. destruct Hsend as [_ Hws']. rewrite Hws'.
    cbn [sent]. intros Hin. apply in_app_or in Hin.
    destruct Hin as [Hin | [Hin | []]]; [left; exact Hin|].
    right. destruct Hreply as [| |limit Hlimit]; try discriminate.
    inversion Hin. subst events. split; [|split].
    + eapply Nat.le_trans; [apply history_length | exact Hlimit].
    + apply history_sorted.
    + intros e He. unfold history in He.
      apply (Permutation_in _ (HistoryFacts.Array_sort_perm byTimestampDesc _)) in He.
      apply HistoryFacts.In_filter_non_null in He.
      apply HistoryFacts.readEvents_readable in He.
      destruct He as [key [data [Hkey Hrest]]].
      exists key, data. split; [|exact Hrest].
      rewrite <- (firstn_skipn limit (firstn 200 (map fst kv))).
      apply in_or_app. left. rewrite firstn_firstn.
      replace (Nat.min limit 200) with limit by lia. exact Hkey.
Qed.

End WithParsers.

Lemma history_reply_capped_witness :
  In (MsgHistory [Samples.finishedWithFailure; Samples.finishedNoActions;
                  Samples.startedEvent])
     (sent liveSocket)
  \/ ((List.length [Samples.finishedWithFailure; Samples.finishedNoActions;
                    Samples.startedEvent] <= 200)%nat
      /\ StronglySorted newestFirst
           [Samples.finishedWithFailure; Samples.finishedNoActions; Samples.startedEvent]
      /\ forall e,
           In e [Samples.finishedWithFailure; Samples.finishedNoActions;
                 Samples.startedEvent] ->
           readable Samples.sampleParse Samples.sampleStore 200 e).
Proof.
  apply (history_reply_capped Samples.sampleParse sampleFrameParse Samples.sampleStore
           1704067200000%Z liveSocket (TextFrame greedyFrame)).
  vm_compute. left. reflexivity.
Defined.

(** *** Broadcasts and upgrades *)

Lemma attempt_throws (message : string) (ws : WebSocket) :
  send_throws (attempt message ws) = send_throws ws.
Proof. unfold attempt. destruct (send_throws ws) eqn:H; simpl; congruence. Qed.

Lemma delivered_cons (message : string) (rest : list string) (ws : WebSocket) :
  delivered rest (attempt message ws) = delivered (message :: rest) ws.
Proof.
  unfold delivered. rewrite attempt_throws. unfold attempt.
  destruct (send_throws ws) eqn:H; [reflexivity|].
  cbn [ws_id send_throws sent map]. rewrite <- app_assoc. reflexivity.
Qed.

Lemma delivered_nil (ws : WebSocket) : delivered [] ws = ws.
Proof.
  unfold delivered. destruct ws as [id throws msgs]. cbn [send_throws ws_id sent map].
  destruct throws; [reflexivity|]. rewrite app_nil_r. reflexivity.
Qed.

(** X7.  Broadcasts compose: after one [POST /broadcast] per message,
    every socket whose [send] works has been sent all the messages, in
    the order of the requests and after whatever it had been sent before;
    a socket whose [send] throws is still in the room, unchanged. *)
Theorem broadcasts_arrive_in_order (parseStoredEvent : string -> option StoredEvent)
  (kv : KV.KVNamespace) (now : Z) (messages : list string)
  (webSockets : list WebSocket) :
  afterBroadcasts parseStoredEvent kv now messages webSockets
  = map (delivered messages) webSockets.
Proof.
  unfold afterBroadcasts. revert webSockets.
  induction messages as [|m rest IH]; intros webSockets; cbn [fold_left].
  - rewrite (map_ext _ (fun ws => ws) delivered_nil), map_id. reflexivity.
  - rewrite DashboardRoomFacts.fetch_broadcast, DashboardRoomFacts.broadcast_spec.
    cbn [fst]. rewrite IH, map_map.
    apply map_ext. intros ws. apply delivered_cons.
Qed.

(** X8.  A viewer joins without disturbing the others: an upgrade request
    appends the new socket to the room and leaves every socket already
    there as it was.  The new socket is first sent the [connected]
    greeting and then one history of at most 200 events, newest first; if
    its [send] throws it is registered all the same, nothing is sent, and
    the exception leaves [fetch]. *)
Theorem viewer_joins_without_disturbing_others
  (parseStoredEvent : string -> option StoredEvent)
  (kv : KV.KVNamespace) (now : Z) (webSockets : list WebSocket)
  (request : RoomRequest) (server : WebSocket) :
  room_upgrade request = Some server ->
  String.eqb (room_pathname request) "/broadcast"
  && String.eqb (room_method request) "POST" = false ->
  String.eqb (room_pathname request) "/connections"
  && String.eqb (room_method request) "GET" = false ->
  exists joined,
    fst (fetch parseStoredEvent kv now webSockets request) = webSockets ++ [joined]
    /\ ws_id joined = ws_id server
    /\ (send_throws server = true ->
        joined = server
        /\ snd (fetch parseStoredEvent kv now webSockets request) = Throw "send failed")
    /\ (send_throws server = false ->
        snd (fetch parseStoredEvent kv now webSockets request) = Normal SwitchingProtocols
        /\ exists events,
             sent joined
             = sent server ++ [MsgConnected now "Connected to Setup Manager dashboard";
                               MsgHistory events]
             /\ (List.length events <= 200)%nat
             /\ StronglySorted newestFirst events).
Proof.
  intros Hup Hb Hc. unfold fetch. rewrite Hb, Hc, Hup.
  unfold upgrade, sendHistory, ws_send.
  destruct (send_throws server) eqn:Hthrows; cbn [send_throws fst snd bind].
  - exists server. repeat split; try reflexivity; discriminate.
  - eexists. split; [reflexivity|]. cbn [ws_id sent]. split; [reflexivity|].
    split; [discriminate|]. intros _. split; [reflexivity|].
    eexists. split; [rewrite <- app_assoc; reflexivity|]. split.
    + eapply Nat.le_trans; [apply history_length|].
      change (nat_of_float 200 <= 200)%nat. vm_compute. lia.
    + apply history_sorted.
Qed.

Lemma viewer_joins_without_disturbing_others_witness :
  exists joined,
    fst (fetch Samples.sampleParse Samples.sampleStore 1704067200000%Z
           [deadSocket] (joinRequest liveSocket))
    = [deadSocket] ++ [joined]
    /\ sent joined
       = [MsgConnected 1704067200000%Z "Connected to Setup Manager dashboard";
          MsgHistory [Samples.finishedWithFailure; Samples.finishedNoActions;
                      Samples.startedEvent]].
Proof.
  destruct (viewer_joins_without_disturbing_others Samples.sampleParse
              Samples.sampleStore 1704067200000%Z [deadSocket]
              (joinRequest liveSocket) liveSocket eq_refl eq_refl eq_refl)
    as [joined [Hfst _]].
  exists joined. split; [exact Hfst|].
  vm_compute in Hfst. inversion Hfst. reflexivity.
Defined.

End RoomProtocolFacts.

(** ** The validator, characterised *)

Module WellFormedFacts.
Import JS Types Notions WellFormed.
Local Open Scope js_scope.
Local Open Scope string_scope.

Lemma Get_object (props : list (string * JSValue)) (key : string) :
  Get (JSObject props) key = Normal (valueOf props key).
Proof. reflexivity. Qed.

Lemma strict_eq_string_true (v : JSValue) (lit : string) :
  strict_eq_string v lit = true <-> v = JSString lit.
Proof.
  destruct v; simpl; try (split; [discriminate | intros H; discriminate H]).
  rewrite String.eqb_eq. split; [intros ->; reflexivity | intros H; injection H; auto].
Qed.


(** *** Values *)

Lemma trim_blank (s : string) : Nat.ltb 0 (String.length (trim s)) = true <-> trim s <> "".
Proof.
  destruct (trim s); simpl; split; try congruence; try discriminate; reflexivity.
Qed.

Lemma isNonEmptyString_true (v : JSValue) :
  isNonEmptyString v = Normal true <-> nonBlank v.
Proof.
  rewrite ValidatorFacts.isNonEmptyString_eq. unfold nonBlank. split.
  - destruct v; try discriminate. intros H. exists s. split; [reflexivity|].
    apply trim_blank. congruence.
  - intros [s [-> Hs]]. f_equal. apply trim_blank. exact Hs.
Qed.


Lemma isValidTimestamp_true (Date_parse : string -> option Z) (v : JSValue) :
  isValidTimestamp Date_parse v = Normal true <-> nonBlank v /\ parses Date_parse v.
Proof.
  unfold isValidTimestamp. rewrite ValidatorFacts.isNonEmptyString_eq. cbn [bind].
  unfold nonBlank, parses. destruct v;
    try (cbn [negb]; split; [discriminate | intros [[s [H _]] _]; discriminate H]).
  destruct (Nat.ltb 0 (String.length (trim s))) eqn:Hs; cbn [negb].
  - apply trim_blank in Hs. destruct (Date_parse s) as [t|] eqn:Ht; cbn [negb]; split.
    + intros _. split; [exists s; auto | exists s, t; auto].
    + reflexivity.
    + discriminate.
    + intros [_ [s' [t' [H1 H2]]]]. injection H1 as <-. congruence.
  - split; [discriminate|]. intros [[s' [H1 H2]] _]. injection H1 as <-.
    apply trim_blank in H2. congruence.
Qed.

Lemma isNonNegativeNumber_true (v : JSValue) :
  isNonNegativeNumber v = true <-> amount v.
Proof.
  unfold amount. destruct v; simpl;
    try (split; [discriminate | intros [x0 [H _]]; discriminate H]).
  rewrite andb_true_iff. split.
  - intros [H1 H2]. exists x. auto.
  - intros [x0 [H [H1 H2]]]. injection H as <-. auto.
Qed.

Lemma absentOrString_test (v : JSValue) :
  negb (is_undefined v) && negb (String.eqb (typeof v) "string") = false
  <-> absentOrString v.
Proof.
  unfold absentOrString. destruct v; simpl; split; intros H;
    try reflexivity; try discriminate; eauto;
    destruct H as [H|[s0 H]]; discriminate H.
Qed.

Lemma absentOrAmount_test (v : JSValue) :
  negb (is_undefined v) && negb (isNonNegativeNumber v) = false <-> absentOrAmount v.
Proof.
  unfold absentOrAmount. rewrite <- isNonNegativeNumber_true.
  destruct v; simpl; try (split; [discriminate | intros [H|H]; discriminate H]).
  - split; auto.
  - destruct (_ && _); simpl; split; auto. intros [H|H]; discriminate H.
Qed.

(** *** Keys *)

Lemma is_dangerous_key_In (key : string) :
  is_dangerous_key key = true <-> In key DANGEROUS_KEYS.
Proof.
  unfold is_dangerous_key. rewrite existsb_exists. split.
  - intros [k [Hin Heq]]. apply String.eqb_eq in Heq. subst. exact Hin.
  - intros Hin. exists key. split; [exact Hin | apply String.eqb_refl].
Qed.

Lemma safeKeys_test (props : list (string * JSValue)) :
  existsb is_dangerous_key (map fst props) = false <-> safeKeys props.
Proof.
  unfold safeKeys. split.
  - intros H key Hin Hd. apply is_dangerous_key_In in Hd.
    assert (existsb is_dangerous_key (map fst props) = true).
    { apply existsb_exists. exists key. auto. }
    congruence.
  - intros H. destruct (existsb is_dangerous_key (map fst props)) eqn:E; [|reflexivity].
    apply existsb_exists in E. destruct E as [key [Hin Hd]].
    apply is_dangerous_key_In in Hd. destruct (H key Hin Hd).
Qed.

(** The keys of an array are its indices, and no decimal numeral is on
    the deny-list. *)
Lemma index_not_dangerous (i : nat) : is_dangerous_key (string_of_nat i) = false.
Proof.
  unfold string_of_nat. destruct (Nat.to_uint i); reflexivity.
Qed.

Lemma array_keys_safe (elems : list JSValue) :
  hasDangerousKeys (JSArray elems) = Normal false.
Proof.
  unfold hasDangerousKeys, Object_keys. cbn [bind]. f_equal.
  induction (seq 0 (List.length elems)) as [|i rest IH]; [reflexivity|].
  simpl. rewrite index_not_dangerous. exact IH.
Qed.

(** *** Loops *)

Lemma firstNonStringField_pass (props : list (string * JSValue)) (fields : list string) :
  firstNonStringField (JSObject props) fields = Normal None
  <-> forall field, In field fields -> absentOrString (valueOf props field).
Proof.
  induction fields as [|f rest IH]; cbn [firstNonStringField].
  - split; [intros _ field [] | reflexivity].
  - rewrite Get_object. cbn [bind].
    destruct (negb (is_undefined (valueOf props f))
              && negb (String.eqb (typeof (valueOf props f)) "string")) eqn:Htest.
    + split; [discriminate|]. intros H.
      assert (Hf : absentOrString (valueOf props f)) by (apply H; left; reflexivity).
      apply absentOrString_test in Hf. congruence.
    + rewrite IH. apply absentOrString_test in Htest. split.
      * intros H field [<-|Hin]; auto.
      * intros H field Hin. apply H. right. exact Hin.
Qed.

Lemma firstNonStringField_array (elems : list JSValue) (fields : list string) :
  firstNonStringField (JSArray elems) fields = Normal None.
Proof.
  induction fields as [|f rest IH]; [reflexivity | exact IH].
Qed.

Lemma requiredBaseFields_pass (props : list (string * JSValue)) (fields : list string) :
  requiredBaseFields (JSObject props) fields = Normal None
  <-> forall field, In field fields -> nonBlank (valueOf props field).
Proof.
  induction fields as [|f rest IH]; cbn [requiredBaseFields].
  - split; [intros _ field [] | reflexivity].
  - rewrite ValidatorFacts.and_then_pass_iff, ValidatorFacts.require_pass_iff, IH.
    rewrite Get_object. cbn [bind]. rewrite isNonEmptyString_true. split.
    + intros [H1 H2] field [<-|Hin]; auto.
    + intros H. split; [apply H; left; reflexivity|].
      intros field Hin. apply H. right. exact Hin.
Qed.


(** *** Nested objects *)

Lemma isValidEnrollmentAction_true (action : JSValue) :
  isValidEnrollmentAction action = Normal true <-> wellFormedAction action.
Proof.
  unfold wellFormedAction.
  destruct action as [| | b | x | s | elems | props];
    try (split; [discriminate | intros [p [H _]]; discriminate H]).
  - unfold isValidEnrollmentAction. cbn [not_an_object typeof is_null String.eqb negb orb].
    change (String.eqb "object" "object") with true. cbn [negb orb].
    rewrite array_keys_safe. cbn [bind Get].
    split; [discriminate | intros [p [H _]]; discriminate H].
  - unfold isValidEnrollmentAction.
    change (not_an_object (JSObject props)) with false. cbv iota.
    unfold hasDangerousKeys, Object_keys. cbn [bind].
    destruct (existsb is_dangerous_key (map fst props)) eqn:Hkeys.
    + split; [discriminate|]. intros [p [H [Hsafe _]]]. injection H as <-.
      apply safeKeys_test in Hsafe. congruence.
    + apply safeKeys_test in Hkeys. rewrite !Get_object. cbn [bind].
      rewrite ValidatorFacts.isNonEmptyString_eq. cbn [bind].
      destruct (match valueOf props "label" with
                | JSString s => Nat.ltb 0 (String.length (trim s))
                | _ => false
                end) eqn:Hlabel.
      * assert (Hnb : nonBlank (valueOf props "label")).
        { apply isNonEmptyString_true. rewrite ValidatorFacts.isNonEmptyString_eq.
          rewrite Hlabel. reflexivity. }
        split.
        -- intros H. injection H as H. apply orb_true_iff in H.
           rewrite !strict_eq_string_true in H. exists props. auto.
        -- intros [p [H [_ [_ Hstatus]]]]. injection H as <-. f_equal.
           apply orb_true_iff. rewrite !strict_eq_string_true. exact Hstatus.
      * split; [discriminate|]. intros [p [H [_ [Hnb _]]]]. injection H as <-.
        apply isNonEmptyString_true in Hnb.
        rewrite ValidatorFacts.isNonEmptyString_eq, Hlabel in Hnb. discriminate.
Qed.

Lemma isValidUserEntry_true (entry : JSValue) :
  isValidUserEntry entry = Normal true <-> wellFormedEntry entry.
Proof.
  unfold wellFormedEntry.
  destruct entry as [| | b | x | s | elems | props];
    try (split; [discriminate | intros [[p H]|[p [H _]]]; discriminate H]).
  - unfold isValidUserEntry.
    change (not_an_object (JSArray elems)) with false. cbv iota.
    rewrite array_keys_safe. cbn [bind]. rewrite firstNonStringField_array. cbn [bind].
    split; [intros _; left; eauto | reflexivity].
  - unfold isValidUserEntry.
    change (not_an_object (JSObject props)) with false. cbv iota.
    unfold hasDangerousKeys, Object_keys. cbn [bind].
    destruct (existsb is_dangerous_key (map fst props)) eqn:Hkeys.
    + split; [discriminate|]. intros [[p H]|[p [H [Hsafe _]]]]; [discriminate H|].
      injection H as <-. apply safeKeys_test in Hsafe. congruence.
    + apply safeKeys_test in Hkeys.
      destruct (firstNonStringField (JSObject props)
                  ["department"; "computerName"; "userID"; "assetTag"]) as [[bad|]|err] eqn:Hf;
        cbn [bind].
      * split; [discriminate|]. intros [[p H]|[p [H [_ Hfields]]]]; [discriminate H|].
        injection H as <-. apply firstNonStringField_pass in Hfields. congruence.
      * split; [|reflexivity]. intros _. right. exists props.
        split; [reflexivity|]. split; [exact Hkeys|].
        apply firstNonStringField_pass. exact Hf.
      * split; [discriminate|]. intros [[p H]|[p [H [_ Hfields]]]]; [discriminate H|].
        injection H as <-. apply firstNonStringField_pass in Hfields. congruence.
Qed.

Lemma enrollmentActionsLoop_pass_iff (actions : list JSValue) :
  forall i, enrollmentActionsLoop actions i = Normal None
            <-> Forall wellFormedAction actions.
Proof.
  induction actions as [|a rest IH]; intros i; cbn [enrollmentActionsLoop].
  - split; [constructor | reflexivity].
  - rewrite ValidatorFacts.and_then_pass_iff, ValidatorFacts.require_pass_iff, IH.
    rewrite isValidEnrollmentAction_true. split.
    + intros [H1 H2]. constructor; assumption.
    + intros H. inversion H. auto.
Qed.

Lemma optionalThroughput_pass (props : list (string * JSValue)) (field : string) :
  optionalThroughput (JSObject props) field = Normal None
  <-> absentOrAmount (valueOf props field).
Proof.
  unfold optionalThroughput. rewrite Get_object. cbn [bind].
  rewrite <- absentOrAmount_test.
  destruct (negb (is_undefined (valueOf props field))
            && negb (isNonNegativeNumber (valueOf props field)));
    unfold pass, reject; split; congruence.
Qed.

(** *** Replacing one property *)

Lemma valueOf_set_other (props : list (string * JSValue)) (key k : string) (v : JSValue) :
  k <> key -> valueOf (set_property props key v) k = valueOf props k.
Proof.
  intros Hne. unfold valueOf. rewrite ValidatorFacts.lookup_set_other; [reflexivity|].
  apply String.eqb_neq. congruence.
Qed.






Section WithDateParse.
Variable Date_parse : string -> option Z.

Lemma validateFinished_pass (props : list (string * JSValue)) :
  validateFinished Date_parse (JSObject props) = Normal None
  <-> amount (valueOf props "duration")
      /\ nonBlank (valueOf props "finished")
      /\ parses Date_parse (valueOf props "finished")
      /\ (valueOf props "enrollmentActions" = JSUndefined
          \/ exists elems, valueOf props "enrollmentActions" = JSArray elems
                           /\ Forall wellFormedAction elems)
      /\ (valueOf props "userEntry" = JSUndefined
          \/ wellFormedEntry (valueOf props "userEntry"))
      /\ absentOrAmount (valueOf props "uploadThroughput")
      /\ absentOrAmount (valueOf props "downloadThroughput").
Proof.
  unfold validateFinished.
  rewrite !ValidatorFacts.and_then_pass_iff, !optionalThroughput_pass.
  unfold REQUIRED_FINISHED_FIELDS. cbn [requiredFinishedFields].
  change (String.eqb "duration" "duration") with true.
  change (String.eqb "finished" "duration") with false. cbv iota.
  rewrite !ValidatorFacts.and_then_pass_iff, !ValidatorFacts.require_pass_iff.
  rewrite !Get_object. cbn [bind].
  rewrite isNonEmptyString_true, isValidTimestamp_true.
  assert (Hduration : Normal (isNonNegativeNumber (valueOf props "duration")) = Normal true
                      <-> amount (valueOf props "duration")).
  { rewrite <- isNonNegativeNumber_true. split; congruence. }
  rewrite Hduration.
  assert (Hactions :
    (if is_undefined (valueOf props "enrollmentActions") then pass
     else match valueOf props "enrollmentActions" with
          | JSArray elems => enrollmentActionsLoop elems 0
          | _ => reject "enrollmentActions must be an array"
          end) = Normal None
    <-> (valueOf props "enrollmentActions" = JSUndefined
         \/ exists elems, valueOf props "enrollmentActions" = JSArray elems
                          /\ Forall wellFormedAction elems)).
  { destruct (valueOf props "enrollmentActions") as [| | b | x | s | elems | ps];
      cbn [is_undefined]; unfold pass, reject;
      try (split; [discriminate | intros [H|[e [H _]]]; discriminate H]).
    - split; auto.
    - rewrite enrollmentActionsLoop_pass_iff. split.
      + intros H. right. exists elems. auto.
      + intros [H|[e [H Hall]]]; [discriminate H|]. injection H as <-. exact Hall. }
  rewrite Hactions.
  assert (Hentry :
    (if is_undefined (valueOf props "userEntry") then pass
     else require (isValidUserEntry (valueOf props "userEntry"))
                  "Invalid userEntry object") = Normal None
    <-> (valueOf props "userEntry" = JSUndefined
         \/ wellFormedEntry (valueOf props "userEntry"))).
  { destruct (is_undefined (valueOf props "userEntry")) eqn:Hu.
    - split; [|reflexivity]. intros _. left.
      destruct (valueOf props "userEntry"); try discriminate. reflexivity.
    - rewrite ValidatorFacts.require_pass_iff, isValidUserEntry_true. split; [auto|].
      intros [H|H]; [rewrite H in Hu; discriminate | exact H]. }
  rewrite Hentry. unfold pass. tauto.
Qed.

(** The name rule of one event type. *)
Lemma name_rule (props : list (string * JSValue)) (ev nm msg : string) :
  (ev0 <- Get (JSObject props) "event" ;;
   if strict_eq_string ev0 ev then
     nm0 <- Get (JSObject props) "name" ;;
     if negb (strict_eq_string nm0 nm) then reject msg else pass
   else pass) = Normal None
  <-> (valueOf props "event" = JSString ev -> valueOf props "name" = JSString nm).
Proof.
  rewrite !Get_object. cbn [bind].
  destruct (strict_eq_string (valueOf props "event") ev) eqn:Hev.
  - cbn [bind]. apply strict_eq_string_true in Hev.
    destruct (strict_eq_string (valueOf props "name") nm) eqn:Hnm; cbn [negb].
    + apply strict_eq_string_true in Hnm. unfold pass. tauto.
    + unfold reject. split; [discriminate|]. intros H. specialize (H Hev).
      apply strict_eq_string_true in H. congruence.
  - unfold pass. split; [|reflexivity]. intros _ H.
    apply strict_eq_string_true in H. congruence.
Qed.

Lemma validateChecks_pass (props : list (string * JSValue)) :
  validateChecks Date_parse (JSObject props) = Normal None
  <-> wellFormedStarted Date_parse props \/ wellFormedFinished Date_parse props.
Proof.
  unfold validateChecks.
  change (not_an_object (JSObject props)) with false. cbv iota.
  rewrite !ValidatorFacts.and_then_pass_iff.
  rewrite !name_rule.
  rewrite !ValidatorFacts.require_pass_iff.
  rewrite requiredBaseFields_pass.
  unfold hasDangerousKeys, Object_keys. rewrite !Get_object. cbn [bind].
  rewrite !isValidTimestamp_true.
  assert (Hkeys : Normal (negb (existsb is_dangerous_key (map fst props))) = Normal true
                  <-> safeKeys props).
  { rewrite <- safeKeys_test.
    destruct (existsb is_dangerous_key (map fst props)); simpl; split; congruence. }
  rewrite Hkeys.
  assert (Hevent : Normal (includes VALID_EVENTS (valueOf props "event")) = Normal true
                   <-> (valueOf props "event" = JSString EVENT_STARTED
                        \/ valueOf props "event" = JSString EVENT_FINISHED)).
  { unfold includes, VALID_EVENTS. cbn [existsb]. rewrite orb_false_r.
    rewrite <- !strict_eq_string_true, <- orb_true_iff. split; congruence. }
  rewrite Hevent.
  assert (Hfinished :
    (if strict_eq_string (valueOf props "event") EVENT_FINISHED
     then validateFinished Date_parse (JSObject props) else pass) = Normal None
    <-> (valueOf props "event" = JSString EVENT_FINISHED ->
         validateFinished Date_parse (JSObject props) = Normal None)).
  { destruct (strict_eq_string (valueOf props "event") EVENT_FINISHED) eqn:Hev.
    - apply strict_eq_string_true in Hev. tauto.
    - unfold pass. split; [|reflexivity]. intros _ H.
      apply strict_eq_string_true in H. congruence. }
  rewrite Hfinished.
  assert (Hoptional :
    (match firstNonStringField (JSObject props) ["jamfProVersion"; "jssID"; "computerName"] with
     | Normal bad =>
         match bad with
         | Some field => reject (field ++ " must be a string if provided")
         | None => pass
         end
     | Throw e => Throw e
     end) = Normal None
    <-> forall field, In field ["jamfProVersion"; "jssID"; "computerName"] ->
                      absentOrString (valueOf props field)).
  { rewrite <- firstNonStringField_pass.
    destruct (firstNonStringField (JSObject props) _) as [[bad|]|err];
      unfold pass, reject; split; congruence. }
  unfold bind at 1. rewrite Hoptional.
  rewrite validateFinished_pass.
  unfold wellFormedStarted, wellFormedFinished, wellFormedBase, pass.
  assert (Hdistinct : JSString EVENT_STARTED <> JSString EVENT_FINISHED) by discriminate.
  split.
  - intros [_ [Hsafe [Hev [Hbase [[_ Hts] [[_ Hst] [Hn1 [Hn2 [Hfin Hopt]]]]]]]]].
    destruct Hev as [Hev|Hev].
    + left. auto 10.
    + right. specialize (Hfin Hev). specialize (Hn2 Hev). tauto.
  - intros [[Hev [Hnm [Hsafe [Hbase [Hts [Hst Hopt]]]]]]
           |[Hev [Hnm [[Hsafe [Hbase [Hts [Hst Hopt]]]] Hfin]]]].
    + split; [reflexivity|]. split; [exact Hsafe|]. split; [auto|].
      split; [exact Hbase|].
      split; [split; [apply Hbase; unfold REQUIRED_BASE_FIELDS; simpl; auto | exact Hts]|].
      split; [split; [apply Hbase; unfold REQUIRED_BASE_FIELDS; simpl; auto | exact Hst]|].
      split; [intros _; exact Hnm|].
      split; [intros Hx; congruence|].
      split; [intros Hx; congruence | exact Hopt].
    + split; [reflexivity|]. split; [exact Hsafe|]. split; [auto|].
      split; [exact Hbase|].
      split; [split; [apply Hbase; unfold REQUIRED_BASE_FIELDS; simpl; auto | exact Hts]|].
      split; [split; [apply Hbase; unfold REQUIRED_BASE_FIELDS; simpl; auto | exact Hst]|].
      split; [intros Hx; congruence|].
      split; [intros _; exact Hnm|].
      split; [intros _; exact Hfin | exact Hopt].
Qed.

(** *** Payloads that are not plain objects *)

Lemma validateChecks_not_object (payload : JSValue) :
  not_an_object payload = true ->
  validateChecks Date_parse payload = Normal (Some "Payload must be a non-null object").
Proof.
  intros H. unfold validateChecks. rewrite H. reflexivity.
Qed.

Lemma validateChecks_array (elems : list JSValue) :
  validateChecks Date_parse (JSArray elems) = Normal (Some "Invalid event type").
Proof.
  unfold validateChecks. change (not_an_object (JSArray elems)) with false. cbv iota.
  rewrite array_keys_safe. reflexivity.
Qed.

Lemma validateChecks_wellFormed (payload : JSValue) :
  validateChecks Date_parse payload = Normal None <-> wellFormed Date_parse payload.
Proof.
  unfold wellFormed.
  destruct payload as [| | b | x | s | elems | props];
    try (rewrite validateChecks_not_object by reflexivity;
         split; [discriminate | intros [p [H _]]; discriminate H]).
  - rewrite validateChecks_array. split; [discriminate | intros [p [H _]]; discriminate H].
  - rewrite validateChecks_pass. split.
    + intros H. exists props. auto.
    + intros [p [H Hwf]]. injection H as <-. exact Hwf.
Qed.

Lemma result_of_checks (payload : JSValue) (msg : string) :
  validateChecks Date_parse payload = Normal (Some msg) ->
  validateWebhookPayload Date_parse payload
  = Normal {| valid := false; error := Some msg |}.
Proof. unfold validateWebhookPayload. intros ->. reflexivity. Qed.


(** X10.  Payloads that are not plain objects.  [null], [undefined],
    booleans, numbers and strings are rejected as not being an object; an
    array passes that test and the forbidden-key test (its keys are its
    indices) and is rejected for its event type.  Neither case throws. *)
Theorem non_object_payloads_rejected :
  (forall payload,
      not_an_object payload = true ->
      validateWebhookPayload Date_parse payload
      = Normal {| valid := false; error := Some "Payload must be a non-null object" |})
  /\ (forall elems,
         validateWebhookPayload Date_parse (JSArray elems)
         = Normal {| valid := false; error := Some "Invalid event type" |}).
Proof.
  split.
  - intros payload H. apply result_of_checks, validateChecks_not_object. exact H.
  - intros elems. apply result_of_checks, validateChecks_array.
Qed.


(** X12.  A started event is checked for thirteen properties and no
    others: setting any other property (one that is not a forbidden name)
    to any value whatever leaves the verdict and the error message
    unchanged.  In particular [duration], [finished], [enrollmentActions],
    [userEntry] and the throughputs of a started event are not looked at. *)
Theorem started_event_checks_thirteen_fields (props : list (string * JSValue))
  (key : string) (v : JSValue) :
  valueOf props "event" = JSString EVENT_STARTED ->
  ~ In key STARTED_FIELDS ->
  ~ In key DANGEROUS_KEYS ->
  validateWebhookPayload Date_parse (JSObject (set_property props key v))
  = validateWebhookPayload Date_parse (JSObject props).
Proof.
  intros Hev Hkey Hsafe.
  assert (Hget : forall k, In k STARTED_FIELDS ->
                           Get (JSObject (set_property props key v)) k
                           = Get (JSObject props) k).
  { intros k Hk. rewrite !Get_object. f_equal. apply valueOf_set_other.
    intros ->. exact (Hkey Hk). }
  assert (Hdanger : is_dangerous_key key = false).
  { destruct (is_dangerous_key key) eqn:E; [|reflexivity].
    apply is_dangerous_key_In in E. destruct (Hsafe E). }
  unfold validateWebhookPayload. f_equal. unfold validateChecks.
  change (not_an_object (JSObject (set_property props key v))) with false.
  change (not_an_object (JSObject props)) with false. cbv iota.
  unfold hasDangerousKeys, Object_keys. cbn [bind].
  rewrite (ValidatorFacts.keys_set_property props key v Hdanger).
  rewrite (ValidatorFacts.requiredBaseFields_ext (JSObject (set_property props key v))
             (JSObject props) REQUIRED_BASE_FIELDS).
  2:{ intros k Hk. apply Hget. unfold STARTED_FIELDS. apply in_or_app. left. exact Hk. }
  rewrite (ValidatorFacts.firstNonStringField_ext (JSObject (set_property props key v))
             (JSObject props) ["jamfProVersion"; "jssID"; "computerName"]).
  2:{ intros k Hk. apply Hget. unfold STARTED_FIELDS. apply in_or_app. right. exact Hk. }
  rewrite !(Hget "event") by (unfold STARTED_FIELDS; simpl; auto).
  rewrite !(Hget "name") by (unfold STARTED_FIELDS; simpl; auto).
  rewrite !(Hget "timestamp") by (unfold STARTED_FIELDS; simpl; auto).
  rewrite !(Hget "started") by (unfold STARTED_FIELDS; simpl; auto 6).
  rewrite !Get_object, Hev. cbn [bind].
  change (strict_eq_string (JSString EVENT_STARTED) EVENT_FINISHED) with false.
  reflexivity.
Qed.

(** *** Enrollment actions *)





End WithDateParse.


Lemma started_event_checks_thirteen_fields_witness :
  validateWebhookPayload Samples.sampleDateParse
    (JSObject (set_property (Samples.sampleBase EVENT_STARTED "Started")
                            "userEntry" Samples.pollutedEntry))
  = validateWebhookPayload Samples.sampleDateParse
      (JSObject (Samples.sampleBase EVENT_STARTED "Started")).
Proof.
  apply (started_event_checks_thirteen_fields Samples.sampleDateParse
           (Samples.sampleBase EVENT_STARTED "Started") "userEntry" Samples.pollutedEntry).
  - reflexivity.
  - intros H. simpl in H. repeat (destruct H as [H|H]; [discriminate H|]). destruct H.
  - intros H. simpl in H. repeat (destruct H as [H|H]; [discriminate H|]). destruct H.
Defined.

End WellFormedFacts.

(** ** Ingestion: status codes, authentication, what a request leaves behind *)

Module IngestionFacts.
Import JS Types DashboardRoom Worker Notions Samples Protocol WellFormed Ingestion.
Local Open Scope string_scope.

Lemma KV_get_put_other (kv : KV.KVNamespace) (key key' value : string) :
  key' <> key -> KV.get (KV.put kv key value) key' = KV.get kv key'.
Proof.
  intros Hne. assert (Hk : String.eqb key key' = false).
  { apply String.eqb_neq. congruence. }
  induction kv as [|[k v] rest IH]; simpl.
  - rewrite Hk. reflexivity.
  - destruct (String.eqb_spec k key) as [Heq|Hkk]; simpl.
    + rewrite Hk. subst k. rewrite Hk. reflexivity.
    + destruct (String.ltb key k); simpl.
      * rewrite Hk. reflexivity.
      * destruct (String.eqb k key'); [reflexivity | exact IH].
Qed.

Lemma KV_put_keys (kv : KV.KVNamespace) (key value : string) :
  In key (map fst (KV.put kv key value))
  /\ (List.length (KV.put kv key value) <= S (List.length kv))%nat.
Proof.
  induction kv as [|[k v] rest [IH1 IH2]]; simpl.
  - split; [left; reflexivity | lia].
  - destruct (String.eqb k key); simpl; [split; [left; reflexivity | lia]|].
    destruct (String.ltb key k); simpl; [split; [left; reflexivity | lia]|].
    split; [right; exact IH1 | lia].
Qed.

Lemma prefix_split (p s : string) :
  String.prefix p s = true ->
  s = p ++ String.substring (String.length p) (String.length s - String.length p) s.
Proof.
  revert s. induction p as [|c p IH]; intros s H; simpl.
  - rewrite Nat.sub_0_r.
    clear H. induction s as [|d s IHs]; simpl; [reflexivity|].
    f_equal. exact IHs.
  - destruct s as [|d s]; simpl in H; [discriminate|].
    destruct (Ascii.ascii_dec c d) as [Heq|Hne]; [|discriminate].
    subst d. simpl. f_equal. apply IH. exact H.
Qed.

Lemma startsWith_Bearer (authHeader : string) :
  startsWith authHeader "Bearer " = true ->
  authHeader = "Bearer " ++ slice 7 authHeader.
Proof.
  unfold startsWith, slice. intros H. exact (prefix_split "Bearer " authHeader H).
Qed.

(** *** [timingSafeEqual] *)

Lemma diffLoop_zero (bufA : list Z) :
  forall bufB diff,
    List.length bufA = List.length bufB ->
    (diffLoop bufA bufB diff = 0%Z <-> diff = 0%Z /\ bufA = bufB).
Proof.
  induction bufA as [|a restA IH]; intros [|b restB] diff Hlen; simpl in Hlen;
    try discriminate; simpl.
  - tauto.
  - rewrite IH by (injection Hlen; auto).
    rewrite Z.lor_eq_0_iff, Z.lxor_eq_0_iff. split.
    + intros [[Hd Hab] Hrest]. subst. auto.
    + intros [Hd Heq]. injection Heq as Hab Hrest. auto.
Qed.

(** X14.  [timingSafeEqual] is an equality test on digests: provided the
    keyed hash yields digests of one length (HMAC-SHA-256 yields 32
    bytes), two strings compare equal exactly when their digests are the
    same byte sequence; in particular a string always equals itself. *)
Theorem timingSafeEqual_compares_digests (HMAC : string -> list Z) (a b : string) :
  List.length (HMAC a) = List.length (HMAC b) ->
  (timingSafeEqual HMAC a b = true <-> HMAC a = HMAC b)
  /\ timingSafeEqual HMAC a a = true.
Proof.
  intros Hlen. unfold timingSafeEqual. split.
  - rewrite Z.eqb_eq, (diffLoop_zero _ _ _ Hlen). tauto.
  - rewrite Z.eqb_eq. apply diffLoop_zero; auto.
Qed.

Lemma timingSafeEqual_compares_digests_witness :
  (timingSafeEqual sampleDigest "s3cret" "s3cret" = true)
  /\ (timingSafeEqual sampleDigest "s3cret" "s3cres" = true
      <-> sampleDigest "s3cret" = sampleDigest "s3cres").
Proof.
  split.
  - apply (timingSafeEqual_compares_digests sampleDigest "s3cret" "s3cret" eq_refl).
  - apply (timingSafeEqual_compares_digests sampleDigest "s3cret" "s3cres" eq_refl).
Defined.

Section WithLibraries.
Variable parseStoredEvent : string -> option StoredEvent.
Variable JSON_parse : string -> option JSValue.
Variable JSON_stringify : JSValue -> string.
Variable Date_parse : string -> option Z.
Variable HMAC : string -> list Z.

Let handle :=
  handleWebhook parseStoredEvent JSON_parse JSON_stringify Date_parse HMAC.

(** The stored event and the two texts made from it. *)
Let eventIdOf (payload : JSValue) (now : Z) : string :=
  (match Get payload "event" with Normal v => template v | Throw _ => "" end)
  ++ ":" ++ (match Get payload "serialNumber" with Normal v => template v | Throw _ => "" end)
  ++ ":" ++ string_of_Z now.

Let storedEventOf (payload : JSValue) (now : Z) : JSValue :=
  JSObject [("payload", payload);
            ("timestamp", JSNumber (float_of_Z now));
            ("eventId", JSString (eventIdOf payload now))].

Let messageOf (payload : JSValue) (now : Z) : string :=
  JSON_stringify (JSObject [("type", JSString "setup-manager-event");
                            ("data", storedEventOf payload now)]).

(** Every way [handleWebhook] can end. *)
Lemma handleWebhook_cases (request : Request) (env : Env) (now : Z) :
  let out := handle request env now in
  out = {| response := json (JsonError "Payload too large") 413;
           env_after := env; effects := [] |}
  \/ out = {| response := json (JsonError "Content-Type must be application/json") 415;
              env_after := env; effects := [] |}
  \/ out = {| response := json (JsonError "Unauthorized") 401;
              env_after := env; effects := [] |}
  \/ (JSON_parse (body request) = None
      /\ out = {| response := json (JsonError "Invalid JSON payload") 400;
                  env_after := env; effects := [JsonParsed] |})
  \/ (exists payload msg,
         JSON_parse (body request) = Some payload
         /\ validateChecks Date_parse payload = Normal (Some msg)
         /\ out = {| response := json (JsonError "Invalid webhook payload") 400;
                     env_after := env;
                     effects := [JsonParsed;
                                 LoggedError ("Webhook validation failed: " ++ msg)] |})
  \/ (exists payload,
         JSON_parse (body request) = Some payload
         /\ validateChecks Date_parse payload = Normal None
         /\ out = {| response := json (JsonSuccess (eventIdOf payload now)) 200;
                     env_after :=
                       {| WEBHOOKS := KV.put (WEBHOOKS env) (eventIdOf payload now)
                                        (JSON_stringify (storedEventOf payload now));
                          DASHBOARD_ROOM :=
                            map (attempt (messageOf payload now)) (DASHBOARD_ROOM env);
                          WEBHOOK_SECRET := WEBHOOK_SECRET env |};
                     effects :=
                       [JsonParsed;
                        KVPut (eventIdOf payload now)
                              (JSON_stringify (storedEventOf payload now));
                        RoomBroadcast (messageOf payload now)] |}).
Proof.
  cbv zeta. unfold handle, handleWebhook.
  match goal with |- context [if ?c then _ else _] => destruct c end;
    [left; reflexivity|].
  match goal with |- context [if ?c then _ else _] => destruct c end;
    [right; left; reflexivity|].
  match goal with |- context [if ?c then _ else _] => destruct c end;
    [right; right; left; reflexivity|].
  destruct (JSON_parse (body request)) as [payload|];
    [|right; right; right; left; split; reflexivity].
  unfold validateWebhookPayload.
  destruct (ValidatorFacts.validateChecks_returns Date_parse payload) as [r Hr].
  rewrite Hr. cbn [bind].
  destruct r as [msg|]; cbn [valid error negb].
  - right; right; right; right; left. exists payload, msg. repeat split; assumption.
  - right; right; right; right; right. exists payload. split; [reflexivity|].
    split; [exact Hr|].
    rewrite DashboardRoomFacts.fetch_broadcast, DashboardRoomFacts.broadcast_spec.
    reflexivity.
Qed.


(** X16.  Only an accepted webhook changes anything: when the answer is
    not 200, the store, the room and its sockets are exactly as before,
    nothing was written to the store and nothing was broadcast. *)
Theorem refused_webhook_changes_nothing (request : Request) (env : Env) (now : Z) :
  resp_status (response (handle request env now)) <> 200%nat ->
  quiet (handle request env now) env.
Proof.
  intros Hstatus. unfold quiet.
  destruct (handleWebhook_cases request env now)
    as [H|[H|[H|[[_ H]|[[p [m [_ [_ H]]]]|[p [_ [_ H]]]]]]]];
    rewrite H in *; cbn [env_after effects response resp_status json] in *.
  - split; [reflexivity | intros eff []].
  - split; [reflexivity | intros eff []].
  - split; [reflexivity | intros eff []].
  - split; [reflexivity | intros eff [<-|[]]; left; reflexivity].
  - split; [reflexivity|].
    intros eff [<-|[<-|[]]]; [left; reflexivity | right; eexists; reflexivity].
  - congruence.
Qed.

(** X17.  When a non-empty secret is configured, a request that does not
    present it is refused before its body is read: unless the
    [Authorization] header is [Bearer] followed by a non-empty token whose
    digest equals the secret's, the answer is 401 (or 413 or 415 from the
    earlier checks), with no effect at all. *)
Theorem webhook_secret_enforced (request : Request) (env : Env) (now : Z)
  (secret : string) :
  WEBHOOK_SECRET env = Some secret ->
  secret <> "" ->
  (forall token, presents request token ->
                 token = "" \/ timingSafeEqual HMAC token secret = false) ->
  In (resp_status (response (handle request env now))) [401; 413; 415]%nat
  /\ env_after (handle request env now) = env
  /\ effects (handle request env now) = [].
Proof.
  intros Hsecret Hne Htoken. unfold handle, handleWebhook.
  match goal with |- context [if ?c then _ else _] => destruct c end;
    [cbn; auto|].
  match goal with |- context [if ?c then _ else _] => destruct c end;
    [cbn; auto|].
  rewrite Hsecret. destruct secret as [|c secret]; [congruence|].
  assert (Hun :
    match
      match headers_get (headers request) "Authorization" with
      | Some authHeader =>
          if startsWith authHeader "Bearer " then Some (slice 7 authHeader) else None
      | None => None
      end
    with
    | None => true
    | Some EmptyString => true
    | Some t => negb (timingSafeEqual HMAC t (String c secret))
    end = true).
  { destruct (headers_get (headers request) "Authorization") as [authHeader|] eqn:Hauth;
      [|reflexivity].
    destruct (startsWith authHeader "Bearer ") eqn:Hstart; [|reflexivity].
    destruct (Htoken (slice 7 authHeader)) as [Hempty|Hdiff].
    - unfold presents. rewrite Hauth. f_equal. apply startsWith_Bearer. exact Hstart.
    - rewrite Hempty. reflexivity.
    - destruct (slice 7 authHeader); [reflexivity|]. rewrite Hdiff. reflexivity. }
  rewrite Hun. cbn. auto.
Qed.

(** X18.  An empty secret is no secret: with [WEBHOOK_SECRET] set to the
    empty string the endpoint answers and acts exactly as with no secret
    configured, whatever the [Authorization] header says. *)
Theorem empty_secret_leaves_endpoint_open (request : Request) (env : Env) (now : Z) :
  WEBHOOK_SECRET env = Some "" ->
  let open := {| WEBHOOKS := WEBHOOKS env; DASHBOARD_ROOM := DASHBOARD_ROOM env;
                 WEBHOOK_SECRET := None |} in
  response (handle request env now) = response (handle request open now)
  /\ effects (handle request env now) = effects (handle request open now)
  /\ WEBHOOKS (env_after (handle request env now))
     = WEBHOOKS (env_after (handle request open now))
  /\ DASHBOARD_ROOM (env_after (handle request env now))
     = DASHBOARD_ROOM (env_after (handle request open now)).
Proof.
  intros Hsecret. cbv zeta. unfold handle, handleWebhook.
  rewrite Hsecret. cbn [WEBHOOK_SECRET WEBHOOKS DASHBOARD_ROOM].
  match goal with |- context [if ?c then _ else _] => destruct c end;
    [repeat split|].
  match goal with |- context [if ?c then _ else _] => destruct c end;
    [repeat split|].
  cbv iota.
  destruct (JSON_parse (body request)) as [payload|]; [|repeat split].
  destruct (validateWebhookPayload Date_parse payload) as [validation|]; [|repeat split].
  destruct (negb (valid validation)); [repeat split|].
  rewrite !DashboardRoomFacts.fetch_broadcast. repeat split.
Qed.

(** X19.  What an accepted webhook leaves behind.  The answer 200 means:
    the body parsed to a payload the validator accepts; the event
    identifier is event type, serial number and receipt time joined by
    colons; the store holds the serialized event under that identifier
    and every other key as before; every socket of the room was offered
    the same message once; and the effects were, in this order, parsing,
    one store write, one broadcast. *)
Theorem accepted_webhook_stored_then_broadcast (request : Request) (env : Env) (now : Z) :
  resp_status (response (handle request env now)) = 200%nat ->
  exists payload ev serial eventId value message,
    JSON_parse (body request) = Some payload
    /\ accepts Date_parse payload
    /\ textField payload "event" ev /\ textField payload "serialNumber" serial
    /\ eventId = ev ++ ":" ++ serial ++ ":" ++ string_of_Z now
    /\ response (handle request env now) = json (JsonSuccess eventId) 200
    /\ effects (handle request env now)
       = [JsonParsed; KVPut eventId value; RoomBroadcast message]
    /\ KV.get (WEBHOOKS (env_after (handle request env now))) eventId = Some value
    /\ (forall key, key <> eventId ->
          KV.get (WEBHOOKS (env_after (handle request env now))) key
          = KV.get (WEBHOOKS env) key)
    /\ DASHBOARD_ROOM (env_after (handle request env now))
       = map (attempt message) (DASHBOARD_ROOM env)
    /\ WEBHOOK_SECRET (env_after (handle request env now)) = WEBHOOK_SECRET env.
Proof.
  intros Hstatus.
  destruct (handleWebhook_cases request env now)
    as [H|[H|[H|[[_ H]|[[p [m [_ [_ H]]]]|[payload [Hparse [Hvalid H]]]]]]]];
    rewrite H in Hstatus; cbn in Hstatus; try discriminate.
  rewrite H. cbn [response effects env_after WEBHOOKS DASHBOARD_ROOM WEBHOOK_SECRET].
  assert (Hev : exists ev, Get payload "event" = Normal (JSString ev)).
  { destruct (ValidatorFacts.accepted_event Date_parse payload Hvalid) as [E|E];
      rewrite E; eauto. }
  assert (Hserial : exists serial, Get payload "serialNumber" = Normal (JSString serial)).
  { apply WellFormedFacts.validateChecks_wellFormed in Hvalid.
    destruct Hvalid as [props [-> Hwf]].
    assert (Hbase : wellFormedBase Date_parse props).
    { destruct Hwf as [[_ [_ Hb]]|[_ [_ [Hb _]]]]; exact Hb. }
    destruct Hbase as [_ [Hfields _]].
    destruct (Hfields "serialNumber") as [serial [Hs _]].
    - unfold REQUIRED_BASE_FIELDS. simpl. auto 10.
    - exists serial. rewrite WellFormedFacts.Get_object, Hs. reflexivity. }
  destruct Hev as [ev Hev]. destruct Hserial as [serial Hserial].
  exists payload, ev, serial, (eventIdOf payload now),
    (JSON_stringify (storedEventOf payload now)), (messageOf payload now).
  split; [exact Hparse|].
  split; [apply ValidatorFacts.accepts_iff; exact Hvalid|].
  split; [exact Hev|]. split; [exact Hserial|].
  split; [unfold eventIdOf; rewrite Hev, Hserial; reflexivity|].
  split; [reflexivity|]. split; [reflexivity|].
  split; [apply WebhookFacts.KV_get_put|].
  split; [intros key Hkey; apply KV_get_put_other; exact Hkey|].
  split; reflexivity.
Qed.

(** X20.  Ingestion and listing compose.  The event an accepted webhook
    writes is in the next listing of [GET /api/events], provided the
    stored text is not empty and deserializes, and the store held fewer
    keys than the listing's limit (the listing reads the first [limit]
    keys in key order, not the newest ones). *)
Theorem accepted_event_is_listed (request listing : Request) (env : Env) (now : Z)
  (eventId value : string) (e : StoredEvent) :
  In (KVPut eventId value) (effects (handle request env now)) ->
  value <> "" ->
  parseStoredEvent value = Some e ->
  (List.length (WEBHOOKS env)
   < Z.to_nat (eventsLimit (searchParams_get (searchParams listing) "limit")))%nat ->
  exists events,
    handleEvents parseStoredEvent listing (env_after (handle request env now))
    = json (JsonEvents events) 200
    /\ In e events.
Proof.
  intros Hput Hvalue Hparse Hroom.
  destruct (handleWebhook_cases request env now)
    as [H|[H|[H|[[_ H]|[[p [m [_ [_ H]]]]|[payload [_ [_ H]]]]]]]];
    rewrite H in Hput |- *; cbn [effects env_after] in Hput |- *.
  1-3: destruct Hput.
  1: destruct Hput as [Hput|[]]; discriminate Hput.
  1: destruct Hput as [Hput|[Hput|[]]]; discriminate Hput.
  destruct Hput as [Hput|[Hput|[Hput|[]]]]; try discriminate Hput.
  injection Hput as Hid Hval.
  unfold handleEvents. cbn [WEBHOOKS]. eexists. split; [reflexivity|].
  apply (Permutation_in _ (Permutation_sym (HistoryFacts.Array_sort_perm byTimestampDesc _))).
  apply HistoryFacts.In_filter_non_null.
  rewrite HistoryFacts.handleEvents_fetch.
  apply HistoryFacts.readEvents_readable.
  rewrite Hid, Hval.
  destruct (KV_put_keys (WEBHOOKS env) eventId value) as [Hin Hlen].
  exists eventId, value. split.
  - rewrite firstn_all2; [exact Hin|]. rewrite length_map. lia.
  - split; [apply WebhookFacts.KV_get_put|]. split; assumption.
Qed.

End WithLibraries.

(** *** The theorems at work on the sample deployment *)

Lemma refused_webhook_changes_nothing_witness :
  quiet (handleWebhook sampleParse sampleJSONParse sampleStringify sampleDateParse
           sampleDigest chunkedRequest securedEnv 1704067200123)
        securedEnv.
Proof.
  apply (refused_webhook_changes_nothing sampleParse sampleJSONParse sampleStringify
           sampleDateParse sampleDigest chunkedRequest securedEnv 1704067200123).
  vm_compute. discriminate.
Defined.

Lemma webhook_secret_enforced_witness :
  In (resp_status
        (response (handleWebhook sampleParse sampleJSONParse sampleStringify
                     sampleDateParse sampleDigest chunkedRequest securedEnv
                     1704067200123)))
     [401; 413; 415]%nat
  /\ env_after (handleWebhook sampleParse sampleJSONParse sampleStringify
                  sampleDateParse sampleDigest chunkedRequest securedEnv 1704067200123)
     = securedEnv
  /\ effects (handleWebhook sampleParse sampleJSONParse sampleStringify
                sampleDateParse sampleDigest chunkedRequest securedEnv 1704067200123)
     = [].
Proof.
  apply (webhook_secret_enforced sampleParse sampleJSONParse sampleStringify
           sampleDateParse sampleDigest chunkedRequest securedEnv 1704067200123 "s3cret").
  - reflexivity.
  - discriminate.
  - intros token H. unfold presents in H. vm_compute in H. discriminate H.
Defined.

Lemma empty_secret_leaves_endpoint_open_witness :
  response (handleWebhook sampleParse sampleJSONParse sampleStringify sampleDateParse
              sampleDigest chunkedRequest
              {| WEBHOOKS := []; DASHBOARD_ROOM := []; WEBHOOK_SECRET := Some "" |}
              1704067200123)
  = response (handleWebhook sampleParse sampleJSONParse sampleStringify sampleDateParse
                sampleDigest chunkedRequest
                {| WEBHOOKS := []; DASHBOARD_ROOM := []; WEBHOOK_SECRET := None |}
                1704067200123).
Proof.
  apply (empty_secret_leaves_endpoint_open sampleParse sampleJSONParse sampleStringify
           sampleDateParse sampleDigest chunkedRequest
           {| WEBHOOKS := []; DASHBOARD_ROOM := []; WEBHOOK_SECRET := Some "" |}
           1704067200123 eq_refl).
Defined.

Lemma accepted_webhook_stored_then_broadcast_witness :
  exists eventId value message,
    KV.get (WEBHOOKS (env_after
                        (handleWebhook sampleParse sampleJSONParse sampleStringify
                           sampleDateParse sampleDigest authorizedRequest securedEnv
                           1704067200123)))
           eventId = Some value
    /\ DASHBOARD_ROOM (env_after
                         (handleWebhook sampleParse sampleJSONParse sampleStringify
                            sampleDateParse sampleDigest authorizedRequest securedEnv
                            1704067200123))
       = map (attempt message) [liveSocket; deadSocket].
Proof.
  assert (H200 :
    resp_status
      (response (handleWebhook sampleParse sampleJSONParse sampleStringify
                   sampleDateParse sampleDigest authorizedRequest securedEnv
                   1704067200123)) = 200%nat).
  { vm_compute. reflexivity. }
  destruct (accepted_webhook_stored_then_broadcast sampleParse sampleJSONParse
              sampleStringify sampleDateParse sampleDigest authorizedRequest
              securedEnv 1704067200123 H200)
    as [payload [ev [serial [eventId [value [message H]]]]]].
  exists eventId, value, message. split; apply H.
Defined.

Lemma accepted_event_is_listed_witness :
  exists events,
    handleEvents storedParse (listingRequest "5")
      (env_after (handleWebhook storedParse sampleJSONParse sampleStringify
                    sampleDateParse sampleDigest chunkedRequest (envOf [])
                    1704067200123))
    = json (JsonEvents events) 200
    /\ In startedEvent events.
Proof.
  apply (accepted_event_is_listed storedParse sampleJSONParse sampleStringify
           sampleDateParse sampleDigest chunkedRequest (listingRequest "5") (envOf [])
           1704067200123 "com.jamf.setupmanager.started:TEST001:1704067200123"
           "<stored event>" startedEvent).
  - vm_compute. right. left. reflexivity.
  - discriminate.
  - reflexivity.
  - vm_compute. lia.
Defined.

End IngestionFacts.

(** ** Listing and statistics: bounds and counters *)

Module SummaryFacts.
Import JS Types DashboardRoom Worker Viewer Notions.
Local Open Scope string_scope.

Lemma started_not_finished (e : StoredEvent) :
  isStarted e = true -> isFinished e = false.
Proof.
  unfold isStarted, isFinished. intros H. apply String.eqb_eq in H. rewrite H. reflexivity.
Qed.

Lemma disjoint_filters_length {A : Type} (p q : A -> bool) (l : list A) :
  (forall x, p x = true -> q x = false) ->
  (List.length (filter p l) + List.length (filter q l) <= List.length l)%nat.
Proof.
  intros Hpq. induction l as [|x l IH]; simpl; [lia|].
  destruct (p x) eqn:Hp.
  - rewrite (Hpq x Hp). simpl. lia.
  - destruct (q x); simpl; lia.
Qed.

Lemma nodup_length_le (l : list string) :
  (List.length (nodup string_dec l) <= List.length l)%nat.
Proof.
  induction l as [|x l IH]; simpl; [lia|].
  destruct (in_dec string_dec x l); simpl; lia.
Qed.

Lemma fold_max_ge (l : list Z) :
  forall a, (a <= fold_left Z.max l a)%Z
            /\ (forall x, In x l -> (x <= fold_left Z.max l a)%Z)
            /\ In (fold_left Z.max l a) (a :: l).
Proof.
  induction l as [|y l IH]; intros a; simpl.
  - split; [lia|]. split; [intros x []|]. left. reflexivity.
  - destruct (IH (Z.max a y)) as [H1 [H2 H3]]. split; [lia|]. split.
    + intros x [<-|Hin]; [lia | apply H2; exact Hin].
    + destruct H3 as [H3|H3]; [|right; right; exact H3].
      destruct (Z.max_spec a y) as [[_ Hm]|[_ Hm]]; rewrite Hm in *; simpl; auto.
Qed.

(** The counters of [computeStats], whichever branch built the record. *)
Lemma computeStats_counters (window : list StoredEvent) :
  total (computeStats window) = List.length window
  /\ started (computeStats window) = List.length (filter isStarted window)
  /\ finished (computeStats window) = List.length (filter isFinished window)
  /\ devices (computeStats window)
     = List.length (nodup string_dec (map (fun e => serialNumber (payload e)) window))
  /\ lastEventTime (computeStats window)
     = if Nat.ltb 0 (List.length window)
       then Math_max_list (map timestamp window) else None.
Proof.
  unfold computeStats.
  destruct (Nat.ltb 0 (List.length (filter isFinished window))); repeat split.
Qed.

(** X21.  The counters of [GET /api/stats] are consistent: at most 1000
    events are counted, started and finished events together are no more
    than the total, there are no more devices than events, and there is a
    device as soon as there is an event. *)
Theorem stats_counters_consistent (parseStoredEvent : string -> option StoredEvent)
  (env : Env) :
  exists stats,
    handleStats parseStoredEvent env = json (JsonStats stats) 200
    /\ (total stats <= 1000)%nat
    /\ (started stats + finished stats <= total stats)%nat
    /\ (devices stats <= total stats)%nat
    /\ (devices stats = 0%nat <-> total stats = 0%nat).
Proof.
  unfold handleStats.
  set (window := filter_non_null (fetchEvents parseStoredEvent (WEBHOOKS env) 1000)).
  exists (computeStats window). split; [reflexivity|].
  destruct (computeStats_counters window) as [Ht [Hs [Hf [Hd _]]]].
  rewrite Ht, Hs, Hf, Hd. split; [apply StatsFacts.window_bound|].
  split; [apply disjoint_filters_length; exact started_not_finished|].
  split.
  - eapply Nat.le_trans; [apply nodup_length_le|]. rewrite length_map. lia.
  - destruct window as [|e rest]; [simpl; tauto|].
    split; [|discriminate]. intros H. exfalso.
    assert (Hin : In (serialNumber (payload e))
                     (nodup string_dec (map (fun e => serialNumber (payload e)) (e :: rest)))).
    { apply nodup_In. left. reflexivity. }
    destruct (nodup string_dec _); [destruct Hin | discriminate].
Qed.

(** X22.  [lastEventTime] is the receipt time of the newest event counted:
    it is [null] exactly when no event is counted, and otherwise it is the
    timestamp of one of the events and no event has a later one. *)
Theorem lastEventTime_is_latest (window : list StoredEvent) :
  (lastEventTime (computeStats window) = None <-> window = [])
  /\ (forall t, lastEventTime (computeStats window) = Some t ->
                (exists e, In e window /\ timestamp e = t)
                /\ forall e, In e window -> (timestamp e <= t)%Z).
Proof.
  destruct (computeStats_counters window) as [_ [_ [_ [_ Hlast]]]]. rewrite Hlast.
  destruct window as [|e0 rest]; cbn [List.length Nat.ltb Nat.leb map Math_max_list].
  - split; [tauto | discriminate].
  - split; [split; discriminate|].
    intros t Ht. injection Ht as <-.
    destruct (fold_max_ge (map timestamp rest) (timestamp e0)) as [H1 [H2 H3]]. split.
    + destruct H3 as [H3|H3].
      * exists e0. split; [left; reflexivity | exact H3].
      * apply in_map_iff in H3. destruct H3 as [e [He Hin]].
        exists e. split; [right; exact Hin | exact He].
    + intros e [<-|Hin]; [exact H1|]. apply H2. apply in_map. exact Hin.
Qed.

(** X23.  [GET /api/events] never lists more than 1000 events, whatever
    the [limit] parameter says, and no more than 100 when there is none;
    the events are newest first and each one is read from the store. *)
Theorem events_listing_capped (parseStoredEvent : string -> option StoredEvent)
  (request : Request) (env : Env) :
  exists events,
    handleEvents parseStoredEvent request env = json (JsonEvents events) 200
    /\ (List.length events <= 1000)%nat
    /\ (searchParams_get (searchParams request) "limit" = None ->
        (List.length events <= 100)%nat)
    /\ StronglySorted newestFirst events
    /\ (forall e, In e events -> readable parseStoredEvent (WEBHOOKS env) 1000 e).
Proof.
  unfold handleEvents.
  set (limit := eventsLimit (searchParams_get (searchParams request) "limit")).
  assert (Hrange : (1 <= limit <= 1000)%Z) by apply LimitFacts.eventsLimit_range.
  eexists. split; [reflexivity|].
  assert (Hlen : (List.length
                    (Array_sort byTimestampDesc
                       (filter_non_null
                          (fetchEvents parseStoredEvent (WEBHOOKS env) (Z.to_nat limit))))
                  <= Z.to_nat limit)%nat).
  { rewrite (Permutation_length (HistoryFacts.Array_sort_perm byTimestampDesc _)).
    apply StatsFacts.window_bound. }
  split; [lia|]. split.
  - intros Hnone. unfold limit in Hlen. rewrite Hnone, LimitFacts.eventsLimit_default in Hlen.
    unfold limit. rewrite Hnone, LimitFacts.eventsLimit_default. exact Hlen.
  - split; [apply HistoryFacts.Array_sort_newestFirst|].
    intros e He.
    apply (Permutation_in _ (HistoryFacts.Array_sort_perm byTimestampDesc _)) in He.
    apply HistoryFacts.In_filter_non_null in He.
    rewrite HistoryFacts.handleEvents_fetch in He.
    apply HistoryFacts.readEvents_readable in He.
    destruct He as [key [data [Hkey Hrest]]].
    exists key, data. split; [|exact Hrest].
    rewrite <- (firstn_skipn (Z.to_nat limit) (firstn 1000 (map fst (WEBHOOKS env)))).
    apply in_or_app. left. rewrite firstn_firstn.
    replace (Nat.min (Z.to_nat limit) 1000) with (Z.to_nat limit) by lia. exact Hkey.
Qed.

(** *** The viewer's own statistics *)

Lemma fold_count {A : Type} (f : A -> nat) (l : list A) :
  forall n, fold_left (fun count e => count + f e) l n
            = (n + list_sum (map f l))%nat.
Proof.
  induction l as [|x l IH]; intros n; simpl; [lia|]. rewrite IH. lia.
Qed.

Lemma length_flat_map {A B : Type} (f : A -> list B) (l : list A) :
  List.length (flat_map f l) = list_sum (map (fun x => List.length (f x)) l).
Proof.
  induction l as [|x l IH]; simpl; [reflexivity|]. rewrite length_app, IH. reflexivity.
Qed.

Lemma filter_flat_map {A B : Type} (p : B -> bool) (f : A -> list B) (l : list A) :
  filter p (flat_map f l) = flat_map (fun x => filter p (f x)) l.
Proof.
  induction l as [|x l IH]; simpl; [reflexivity|]. rewrite filter_app, IH. reflexivity.
Qed.

Lemma totalActionsOf_length (finishedEvents : list StoredEvent) :
  totalActionsOf finishedEvents = List.length (flat_map actionsOrEmpty finishedEvents).
Proof.
  unfold totalActionsOf. rewrite fold_count, length_flat_map. reflexivity.
Qed.

Lemma failedActionsOf_length (finishedEvents : list StoredEvent) :
  failedActionsOf finishedEvents
  = List.length (filter isFailed (flat_map actionsOrEmpty finishedEvents)).
Proof.
  unfold failedActionsOf. rewrite fold_count, filter_flat_map, length_flat_map. reflexivity.
Qed.

(** X24.  The viewer's success rate counts enrollment actions, not
    enrollments.  With [actions] all the enrollment actions of the
    finished events on screen and [failed] those with status [failed]:
    the counter of failed actions is the number of [failed]; without any
    action the rate is 100; and with at most 1000 actions the rate is a
    whole number of percent nearest to the share of actions that did not
    fail. *)
Theorem viewer_success_rate_counts_actions (events : list StoredEvent) :
  let actions := flat_map actionsOrEmpty (filter isFinished events) in
  let failed := filter isFailed actions in
  cs_failedActions (clientStats events) = List.length failed
  /\ (cs_started (clientStats events) + cs_finished (clientStats events)
      <= cs_total (clientStats events))%nat
  /\ (actions = [] -> cs_successRate (clientStats events) = 100%float)
  /\ (actions <> [] -> (List.length actions <= 1000)%nat ->
      exists k : Z,
        cs_successRate (clientStats events) = float_of_Z k
        /\ (0 <= k <= 100)%Z
        /\ nearestPercent (Z.of_nat (List.length actions - List.length failed))
                          (Z.of_nat (List.length actions)) k).
Proof.
  cbv zeta. unfold clientStats. cbn [cs_failedActions cs_started cs_finished cs_total
                                      cs_successRate].
  change (fun e : StoredEvent => String.eqb (event (payload e)) EVENT_FINISHED)
    with isFinished.
  change (fun e : StoredEvent => String.eqb (event (payload e)) EVENT_STARTED)
    with isStarted.
  rewrite totalActionsOf_length, failedActionsOf_length.
  set (actions := flat_map actionsOrEmpty (filter isFinished events)).
  split; [reflexivity|].
  split; [apply disjoint_filters_length; exact started_not_finished|].
  split.
  - intros ->. reflexivity.
  - intros Hne Hlen.
    assert (Hpos : (0 < List.length actions)%nat).
    { destruct actions; [congruence | simpl; lia]. }
    destruct (Nat.ltb_spec 0 (List.length actions)) as [_|Hc]; [|lia].
    pose proof (StatsFacts.filter_length_le isFailed actions) as Hfailed.
    apply (StatsFacts.percent_nearest
             (Z.of_nat (List.length actions - List.length (filter isFailed actions)))
             (Z.of_nat (List.length actions))); lia.
Qed.

End SummaryFacts.
